(** * Events API: request validation, normalisation and pagination

    A shallow embedding of the Node.js sources

      - [src/utils/validator.js]          (field validation, pagination)
      - [src/controllers/eventController.js] (the five request handlers)
      - [src/routes/eventRoutes.js]       (dispatch of GET /events)
      - [src/config/database.js]          (identifier codec, collection access)
      - [src/middleware/errorHandler.js]  (APIError and the central responder)

    together with the part of the JavaScript run-time these files rely on:
    strings as sequences of UTF-16 code units, numbers with the
    not-a-number and infinite values, truthiness, [parseInt],
    [String.prototype.trim] and [JSON.parse]. *)

From Stdlib Require Import ZArith NArith List String Ascii Bool Lia.
From Stdlib Require DecimalString.
From stdpp Require Import gmap strings list fin_maps.
Import ListNotations.

Local Open Scope string_scope.
Local Open Scope list_scope.
Local Open Scope Z_scope.

Set Warnings "-register-all".

(** ** JavaScript strings *)

(** A JavaScript string is a sequence of UTF-16 code units.  Field names
    and the messages written in the sources are kept as Rocq strings;
    request text is a [jstring]. *)
Definition jstring : Type := list N.

(** The code units of an ASCII literal. *)
Definition js (s : string) : jstring :=
  map N_of_ascii (list_ascii_of_string s).

Definition jstring_eqb (a b : jstring) : bool := bool_decide (a = b).

(** WhiteSpace and LineTerminator code units, the set stripped by
    [trim] and skipped by [parseInt]. *)
Definition StrWhiteSpaceChar (c : N) : bool :=
  ((9 <=? c) && (c <=? 13) || (c =? 32) || (c =? 0xA0) || (c =? 0x1680)
   || (0x2000 <=? c) && (c <=? 0x200A) || (c =? 0x2028) || (c =? 0x2029)
   || (c =? 0x202F) || (c =? 0x205F) || (c =? 0x3000) || (c =? 0xFEFF))%N.

Fixpoint trimStart (s : jstring) : jstring :=
  match s with
  | c :: r => if StrWhiteSpaceChar c then trimStart r else s
  | [] => []
  end.

Definition trimEnd (s : jstring) : jstring := rev (trimStart (rev s)).

(** [s.trim()] *)
Definition trim (s : jstring) : jstring := trimEnd (trimStart s).

(** ** JavaScript numbers *)

(** [Fin m e] is the number [m * 10^e]; integers have [e = 0].  Where a
    number is built, from a text or by arithmetic ([of_integer],
    [of_decimal], [number_sub], [number_mul]), the exact result is
    rounded to the nearest double, ties to even, with overflow to an
    infinity and underflow to zero: what these return is a double.  Zero
    carries no sign.  [number_ceil_div] takes the ceiling of the exact
    quotient, which is the ceiling of the rounded quotient for a
    dividend below 2^46 and a divisor from 1 to 100. *)
Inductive number : Type :=
  | NaN
  | Infinity (neg : bool)
  | Fin (m e : Z).

Abbreviation Int z := (Fin z 0).

(** Magnitudes from [2^1024 - 2^970] on round to an infinity. *)
Definition overflow_bound : Z := 2 ^ 1024 - 2 ^ 970.

(** [num / den] rounded to the nearest integer, ties to the even one. *)
Definition half_even (num den : Z) : Z :=
  let q := num / den in
  let r := num mod den in
  if 2 * r <? den then q
  else if den <? 2 * r then q + 1
  else if Z.even q then q else q + 1.

(** The double nearest to the integer [z]: integers up to 2^53 are
    doubles; a larger one keeps 53 significant bits. *)
Definition round_integer (z : Z) : Z :=
  if Z.abs z <=? 2 ^ 53 then z
  else
    let u := Z.log2 (Z.abs z) - 52 in
    Z.sgn z * (half_even (Z.abs z) (2 ^ u) * 2 ^ u).

Definition of_integer (z : Z) : number :=
  if overflow_bound <=? Z.abs z then Infinity (z <? 0)
  else Int (round_integer z).

(** [a / b >= 2^q], for positive [a] and [b]. *)
Definition at_least_pow2 (a b q : Z) : bool :=
  if 0 <=? q then b * 2 ^ q <=? a else b <=? a * 2 ^ (- q).

(** The double nearest to the positive rational [a / b], as the pair
    [(M, u)] of its value [M * 2^u]: 53 significant bits, and the fixed
    unit 2^-1074 for the subnormal ones. *)
Definition nearest_double (a b : Z) : Z * Z :=
  let q0 := Z.log2 a - Z.log2 b in
  let q := if at_least_pow2 a b q0 then q0 else q0 - 1 in
  let u := Z.max (q - 52) (-1074) in
  (if 0 <=? u then half_even a (b * 2 ^ u) else half_even (a * 2 ^ (- u)) b,
   u).

(** The number [M * 2^u], written in base ten without trailing zeros. *)
Definition of_binary (M u : Z) : number :=
  if 0 <=? u then Int (M * 2 ^ u)
  else if M mod 2 ^ (- u) =? 0 then Int (M / 2 ^ (- u))
  else
    let g := Z.gcd M (2 ^ (- u)) in
    let k := - u - Z.log2 g in
    Fin (M / g * 5 ^ k) (- k).

(** The double nearest to the decimal [m * 10^e]. *)
Definition of_decimal (m e : Z) : number :=
  if m =? 0 then Int 0
  else if 0 <=? e then of_integer (m * 10 ^ e)
  else if overflow_bound * 10 ^ (- e) <=? Z.abs m then Infinity (m <? 0)
  else
    let '(M, u) := nearest_double (Z.abs m) (10 ^ (- e)) in
    of_binary (Z.sgn m * M) u.

Definition isNaN (n : number) : bool :=
  match n with NaN => true | _ => false end.

(** Truthiness of a number: zero and not-a-number are falsy. *)
Definition number_truthy (n : number) : bool :=
  match n with
  | NaN => false
  | Infinity _ => true
  | Fin m _ => negb (m =? 0)
  end.

(** [a || b] on numbers. *)
Definition number_or (a b : number) : number :=
  if number_truthy a then a else b.

(** Both finite values scaled to the smaller exponent. *)
Definition align (m1 e1 m2 e2 : Z) : Z * Z :=
  let k := Z.min e1 e2 in (m1 * 10 ^ (e1 - k), m2 * 10 ^ (e2 - k)).

(** [a < b]; any comparison with not-a-number is false. *)
Definition number_lt (a b : number) : bool :=
  match a, b with
  | NaN, _ | _, NaN => false
  | Infinity na, Infinity nb => na && negb nb
  | Infinity na, Fin _ _ => na
  | Fin _ _, Infinity nb => negb nb
  | Fin m1 e1, Fin m2 e2 => let '(x, y) := align m1 e1 m2 e2 in x <? y
  end.

(** [a > b] *)
Definition number_gt (a b : number) : bool := number_lt b a.

(** [a - b] *)
Definition number_sub (a b : number) : number :=
  match a, b with
  | NaN, _ | _, NaN => NaN
  | Infinity na, Infinity nb => if eqb na nb then NaN else Infinity na
  | Infinity na, Fin _ _ => Infinity na
  | Fin _ _, Infinity nb => Infinity (negb nb)
  | Fin m1 e1, Fin m2 e2 =>
      let '(x, y) := align m1 e1 m2 e2 in of_decimal (x - y) (Z.min e1 e2)
  end.

Definition number_negative (a : number) : bool :=
  match a with
  | NaN => false
  | Infinity neg => neg
  | Fin m _ => m <? 0
  end.

(** [a * b] *)
Definition number_mul (a b : number) : number :=
  match a, b with
  | NaN, _ | _, NaN => NaN
  | Fin m1 e1, Fin m2 e2 => of_decimal (m1 * m2) (e1 + e2)
  | _, _ =>
      if number_truthy a && number_truthy b
      then Infinity (xorb (number_negative a) (number_negative b))
      else NaN
  end.

(** [Math.ceil(a / b)] *)
Definition number_ceil_div (a b : number) : number :=
  match a, b with
  | NaN, _ | _, NaN => NaN
  | Infinity _, Infinity _ => NaN
  | Infinity na, Fin m _ => Infinity (xorb na (m <? 0))
  | Fin _ _, Infinity _ => Int 0
  | Fin m1 e1, Fin m2 e2 =>
      if m2 =? 0 then
        if m1 =? 0 then NaN else Infinity (m1 <? 0)
      else
        let '(x, y) := align m1 e1 m2 e2 in
        Int (- ((- x) / y))
  end.

(** ** parseInt *)

(** The value of a code unit as a digit in radix 36. *)
Definition digit_value (c : N) : option Z :=
  if ((48 <=? c) && (c <=? 57))%N then Some (Z.of_N c - 48)
  else if ((97 <=? c) && (c <=? 122))%N then Some (Z.of_N c - 87)
  else if ((65 <=? c) && (c <=? 90))%N then Some (Z.of_N c - 55)
  else None.

Definition radix_digit (R : Z) (c : N) : option Z :=
  match digit_value c with
  | Some d => if d <? R then Some d else None
  | None => None
  end.

(** The value of the longest prefix of radix-[R] digits; [acc] is the
    value read so far, [None] while no digit has been read. *)
Fixpoint digits_prefix (R : Z) (s : jstring) (acc : option Z) : option Z :=
  match s with
  | c :: r =>
      match radix_digit R c with
      | Some d => digits_prefix R r (Some (R * default 0 acc + d))
      | None => acc
      end
  | [] => acc
  end.

(** [parseInt(text)] without a radix argument: leading white space is
    skipped, then an optional sign, then an optional [0x] prefix that
    selects radix 16; the longest digit prefix is read and everything
    after it is ignored.  No digit at all gives not-a-number. *)
Definition parseInt (input : jstring) : number :=
  let s := trimStart input in
  let '(negative, s) :=
    match s with
    | c :: r => if (c =? 45)%N then (true, r)
                else if (c =? 43)%N then (false, r) else (false, s)
    | [] => (false, s)
    end in
  let '(R, s) :=
    match s with
    | c0 :: cx :: r =>
        if ((c0 =? 48) && ((cx =? 120) || (cx =? 88)))%N then (16, r)
        else (10, s)
    | _ => (10, s)
    end in
  match digits_prefix R s None with
  | None => NaN
  | Some mathInt => of_integer (if negative then - mathInt else mathInt)
  end.

(** ** JavaScript values *)

(** The store's internal identifier, represented by its hexadecimal
    text (which is also the text JavaScript converts it to). *)
Definition ObjectId : Type := jstring.

(** The values that occur in request bodies, normalised records and
    stored documents.  [VDate None] is the Invalid Date; [VDate (Some t)]
    is the moment [t] milliseconds after the epoch.  The members of an
    object are kept in the order in which the object enumerates them. *)
Inductive value : Type :=
  | VUndef
  | VNull
  | VBool (b : bool)
  | VNum (n : number)
  | VStr (s : jstring)
  | VArr (items : list value)
  | VObj (members : list (jstring * value))
  | VDate (t : option Z)
  | VOid (o : ObjectId).

(** Truthiness, as tested by [if (v)], [!v], [a && b] and [a || b]. *)
Definition truthy (v : value) : bool :=
  match v with
  | VUndef | VNull => false
  | VBool b => b
  | VNum n => number_truthy n
  | VStr s => match s with [] => false | _ => true end
  | VArr _ | VObj _ | VDate _ | VOid _ => true
  end.

(** [typeof v === 'string'] *)
Definition is_string (v : value) : bool :=
  match v with VStr _ => true | _ => false end.

(** [Array.isArray(v)] *)
Definition Array_isArray (v : value) : bool :=
  match v with VArr _ => true | _ => false end.

(** [v !== undefined] *)
Definition is_defined (v : value) : bool :=
  match v with VUndef => false | _ => true end.

(** The integer part of [m * 10^e], towards zero. *)
Definition truncate (m e : Z) : Z :=
  if 0 <=? e then m * 10 ^ e else Z.quot m (10 ^ (- e)).

(** The first digit of the positive integer [n] and the number of
    digits after it. *)
Fixpoint leading_digit_from (fuel : nat) (n p : Z) : Z * Z :=
  match fuel with
  | O => (n, p)
  | S fuel' =>
      if n <? 10 then (n, p) else leading_digit_from fuel' (n / 10) (p + 1)
  end.

Definition leading_digit (n : Z) : Z * Z :=
  leading_digit_from (S (Z.to_nat (Z.log2 n))) n 0.

Definition same_number (a b : number) : bool :=
  negb (number_lt a b) && negb (number_lt b a).

(** The text of a finite number is in exponent notation when the
    number is not zero and its magnitude is below the double of 1e-6 or
    at least 1e21. *)
Definition exponent_notation (m e : Z) : bool :=
  let x := Fin (Z.abs m) e in
  negb (m =? 0)
  && (number_lt x (of_decimal 1 (-6)) || negb (number_lt x (Int (10 ^ 21)))).

(** The first digit of the text of the positive double [m * 10^e]: the
    text shows the shortest decimal that rounds to the double, so its
    first digit is the first digit of the double's own value, unless the
    next one-digit decimal already rounds to the double. *)
Definition first_digit (m e : Z) : Z :=
  let '(d, p) := leading_digit m in
  if same_number (of_decimal (d + 1) (p + e)) (Fin m e)
  then (if d =? 9 then 1 else d + 1)
  else d.

(** [parseInt(v)] for an arbitrary value: the value is converted to text
    first.  The text of a finite number in plain notation shows the
    shortest decimal that rounds to it, whose integer part is the
    integer part of the number; in exponent notation [parseInt] reads
    the sign and the first digit only.  The text of a Date starts with
    the name of a weekday, or is "Invalid Date"; the text of a plain
    object is "[object Object]"; the text of an array is the texts of
    its items separated by commas (nothing for null and undefined
    items), of which [parseInt] can only read into the first. *)
Fixpoint parseInt_value (v : value) : number :=
  match v with
  | VStr s => parseInt s
  | VUndef => parseInt (js "undefined")
  | VNull => parseInt (js "null")
  | VBool b => parseInt (js (if b then "true" else "false"))
  | VNum NaN => parseInt (js "NaN")
  | VNum (Infinity neg) => parseInt (js (if neg then "-Infinity" else "Infinity"))
  | VNum (Fin m e) =>
      if exponent_notation m e then Int (Z.sgn m * first_digit (Z.abs m) e)
      else of_integer (truncate m e)
  | VDate _ => NaN
  | VOid o => parseInt o
  | VObj _ => parseInt (js "[object Object]")
  | VArr [] => parseInt []
  | VArr (x :: _) =>
      match x with
      | VUndef | VNull => parseInt []
      | _ => parseInt_value x
      end
  end.

(** ** JSON.parse *)

(** The text is read one code unit at a time by a lexer, whose tokens
    drive a parser that keeps the enclosing arrays and objects on a
    stack.  [None] is the SyntaxError. *)
Inductive token : Type :=
  | TLBracket | TRBracket | TLBrace | TRBrace | TComma | TColon
  | TValue (v : value).

Inductive number_phase : Type :=
  | NMinus | NZero | NInt | NDot | NFrac | NE | NESign | NExp.

Record number_lex : Type := {
  phase : number_phase;
  negative : bool;
  mantissa : Z;
  fraction_digits : Z;
  exponent_negative : bool;
  exponent : Z
}.

Inductive lexer : Type :=
  | LIdle
  | LString (acc : jstring)
  | LEscape (acc : jstring)
  | LUnicode (acc : jstring) (expected : nat) (code : N)
  | LLiteral (rest : jstring) (v : value)
  | LNumber (n : number_lex).

Definition number_token (n : number_lex) : token :=
  let m := if negative n then - mantissa n else mantissa n in
  let e := if exponent_negative n then - exponent n else exponent n in
  TValue (VNum (of_decimal m (e - fraction_digits n))).

Definition decimal_digit (c : N) : option Z :=
  if ((48 <=? c) && (c <=? 57))%N then Some (Z.of_N c - 48) else None.

(** The value of a run of decimal digits. *)
Fixpoint decimal (s : jstring) (acc : Z) : option Z :=
  match s with
  | [] => Some acc
  | c :: r =>
      match decimal_digit c with
      | Some d => decimal r (10 * acc + d)
      | None => None
      end
  end.

Definition start_number (p : number_phase) (neg : bool) (d : Z) : lexer :=
  LNumber {| phase := p; negative := neg; mantissa := d;
             fraction_digits := 0; exponent_negative := false;
             exponent := 0 |}.

(** A code unit met between two tokens. *)
Definition lex_idle (c : N) : option (list token * lexer) :=
  if ((c =? 32) || (c =? 9) || (c =? 10) || (c =? 13))%N then Some ([], LIdle)
  else if (c =? 91)%N then Some ([TLBracket], LIdle)
  else if (c =? 93)%N then Some ([TRBracket], LIdle)
  else if (c =? 123)%N then Some ([TLBrace], LIdle)
  else if (c =? 125)%N then Some ([TRBrace], LIdle)
  else if (c =? 44)%N then Some ([TComma], LIdle)
  else if (c =? 58)%N then Some ([TColon], LIdle)
  else if (c =? 34)%N then Some ([], LString [])
  else if (c =? 45)%N then Some ([], start_number NMinus true 0)
  else if (c =? 48)%N then Some ([], start_number NZero false 0)
  else if (c =? 116)%N then Some ([], LLiteral (js "rue") (VBool true))
  else if (c =? 102)%N then Some ([], LLiteral (js "alse") (VBool false))
  else if (c =? 110)%N then Some ([], LLiteral (js "ull") VNull)
  else match decimal_digit c with
       | Some d => Some ([], start_number NInt false d)
       | None => None
       end.

(** The number is complete; the code unit that ended it is read again
    as the start of the next token. *)
Definition end_number (n : number_lex) (c : N) : option (list token * lexer) :=
  match lex_idle c with
  | Some (ts, l) => Some (number_token n :: ts, l)
  | None => None
  end.

Definition is_e (c : N) : bool := ((c =? 101) || (c =? 69))%N.

Definition lex_number (n : number_lex) (c : N) : option (list token * lexer) :=
  let continue (p : number_phase) (n' : number_lex) :=
    Some ([], LNumber {| phase := p; negative := negative n';
                         mantissa := mantissa n';
                         fraction_digits := fraction_digits n';
                         exponent_negative := exponent_negative n';
                         exponent := exponent n' |}) in
  let with_digit (d : Z) :=
    {| phase := phase n; negative := negative n;
       mantissa := 10 * mantissa n + d;
       fraction_digits := fraction_digits n;
       exponent_negative := exponent_negative n; exponent := exponent n |} in
  let with_fraction (d : Z) :=
    {| phase := phase n; negative := negative n;
       mantissa := 10 * mantissa n + d;
       fraction_digits := fraction_digits n + 1;
       exponent_negative := exponent_negative n; exponent := exponent n |} in
  let with_exponent (d : Z) :=
    {| phase := phase n; negative := negative n; mantissa := mantissa n;
       fraction_digits := fraction_digits n;
       exponent_negative := exponent_negative n;
       exponent := 10 * exponent n + d |} in
  let with_sign (neg : bool) :=
    {| phase := phase n; negative := negative n; mantissa := mantissa n;
       fraction_digits := fraction_digits n;
       exponent_negative := neg; exponent := exponent n |} in
  match phase n with
  | NMinus =>
      match decimal_digit c with
      | Some d => continue (if d =? 0 then NZero else NInt) (with_digit d)
      | None => None
      end
  | NZero =>
      if (c =? 46)%N then continue NDot n
      else if is_e c then continue NE n
      else end_number n c
  | NInt =>
      match decimal_digit c with
      | Some d => continue NInt (with_digit d)
      | None =>
          if (c =? 46)%N then continue NDot n
          else if is_e c then continue NE n
          else end_number n c
      end
  | NDot =>
      match decimal_digit c with
      | Some d => continue NFrac (with_fraction d)
      | None => None
      end
  | NFrac =>
      match decimal_digit c with
      | Some d => continue NFrac (with_fraction d)
      | None => if is_e c then continue NE n else end_number n c
      end
  | NE =>
      match decimal_digit c with
      | Some d => continue NExp (with_exponent d)
      | None =>
          if (c =? 43)%N then continue NESign (with_sign false)
          else if (c =? 45)%N then continue NESign (with_sign true)
          else None
      end
  | NESign =>
      match decimal_digit c with
      | Some d => continue NExp (with_exponent d)
      | None => None
      end
  | NExp =>
      match decimal_digit c with
      | Some d => continue NExp (with_exponent d)
      | None => end_number n c
      end
  end.

(** The code unit written by a one-letter escape. *)
Definition escape_char (c : N) : option N :=
  if (c =? 34)%N then Some 34%N
  else if (c =? 92)%N then Some 92%N
  else if (c =? 47)%N then Some 47%N
  else if (c =? 98)%N then Some 8%N
  else if (c =? 102)%N then Some 12%N
  else if (c =? 110)%N then Some 10%N
  else if (c =? 114)%N then Some 13%N
  else if (c =? 116)%N then Some 9%N
  else None.

Definition hex_digit (c : N) : option N :=
  match radix_digit 16 c with
  | Some d => Some (Z.to_N d)
  | None => None
  end.

Definition lex_step (l : lexer) (c : N) : option (list token * lexer) :=
  match l with
  | LIdle => lex_idle c
  | LString acc =>
      if (c =? 34)%N then Some ([TValue (VStr (rev acc))], LIdle)
      else if (c =? 92)%N then Some ([], LEscape acc)
      else if (c <? 32)%N then None
      else Some ([], LString (c :: acc))
  | LEscape acc =>
      if (c =? 117)%N then Some ([], LUnicode acc 4 0%N)
      else match escape_char c with
           | Some x => Some ([], LString (x :: acc))
           | None => None
           end
  | LUnicode acc expected code =>
      match hex_digit c with
      | Some d =>
          let code' := (16 * code + d)%N in
          match expected with
          | S (S k) => Some ([], LUnicode acc (S k) code')
          | _ => Some ([], LString (code' :: acc))
          end
      | None => None
      end
  | LLiteral rest v =>
      match rest with
      | x :: rest' =>
          if (c =? x)%N then
            match rest' with
            | [] => Some ([TValue v], LIdle)
            | _ => Some ([], LLiteral rest' v)
            end
          else None
      | [] => None
      end
  | LNumber n => lex_number n c
  end.

(** The end of the text: a number may end there, a string or a keyword
    may not. *)
Definition lex_end (l : lexer) : option (list token) :=
  match l with
  | LIdle => Some []
  | LNumber n =>
      match phase n with
      | NZero | NInt | NFrac | NExp => Some [number_token n]
      | _ => None
      end
  | _ => None
  end.

(** An enclosing container whose next item is being read: the items (or
    members) read so far, latest first, and for an object the pending
    key. *)
Inductive frame : Type :=
  | InArray (done : list value)
  | InObject (done : list (jstring * value)) (key : jstring).

Inductive parser : Type :=
  | PValue (k : list frame)
  | PFirstItem (k : list frame)
  | PAfterItem (done : list value) (k : list frame)
  | PFirstKey (k : list frame)
  | PKey (done : list (jstring * value)) (k : list frame)
  | PColon (done : list (jstring * value)) (key : jstring) (k : list frame)
  | PAfterMember (done : list (jstring * value)) (k : list frame)
  | PDone (v : value).

(** A property name that is an array index: the decimal text, without
    leading zeros, of an integer from 0 to 2^32 - 2. *)
Definition array_index (k : jstring) : option Z :=
  match k with
  | [] => None
  | c :: r =>
      if ((c =? 48)%N && negb (bool_decide (r = []))) then None
      else match decimal k 0 with
           | Some n => if n <=? 2 ^ 32 - 2 then Some n else None
           | None => None
           end
  end.

Definition has_member (k : jstring) (ms : list (jstring * value)) : bool :=
  existsb (fun kv => jstring_eqb (fst kv) k) ms.

Definition set_member (k : jstring) (v : value) (ms : list (jstring * value))
  : list (jstring * value) :=
  map (fun kv => if jstring_eqb (fst kv) k then (k, v) else kv) ms.

(** The place of a new index among the members: after the smaller
    indices, before the larger ones and before every other name. *)
Fixpoint insert_index (n : Z) (k : jstring) (v : value)
    (ms : list (jstring * value)) : list (jstring * value) :=
  match ms with
  | [] => [(k, v)]
  | kv :: r =>
      match array_index (fst kv) with
      | Some n' => if n' <? n then kv :: insert_index n k v r else (k, v) :: ms
      | None => (k, v) :: ms
      end
  end.

(** One member is defined on the object under construction: a name it
    has already keeps its place and takes the new value; a new index
    goes among the indices, in ascending order; any other new name goes
    last. *)
Definition define_member (ms : list (jstring * value)) (kv : jstring * value)
  : list (jstring * value) :=
  let '(k, v) := kv in
  if has_member k ms then set_member k v ms
  else match array_index k with
       | Some n => insert_index n k v ms
       | None => ms ++ [(k, v)]
       end.

(** The members of the object written as [written], in the order in
    which the object enumerates them. *)
Definition object_members (written : list (jstring * value))
  : list (jstring * value) :=
  fold_left define_member written [].

(** A value is complete: hand it to the enclosing container. *)
Definition plug (v : value) (k : list frame) : parser :=
  match k with
  | [] => PDone v
  | InArray done :: k' => PAfterItem (v :: done) k'
  | InObject done key :: k' => PAfterMember ((key, v) :: done) k'
  end.

(** The start of a value in context [k]. *)
Definition parse_value (t : token) (k : list frame) : option parser :=
  match t with
  | TValue v => Some (plug v k)
  | TLBracket => Some (PFirstItem k)
  | TLBrace => Some (PFirstKey k)
  | _ => None
  end.

Definition parse_step (p : parser) (t : token) : option parser :=
  match p with
  | PValue k => parse_value t k
  | PFirstItem k =>
      match t with
      | TRBracket => Some (plug (VArr []) k)
      | _ => parse_value t (InArray [] :: k)
      end
  | PAfterItem done k =>
      match t with
      | TComma => Some (PValue (InArray done :: k))
      | TRBracket => Some (plug (VArr (rev done)) k)
      | _ => None
      end
  | PFirstKey k =>
      match t with
      | TRBrace => Some (plug (VObj []) k)
      | TValue (VStr key) => Some (PColon [] key k)
      | _ => None
      end
  | PKey done k =>
      match t with
      | TValue (VStr key) => Some (PColon done key k)
      | _ => None
      end
  | PColon done key k =>
      match t with
      | TColon => Some (PValue (InObject done key :: k))
      | _ => None
      end
  | PAfterMember done k =>
      match t with
      | TComma => Some (PKey done k)
      | TRBrace => Some (plug (VObj (object_members (rev done))) k)
      | _ => None
      end
  | PDone _ => None
  end.

Fixpoint parse_tokens (p : parser) (ts : list token) : option parser :=
  match ts with
  | [] => Some p
  | t :: ts' =>
      match parse_step p t with
      | Some p' => parse_tokens p' ts'
      | None => None
      end
  end.

Fixpoint JSON_run (l : lexer) (p : parser) (text : jstring) : option parser :=
  match text with
  | c :: text' =>
      match lex_step l c with
      | Some (ts, l') =>
          match parse_tokens p ts with
          | Some p' => JSON_run l' p' text'
          | None => None
          end
      | None => None
      end
  | [] =>
      match lex_end l with
      | Some ts => parse_tokens p ts
      | None => None
      end
  end.

(** [JSON.parse(text)]; [None] when it throws. *)
Definition JSON_parse (text : jstring) : option value :=
  match JSON_run LIdle (PValue []) text with
  | Some (PDone v) => Some v
  | _ => None
  end.

(** ** Errors and results *)

(** What [errorHandler] reads of a thrown object: its [name], [message],
    [statusCode] and [code] properties. *)
Record error : Type := {
  err_name : string;
  err_message : string;
  err_statusCode : option Z;
  err_code : option string
}.

(** [new APIError(message, statusCode)]; the class extends [Error] and
    keeps its name.  (Its [status] and [isOperational] properties are
    read nowhere in the sources and are left out.) *)
Definition APIError (message : string) (statusCode : Z) : error :=
  {| err_name := "Error"; err_message := message;
     err_statusCode := Some statusCode; err_code := None |}.

(** An error raised by the run-time or by the store driver: a name and a
    message, no [statusCode]. *)
Definition PlainError (name message : string) : error :=
  {| err_name := name; err_message := message;
     err_statusCode := None; err_code := None |}.

(** The outcome of a call that may throw. *)
Inductive result (A : Type) : Type :=
  | Returned (a : A)
  | Threw (e : error).

Arguments Returned {A} a.
Arguments Threw {A} e.

#[global] Instance result_ret : MRet result := @Returned.

#[global] Instance result_bind : MBind result := fun A B f r =>
  match r with
  | Returned a => f a
  | Threw e => Threw e
  end.

(** [try { body } catch (error) { handler }] *)
Definition try_catch {A : Type} (body : result A) (handler : error -> result A)
  : result A :=
  match body with
  | Returned a => Returned a
  | Threw e => handler e
  end.

(** ** Records *)

(** A plain object used as a record: request body, normalised record,
    stored document. *)
Abbreviation obj := (gmap string value).

(** [o[k]]: an absent property reads as [undefined]. *)
Definition get (o : obj) (k : string) : value := default VUndef (o !! k).

(** ** The platform *)

(** What the sources take from outside the repository: the identifier
    format of the store driver ([ObjectId.isValid], [new ObjectId], which
    may throw), the date parser of the JavaScript engine, which
    ECMAScript leaves to the implementation for text outside the ISO
    format, the sort order of the store, and what the store does with a
    [$set] whose field names are not all plain names (a name with a dot
    is a path into the document): [update_refused] is its refusal of
    such an update by itself, before any document is matched (for
    instance for two paths that conflict), and [set_paths] is the
    matched document after the update, or the refusal to apply it. *)
Class Platform : Type := {
  ObjectId_isValid : value -> result bool;
  ObjectId_new : value -> result ObjectId;
  Date_parse : value -> option Z;
  sort_schedule_descending : list obj -> list obj;
  update_refused : obj -> option error;
  set_paths : obj -> obj -> result obj
}.

(** The time value of a number, if it denotes a moment. *)
Definition TimeClip (n : number) : option Z :=
  match n with
  | NaN | Infinity _ => None
  | Fin m e =>
      let t := truncate m e in
      if Z.abs t <=? 8640000000000000 then Some t else None
  end.

(** The time value of [new Date(v)], [None] for the Invalid Date.  A
    Date is copied; a number, a boolean and null are a time value;
    anything else is converted to text and read by the engine's parser,
    for which [Date_parse] stands. *)
Definition Date_new `{Platform} (v : value) : option Z :=
  match v with
  | VDate t => t
  | VNum n => TimeClip n
  | VNull => Some 0
  | VBool b => Some (if b then 1 else 0)
  | VUndef => None
  | VStr _ | VArr _ | VObj _ | VOid _ => Date_parse v
  end.

(** ** src/utils/validator.js *)

(** The test applied to each required field:
    [!data[field] || (typeof data[field] === 'string' && data[field].trim() === '')] *)
Definition field_missing (data : obj) (field : string) : bool :=
  let v := get data field in
  negb (truthy v)
  || (is_string v
      && match v with
         | VStr s => jstring_eqb (trim s) []
         | _ => false
         end).

(** [missingFields.join(', ')] *)
Definition join_fields (fs : list string) : string := String.concat ", " fs.

Definition validateRequiredFields (data : obj) (requiredFields : list string)
  : result unit :=
  let missingFields := filter (fun f => field_missing data f = true) requiredFields in
  if (0 <? Z.of_nat (length missingFields)) then
    Threw (APIError ("Missing required fields: " +:+ join_fields missingFields) 400)
  else Returned tt.

Definition requiredFields : list string :=
  [ "name"; "tagline"; "schedule"; "description"; "moderator"; "category";
    "sub_category"; "rigor_rank" ].

Definition validateEventData `{Platform} (eventData : obj) (isUpdate : bool)
  : result unit :=
  (if negb isUpdate then validateRequiredFields eventData requiredFields
   else Returned tt) ;;
  (if is_defined (get eventData "rigor_rank") then
     let rigorRank := parseInt_value (get eventData "rigor_rank") in
     if isNaN rigorRank
     then Threw (APIError "rigor_rank must be a valid integer" 400)
     else Returned tt
   else Returned tt) ;;
  (if truthy (get eventData "schedule") then
     match Date_new (get eventData "schedule") with
     | None => Threw (APIError "schedule must be a valid date/time" 400)
     | Some _ => Returned tt
     end
   else Returned tt) ;;
  (if truthy (get eventData "attendees") then
     if negb (Array_isArray (get eventData "attendees"))
     then Threw (APIError "attendees must be an array of user IDs" 400)
     else Returned tt
   else Returned tt).

Record page_request : Type := {
  limit : number;
  page : number;
  skip : number
}.

Definition validatePagination (limit page : value) : result page_request :=
  let parsedLimit := number_or (parseInt_value limit) (Int 10) in
  let parsedPage := number_or (parseInt_value page) (Int 1) in
  if number_lt parsedLimit (Int 1) || number_gt parsedLimit (Int 100) then
    Threw (APIError "Limit must be between 1 and 100" 400)
  else if number_lt parsedPage (Int 1) then
    Threw (APIError "Page must be greater than 0" 400)
  else
    Returned {| limit := parsedLimit; page := parsedPage;
                skip := number_mul (number_sub parsedPage (Int 1)) parsedLimit |}.

(** ** Responses and src/middleware/errorHandler.js *)

Record pagination : Type := {
  currentPage : number;
  totalPages : number;
  totalEvents : number;
  eventsPerPage : number;
  hasNextPage : bool;
  hasPrevPage : bool
}.

(** The JSON body of a response. *)
Inductive payload : Type :=
  | Data (data : obj)
  | Page (data : list obj) (p : pagination)
  | Message (message : string) (data : obj)
  | Failure (error : string).

Record response : Type := {
  status : Z;
  body : payload
}.

(** [a || b] on message text. *)
Definition string_or (a b : string) : string :=
  match a with EmptyString => b | _ => a end.

Definition code_is (err : error) (c : string) : bool :=
  bool_decide (err_code err = Some c).

Definition name_is (err : error) (n : string) : bool :=
  bool_decide (err_name err = n).

(** The central responder.  (The stack trace added to the body in
    development mode is left out.) *)
Definition errorHandler (err : error) : response :=
  let message := err_message err in
  let statusCode :=
    match err_statusCode err with
    | Some c => if c =? 0 then 500 else c
    | None => 500
    end in
  let '(message, statusCode) :=
    if code_is err "LIMIT_FILE_SIZE"
    then ("File size too large. Maximum size is 5MB", 400)
    else (message, statusCode) in
  let '(message, statusCode) :=
    if code_is err "LIMIT_UNEXPECTED_FILE"
    then ("Too many files or unexpected field name", 400)
    else (message, statusCode) in
  let '(message, statusCode) :=
    if name_is err "MongoError"
    then ("Database error occurred", 500)
    else (message, statusCode) in
  let '(message, statusCode) :=
    if name_is err "ValidationError"
    then (string_or (err_message err) "Validation failed", 400)
    else (message, statusCode) in
  {| status := statusCode;
     body := Failure (string_or message "Internal server error") |}.

(** ** src/config/database.js and the record store *)

(** The documents of the [events] collection, in insertion order. *)
Abbreviation collection := (list obj).

(** The module-level connection handle [db]: [None] until [connectDB]
    has run. *)
Abbreviation database := (option collection).

(** A computation of a handler: it reads and writes the store and may
    throw. *)
Definition M (A : Type) : Type := database -> result A * database.

#[global] Instance M_ret : MRet M := fun A a db => (Returned a, db).

#[global] Instance M_bind : MBind M := fun A B f m db =>
  match m db with
  | (Returned a, db') => f a db'
  | (Threw e, db') => (Threw e, db')
  end.

Definition throw {A : Type} (e : error) : M A := fun db => (Threw e, db).

Definition lift {A : Type} (r : result A) : M A := fun db => (r, db).

(** An operation on the collection; [getDB] throws while the handle is
    unset. *)
Definition on_collection {A : Type} (f : collection -> result A * collection)
  : M A :=
  fun db =>
    match db with
    | Some c => let '(r, c') := f c in (r, Some c')
    | None =>
        (Threw (PlainError "Error" "Database not initialized. Call connectDB first."),
         db)
    end.

Definition getCollection : M unit :=
  on_collection (fun c => (Returned tt, c)).

Definition toObjectId `{Platform} (id : value) : result (option ObjectId) :=
  try_catch
    (valid ← ObjectId_isValid id;
     if valid : bool then o ← ObjectId_new id; Returned (Some o)
     else Returned None)
    (fun _ => Returned None).

(** The filter [{ _id: objectId }]. *)
Definition has_id (o : ObjectId) (d : obj) : bool :=
  match get d "_id" with
  | VOid o' => jstring_eqb o o'
  | _ => false
  end.

(** Equality of two [_id] values: identifiers generated by the driver
    and text supplied by a client. *)
Definition same_id (a b : value) : bool :=
  match a, b with
  | VOid x, VOid y => jstring_eqb x y
  | VStr x, VStr y => jstring_eqb x y
  | _, _ => false
  end.

(** [findOne({ _id: objectId })] *)
Definition findOne (o : ObjectId) : M (option obj) :=
  on_collection (fun c => (Returned (List.find (has_id o) c), c)).

(** [countDocuments({})] *)
Definition countDocuments : M number :=
  on_collection (fun c => (Returned (Int (Z.of_nat (length c))), c)).

(** A number accepted by the store as a count: a whole number from 0
    below 2^63. *)
Definition as_count (n : number) : option Z :=
  match n with
  | Fin m e =>
      let z := truncate m e in
      if (0 <=? m) && (z <? 2 ^ 63)
         && ((0 <=? e) || (m mod 10 ^ (- e) =? 0))
      then Some z else None
  | _ => None
  end.

(** [find({}).sort({ schedule: -1 }).skip(skip).limit(limit).toArray()].
    The find command takes skip and limit as 64-bit integers and fails
    for any other number; the error below stands for the one the driver
    throws then, whose own text is the store's. *)
Definition find_page `{Platform} (skip limit : number) : M (list obj) :=
  on_collection (fun c =>
    match as_count skip, as_count limit with
    | Some s, Some l =>
        let sorted := sort_schedule_descending c in
        (Returned
           (if Z.of_nat (length sorted) <=? s then []
            else take (Z.to_nat l) (drop (Z.to_nat s) sorted)), c)
    | _, _ =>
        (Threw (PlainError "MongoServerError" "skip and limit must be whole numbers"), c)
    end).

(** [insertOne(doc)]: a document without [_id] receives the identifier
    [fresh] generated by the driver (the driver writes it into [doc] as
    well); a second document with the same [_id] is refused.  Returns
    [insertedId] and the document as stored. *)
Definition insertOne (fresh : ObjectId) (doc : obj) : M (value * obj) :=
  on_collection (fun c =>
    let doc' :=
      match get doc "_id" with
      | VUndef | VNull => <["_id" := VOid fresh]> doc
      | _ => doc
      end in
    if existsb (fun d => same_id (get d "_id") (get doc' "_id")) c
    then (Threw (PlainError "MongoServerError" "E11000 duplicate key error"), c)
    else (Returned (get doc' "_id", doc'), c ++ [doc'])).

(** A field name that the store takes as the name of a top-level
    field: not empty, and without a dot (which makes it a path), a
    dollar (an operator or a position) or a NUL. *)
Fixpoint has_char (c : ascii) (s : string) : bool :=
  match s with
  | EmptyString => false
  | String x r => Ascii.eqb x c || has_char c r
  end.

Definition plain_name (k : string) : bool :=
  negb (String.eqb k EmptyString)
  && negb (has_char "."%char k) && negb (has_char "$"%char k)
  && negb (has_char Ascii.zero k).

Definition plain_names {A : Type} (m : gmap string A) : bool :=
  forallb plain_name (fst <$> map_to_list m).

(** What the driver throws carries a name and a message, and neither
    the status code nor the code the central responder looks for. *)
Definition driver_error (e : error) : error :=
  PlainError (err_name e) (err_message e).

(** The fields of [fields] written over those of [d]: the [$set]
    operator for plain field names.  (Values are kept as the handler
    built them; how the driver encodes a not-a-number or an Invalid Date
    on the wire is outside this model.) *)
Definition set_fields (fields d : obj) : obj := fields ∪ d.

Fixpoint update_first (o : ObjectId) (fields : obj) (c : collection)
  : collection :=
  match c with
  | d :: c' =>
      if has_id o d then set_fields fields d :: c'
      else d :: update_first o fields c'
  | [] => []
  end.

(** The first document with identifier [o] replaced by [d']. *)
Fixpoint replace_first (o : ObjectId) (d' : obj) (c : collection)
  : collection :=
  match c with
  | d :: c' => if has_id o d then d' :: c' else d :: replace_first o d' c'
  | [] => []
  end.

Definition immutable_id : error :=
  PlainError "MongoServerError"
    "Performing an update on the path '_id' would modify the immutable field '_id'".

(** [findOneAndUpdate({ _id }, { $set: fields }, { returnDocument: 'after' })]:
    the first matching document, after the update, or [None]; the store
    refuses to change [_id].  With plain field names the fields are
    written over the document; with any other name the outcome is the
    store's ([update_refused], [set_paths]). *)
Definition findOneAndUpdate `{Platform} (o : ObjectId) (fields : obj)
  : M (option obj) :=
  on_collection (fun c =>
    if plain_names fields then
      match List.find (has_id o) c with
      | None => (Returned None, c)
      | Some d =>
          if is_defined (get fields "_id")
             && negb (same_id (get fields "_id") (get d "_id"))
          then (Threw immutable_id, c)
          else (Returned (Some (set_fields fields d)), update_first o fields c)
      end
    else
      match update_refused fields with
      | Some e => (Threw (driver_error e), c)
      | None =>
          match List.find (has_id o) c with
          | None => (Returned None, c)
          | Some d =>
              match set_paths fields d with
              | Threw e => (Threw (driver_error e), c)
              | Returned d' =>
                  if has_id o d' then (Returned (Some d'), replace_first o d' c)
                  else (Threw immutable_id, c)
              end
          end
      end).

Fixpoint delete_first (o : ObjectId) (c : collection) : collection :=
  match c with
  | d :: c' => if has_id o d then c' else d :: delete_first o c'
  | [] => []
  end.

(** [deleteOne({ _id })]; returns [deletedCount]. *)
Definition deleteOne (o : ObjectId) : M Z :=
  on_collection (fun c =>
    (Returned (if existsb (has_id o) c then 1 else 0), delete_first o c)).

(** ** src/controllers/eventController.js *)

(** The query string of a GET request; each parameter is [VUndef] when
    absent and a [VStr] when given. *)
Record query : Type := {
  q_id : value;
  q_type : value;
  q_limit : value;
  q_page : value
}.

(** [v === 'latest'] *)
Definition is_latest (v : value) : bool :=
  match v with
  | VStr s => jstring_eqb s (js "latest")
  | _ => false
  end.

(** [try { ... } catch (error) { next(error) }]: whatever the body
    throws is answered by the central responder. *)
Definition handle (m : M response) : database -> response * database :=
  fun db =>
    match m db with
    | (Returned r, db') => (r, db')
    | (Threw e, db') => (errorHandler e, db')
    end.

Definition getEventById `{Platform} (q : query)
  : database -> response * database :=
  handle (
    let id := q_id q in
    if negb (truthy id) then throw (APIError "Event ID is required" 400)
    else
      objectId ← lift (toObjectId id);
      match objectId with
      | None => throw (APIError "Invalid event ID format" 400)
      | Some objectId =>
          getCollection;;
          event ← findOne objectId;
          match event with
          | None => throw (APIError "Event not found" 404)
          | Some event => mret {| status := 200; body := Data event |}
          end
      end).

Definition getLatestEvents `{Platform} (q : query)
  : database -> response * database :=
  handle (
    if negb (is_latest (q_type q))
    then throw (APIError "Invalid type parameter. Use type=latest" 400)
    else
      p ← lift (validatePagination (q_limit q) (q_page q));
      let validatedLimit := limit p in
      let validatedPage := page p in
      getCollection;;
      totalEvents ← countDocuments;
      events ← find_page (skip p) validatedLimit;
      let totalPages := number_ceil_div totalEvents validatedLimit in
      mret {| status := 200;
              body := Page events
                {| currentPage := validatedPage;
                   totalPages := totalPages;
                   totalEvents := totalEvents;
                   eventsPerPage := validatedLimit;
                   hasNextPage := number_lt validatedPage totalPages;
                   hasPrevPage := number_gt validatedPage (Int 1) |} |}).

(** [JSON.parse(attendees)] inside its own try/catch. *)
Definition parse_attendees (attendees : value) : result value :=
  match attendees with
  | VStr s =>
      match JSON_parse s with
      | Some v => Returned v
      | None => Threw (APIError "Invalid attendees format. Must be a JSON array" 400)
      end
  | _ => Returned attendees
  end.

(** [if (data[k]) data[k] = f(data[k])] *)
Definition convert (k : string) (f : value -> value) (data : obj) : obj :=
  if truthy (get data k) then <[k := f (get data k)]> data else data.

(** A multipart request as the upload middleware hands it over: the
    text fields ([req.body], every value a string) and the path of the
    saved file ([req.file], if one was uploaded). *)
Record form : Type := {
  fields : gmap string jstring;
  file : option jstring
}.

(** [{ ...req.body }] *)
Definition body_copy (f : form) : obj := VStr <$> fields f.

(** The first conversion of [createEvent] (source lines 121-129): a
    non-empty attendees text is decoded, a falsy one (absent, or the
    empty text) becomes the empty sequence, anything else is kept. *)
Definition create_attendees (eventData : obj) : result obj :=
  let attendees := get eventData "attendees" in
  if truthy attendees && is_string attendees then
    parsed ← parse_attendees attendees;
    mret (<["attendees" := parsed]> eventData)
  else if negb (truthy attendees) then
    mret (<["attendees" := VArr []]> eventData)
  else mret eventData.

(** The same conversion in [updateEvent] (source lines 208-214), which
    has no default. *)
Definition update_attendees (updateData : obj) : result obj :=
  let attendees := get updateData "attendees" in
  if truthy attendees && is_string attendees then
    parsed ← parse_attendees attendees;
    mret (<["attendees" := parsed]> updateData)
  else mret updateData.

(** The part of [createEvent] that runs before the store is touched:
    type conversion, file handling, validation and defaults, in the
    order of the source.  [created] and [updated] are the two readings
    of the clock. *)
Definition createEvent_record `{Platform} (created updated : Z) (req : form)
  : result obj :=
  let eventData := body_copy req in
  eventData ← create_attendees eventData;
  let eventData := convert "uid" (fun v => VNum (parseInt_value v)) eventData in
  let eventData := convert "rigor_rank" (fun v => VNum (parseInt_value v)) eventData in
  let eventData := convert "schedule" (fun v => VDate (Date_new v)) eventData in
  eventData ←
    match file req with
    | Some path => mret (<["image" := VStr path]> eventData)
    | None => Threw (APIError "Event image is required" 400)
    end;
  validateEventData eventData false;;
  let eventData := <["type" := VStr (js "event")]> eventData in
  let eventData :=
    <["uid" := if truthy (get eventData "uid") then get eventData "uid"
               else VNum (Int 18)]> eventData in
  let eventData := <["created_at" := VDate (Some created)]> eventData in
  let eventData := <["updated_at" := VDate (Some updated)]> eventData in
  mret eventData.

(** The handler of POST /events.  [fresh] is the identifier the driver
    generates for the insert. *)
Definition createEvent `{Platform} (created updated : Z) (fresh : ObjectId)
    (req : form) : database -> response * database :=
  handle (
    eventData ← lift (createEvent_record created updated req);
    getCollection;;
    '(insertedId, eventData) ← insertOne fresh eventData;
    mret {| status := 201;
            body := Message "Event created successfully"
                      (eventData ∪ {["id" := insertedId]}) |}).

(** The part of [updateEvent] between the identifier check and the
    store: the fields to be written.  [now] is the reading of the
    clock. *)
Definition updateEvent_fields `{Platform} (now : Z) (req : form) : result obj :=
  let updateData := body_copy req in
  if (Z.of_nat (size updateData) =? 0) && negb (bool_decide (is_Some (file req)))
  then Threw (APIError "No update data provided" 400)
  else
    let updateData :=
      match file req with
      | Some path => <["image" := VStr path]> updateData
      | None => updateData
      end in
    updateData ← update_attendees updateData;
    let updateData := convert "rigor_rank" (fun v => VNum (parseInt_value v)) updateData in
    let updateData := convert "schedule" (fun v => VDate (Date_new v)) updateData in
    let updateData := convert "uid" (fun v => VNum (parseInt_value v)) updateData in
    let updateData := <["updated_at" := VDate (Some now)]> updateData in
    mret updateData.

(** The handler of PUT /events/:id. *)
Definition updateEvent `{Platform} (now : Z) (id : jstring) (req : form)
  : database -> response * database :=
  handle (
    objectId ← lift (toObjectId (VStr id));
    match objectId with
    | None => throw (APIError "Invalid event ID format" 400)
    | Some objectId =>
        updateData ← lift (updateEvent_fields now req);
        getCollection;;
        result ← findOneAndUpdate objectId updateData;
        match result with
        | None => throw (APIError "Event not found" 404)
        | Some result =>
            mret {| status := 200;
                    body := Message "Event updated successfully" result |}
        end
    end).

(** The handler of DELETE /events/:id. *)
Definition deleteEvent `{Platform} (id : jstring)
  : database -> response * database :=
  handle (
    objectId ← lift (toObjectId (VStr id));
    match objectId with
    | None => throw (APIError "Invalid event ID format" 400)
    | Some objectId =>
        getCollection;;
        deletedCount ← deleteOne objectId;
        if deletedCount =? 0 then throw (APIError "Event not found" 404)
        else mret {| status := 200;
                     body := Message "Event deleted successfully"
                               {["deletedId" := VStr id]} |}
    end).

(** ** src/routes/eventRoutes.js *)

(** Which handler a GET /events request is given to. *)
Inductive dispatch : Type :=
  | ToGetEventById
  | ToGetLatestEvents
  | NoHandler.

Definition route_events (q : query) : dispatch :=
  if truthy (q_id q) then ToGetEventById
  else if is_latest (q_type q) then ToGetLatestEvents
  else NoHandler.

(** [router.get('/events', ...)] *)
Definition get_events `{Platform} (q : query)
  : database -> response * database :=
  match route_events q with
  | ToGetEventById => getEventById q
  | ToGetLatestEvents => getLatestEvents q
  | NoHandler => fun db =>
      ({| status := 400;
          body := Failure "Invalid query parameters. Use either ?id=<event_id> or ?type=latest&limit=<n>&page=<n>" |},
       db)
  end.

(** ** The stages of the create and update handlers, by name *)

(** The conversions and the file step of [createEvent_record], applied
    to the record [a] that leaves the attendees step. *)
Definition converted `{Platform} (a : obj) (path : jstring) : obj :=
  <["image" := VStr path]>
    (convert "schedule" (fun v => VDate (Date_new v))
       (convert "rigor_rank" (fun v => VNum (parseInt_value v))
          (convert "uid" (fun v => VNum (parseInt_value v)) a))).

(** The defaults and time stamps [createEvent_record] writes after
    validation. *)
Definition stamped (created updated : Z) (e : obj) : obj :=
  let e := <["type" := VStr (js "event")]> e in
  let e := <["uid" := if truthy (get e "uid") then get e "uid"
                      else VNum (Int 18)]> e in
  let e := <["created_at" := VDate (Some created)]> e in
  <["updated_at" := VDate (Some updated)]> e.

(** The document [insertOne] stores for the record [d]. *)
Definition with_id (fresh : ObjectId) (d : obj) : obj :=
  match get d "_id" with
  | VUndef | VNull => <["_id" := VOid fresh]> d
  | _ => d
  end.

(** The body with the path of the uploaded file, if any. *)
Definition with_file (req : form) : obj :=
  match file req with
  | Some path => <["image" := VStr path]> (body_copy req)
  | None => body_copy req
  end.

(** The conversions and the time stamp of [updateEvent_fields]. *)
Definition update_converted `{Platform} (now : Z) (u : obj) : obj :=
  <["updated_at" := VDate (Some now)]>
    (convert "uid" (fun v => VNum (parseInt_value v))
       (convert "schedule" (fun v => VDate (Date_new v))
          (convert "rigor_rank" (fun v => VNum (parseInt_value v)) u))).

(** ** A reference platform *)

(** One platform on which the handlers can be run: identifiers are the
    texts of 24 hexadecimal digits, dates are read in the ISO forms
    [YYYY-MM-DD] and [YYYY-MM-DDTHH:MM:SS.sssZ], and the store orders
    documents by the moment in their [schedule] field and takes plain
    field names only (no request below has any other). *)
Definition is_hex24 (s : jstring) : bool :=
  (length s =? 24)%nat
  && forallb (fun c => bool_decide (is_Some (radix_digit 16 c))) s.

Definition lower_case (c : N) : N :=
  if ((65 <=? c) && (c <=? 90))%N then (c + 32)%N else c.

Definition reference_isValid (v : value) : result bool :=
  match v with
  | VStr s => Returned (is_hex24 s)
  | VOid _ => Returned true
  | _ => Returned false
  end.

Definition reference_ObjectId (v : value) : result ObjectId :=
  match v with
  | VStr s =>
      if is_hex24 s then Returned (map lower_case s)
      else Threw (PlainError "BSONError" "input must be a 24 character hex string")
  | VOid o => Returned o
  | _ => Threw (PlainError "BSONError" "input must be a 24 character hex string")
  end.

Definition digits_at (s : jstring) (from len : nat) : option Z :=
  decimal (take len (drop from s)) 0.

Definition char_at (s : jstring) (i : nat) (c : N) : bool :=
  bool_decide (s !! i = Some c).

Definition leap_year (y : Z) : bool :=
  (y mod 4 =? 0) && (negb (y mod 100 =? 0) || (y mod 400 =? 0)).

Definition days_in_month (y m : Z) : Z :=
  if m =? 2 then (if leap_year y then 29 else 28)
  else if (m =? 4) || (m =? 6) || (m =? 9) || (m =? 11) then 30
  else 31.

(** Days from 1970-01-01 to the given civil date. *)
Definition days_from_civil (y m d : Z) : Z :=
  let y' := if m <=? 2 then y - 1 else y in
  let era := y' / 400 in
  let yoe := y' - era * 400 in
  let doy := (153 * (if 2 <? m then m - 3 else m + 9) + 2) / 5 + d - 1 in
  let doe := yoe * 365 + yoe / 4 - yoe / 100 + doy in
  era * 146097 + doe - 719468.

Definition iso_day (s : jstring) : option Z :=
  y ← digits_at s 0 4; m ← digits_at s 5 2; d ← digits_at s 8 2;
  if char_at s 4 45 && char_at s 7 45
     && (1 <=? m) && (m <=? 12) && (1 <=? d) && (d <=? days_in_month y m)
  then Some (days_from_civil y m d * 86400000) else None.

Definition iso_time (s : jstring) : option Z :=
  h ← digits_at s 11 2; mi ← digits_at s 14 2; sec ← digits_at s 17 2;
  ms ← digits_at s 20 3;
  if char_at s 10 84 && char_at s 13 58 && char_at s 16 58
     && char_at s 19 46 && char_at s 23 90
     && (h <=? 23) && (mi <=? 59) && (sec <=? 59)
  then Some (((h * 60 + mi) * 60 + sec) * 1000 + ms) else None.

Definition reference_Date_parse (v : value) : option Z :=
  match v with
  | VStr s =>
      if (length s =? 10)%nat then iso_day s
      else if (length s =? 24)%nat then
        day ← iso_day s; time ← iso_time s; Some (day + time)
      else None
  | _ => None
  end.

(** The sort key of a document: documents without a moment come last. *)
Definition schedule_key (d : obj) : option Z :=
  match get d "schedule" with
  | VDate (Some t) => Some t
  | _ => None
  end.

Definition before (a b : obj) : bool :=
  match schedule_key a, schedule_key b with
  | Some x, Some y => y <=? x
  | Some _, None => true
  | None, Some _ => false
  | None, None => true
  end.

Fixpoint insert_sorted (d : obj) (l : list obj) : list obj :=
  match l with
  | [] => [d]
  | x :: r => if before x d then x :: insert_sorted d r else d :: l
  end.

Definition reference_sort (l : list obj) : list obj :=
  foldr insert_sorted [] l.

Definition reference : Platform := {|
  ObjectId_isValid := reference_isValid;
  ObjectId_new := reference_ObjectId;
  Date_parse := reference_Date_parse;
  sort_schedule_descending := reference_sort;
  update_refused := fun _ =>
    Some (PlainError "MongoServerError" "field names must be plain");
  set_paths := fun _ d => Returned d
|}.

(** ** Vocabulary of the specification *)

(** A query parameter: absent, or the given text. *)
Definition param (t : option jstring) : value :=
  match t with
  | Some s => VStr s
  | None => VUndef
  end.

(** The limit and page the resolver works with: [parseInt(limit) || 10]
    and [parseInt(page) || 1]. *)
Definition resolved_limit (limit_text : value) : number :=
  number_or (parseInt_value limit_text) (Int 10).

Definition resolved_page (page_text : value) : number :=
  number_or (parseInt_value page_text) (Int 1).

(** The resolution rule in the words of the specification: the text
    parsed as an integer, and the default when it is unparsable or
    absent. *)
Definition parsed_or_default (text : value) (default : Z) : number :=
  match parseInt_value text with
  | NaN => Int default
  | n => n
  end.

(** The numbers [parseInt] can return: not-a-number, an infinity or an
    integer. *)
Inductive whole : number -> Prop :=
  | whole_NaN : whole NaN
  | whole_Infinity b : whole (Infinity b)
  | whole_Int z : whole (Int z).

(** [n] is an integer of the interval [lo, hi]. *)
Definition within (lo hi : Z) (n : number) : Prop :=
  exists z, n = Int z /\ lo <= z <= hi.

(** [n] is an integer from [lo] on, or plus infinity. *)
Definition at_least (lo : Z) (n : number) : Prop :=
  n = Infinity false \/ exists z, n = Int z /\ lo <= z.

Definition is_decimal (c : N) : bool := ((48 <=? c) && (c <=? 57))%N.

Definition strip_sign (s : jstring) : jstring :=
  match s with
  | c :: r => if ((c =? 45) || (c =? 43))%N then r else s
  | [] => []
  end.

(** Integer text: an optional sign followed by decimal digits and
    nothing else. *)
Definition integer_text (s : jstring) : bool :=
  match strip_sign s with
  | [] => false
  | ds => forallb is_decimal ds
  end.

(** The text starts, after white space and an optional sign, with a
    decimal digit (or with [0x] and a hexadecimal digit): there is an
    integer to read at its head, whatever follows. *)
Definition leading_integer (s : jstring) : bool :=
  match strip_sign (trimStart s) with
  | c0 :: cx :: r =>
      if ((c0 =? 48) && ((cx =? 120) || (cx =? 88)))%N
      then match r with
           | h :: _ => bool_decide (is_Some (radix_digit 16 h))
           | [] => false
           end
      else is_decimal c0
  | [c0] => is_decimal c0
  | [] => false
  end.


(** What follows the digits: the end of the text, or a code unit that
    is neither a digit nor the letter x. *)
Definition ends_digits (rest : jstring) : Prop :=
  match rest with
  | c :: _ => is_decimal c = false /\ c <> 120%N /\ c <> 88%N
  | [] => True
  end.

(** A text made of white space only (the empty text included). *)
Definition blank (s : jstring) : bool := forallb StrWhiteSpaceChar s.

(** The sign that [parseInt] reads before the digits: none, a plus or a
    minus; [Some true] is the minus. *)
Definition sign_of (sg : jstring) : option bool :=
  match sg with
  | [] => Some false
  | [c] => if (c =? 45)%N then Some true
           else if (c =? 43)%N then Some false else None
  | _ => None
  end.

(** A field is absent, or is a text that is blank after trimming. *)
Definition absent_or_blank (data : obj) (field : string) : bool :=
  match data !! field with
  | None => true
  | Some (VStr s) => blank s
  | Some _ => false
  end.

(** A field is absent, holds a falsy value (undefined, null, false,
    zero, not-a-number, the empty text), or is a blank text. *)
Definition falsy_or_blank (data : obj) (field : string) : bool :=
  match data !! field with
  | None => true
  | Some (VStr s) => blank s
  | Some v => negb (truthy v)
  end.

(** The rejections of the shape checks. *)
Definition shape_error (e : error) : Prop :=
  e = APIError "rigor_rank must be a valid integer" 400
  \/ e = APIError "schedule must be a valid date/time" 400
  \/ e = APIError "attendees must be an array of user IDs" 400.

(** The ceiling of [a / b] for a positive [b]: the least [k] with
    [a <= k * b]. *)
Definition is_ceiling (a b k : Z) : Prop :=
  (k - 1) * b < a <= k * b.

(** ** Sample requests *)

Definition quote : jstring := [34%N].

(** The text [["a","b"]]. *)
Definition attendees_ab : jstring :=
  js "[" ++ quote ++ js "a" ++ quote ++ js "," ++ quote ++ js "b" ++ quote ++ js "]".

Definition sample_id : jstring := js "507f1f77bcf86cd799439011".

(** The eight required fields of a well-formed create request. *)
Definition sample_fields : gmap string jstring :=
  list_to_map
    [ ("name", js "Engineering Meetup");
      ("tagline", js "Backend systems discussion");
      ("schedule", js "2024-03-15T10:00:00.000Z");
      ("description", js "Deep dive into distributed systems");
      ("moderator", js "Jane Doe");
      ("category", js "Technology");
      ("sub_category", js "Backend Engineering");
      ("rigor_rank", js "7") ].

Definition sample_form (extra : list (string * jstring)) : form :=
  {| fields := list_to_map extra ∪ sample_fields;
     file := Some (js "uploads/image-1704744491234.jpg") |}.

(** The store after the sample request has been created at time 1000. *)
Definition sample_store : database :=
  snd (createEvent (H := reference) 1000 1000 sample_id (sample_form []) (Some [])).

(** A record with all eight required fields, whose schedule is the
    Invalid Date. *)
Definition invalid_schedule_record : obj :=
  <["rigor_rank" := VNum (Int 7)]>
    (<["schedule" := VDate None]> (VStr <$> sample_fields)).

(** A record with a blank name and no tagline. *)
Definition blank_name_record : obj :=
  <["name" := VStr (js "   ")]>
    (delete "tagline"
       (<["rigor_rank" := VNum (Int 7)]>
          (<["schedule" := VDate (Some 1710496800000)]> (VStr <$> sample_fields)))).

(** A record with all eight required fields, whose rigor rank is the
    number zero. *)
Definition zero_rank_record : obj :=
  <["rigor_rank" := VNum (Int 0)]>
    (<["schedule" := VDate (Some 1710496800000)]> (VStr <$> sample_fields)).

(** The value of field [k] in each stored document. *)
Definition stored_field (db : database) (k : string) : list (option value) :=
  match db with
  | Some c => map (fun d : obj => d !! k) c
  | None => []
  end.

Definition text_query (id type limit page : option jstring) : query :=
  {| q_id := param id; q_type := param type;
     q_limit := param limit; q_page := param page |}.

(** ** The rest of src/middleware/errorHandler.js *)

(** The text of an integer status code, as a template literal writes
    it. *)
Definition decimal_text (z : Z) : string :=
  DecimalString.NilZero.string_of_int (Z.to_int z).

(** The [status] an [APIError] is constructed with:
    [`${statusCode}`.startsWith('4') ? 'fail' : 'error'] *)
Definition APIError_status (statusCode : Z) : string :=
  if String.prefix "4" (decimal_text statusCode) then "fail" else "error".

(** [notFound]: the error it builds is passed on to the central
    responder. *)
Definition notFound (originalUrl : string) : response :=
  errorHandler (APIError ("Route not found - " +:+ originalUrl) 404).

(** ** Vocabulary of the store *)

(** The identifiers of the stored documents, in order. *)
Definition ids (c : collection) : list value := map (fun d => get d "_id") c.

(** No two of the identifiers are the same. *)
Fixpoint distinct_ids (l : list value) : Prop :=
  match l with
  | [] => True
  | x :: r => Forall (fun y => same_id x y = false) r /\ distinct_ids r
  end.

(** The store holds no two documents with the same identifier. *)
Definition unique_ids (db : database) : Prop :=
  match db with
  | Some c => distinct_ids (ids c)
  | None => True
  end.

(** The documents that do not carry the identifier [o]. *)
Definition others (o : ObjectId) (c : collection) : list obj :=
  filter (fun d => has_id o d = false) c.

(** A query for one event. *)
Definition id_query (id : jstring) : query :=
  {| q_id := VStr id; q_type := VUndef; q_limit := VUndef; q_page := VUndef |}.

(** The text fields of a create request that are stored as they come. *)
Definition text_fields : list string :=
  [ "name"; "tagline"; "description"; "moderator"; "category"; "sub_category" ].

(** The response of a handler that found the connection handle unset. *)
Definition not_initialized : response :=
  {| status := 500;
     body := Failure "Database not initialized. Call connectDB first." |}.

(** The attendees text of a request can be decoded: it is absent or
    empty (and then not decoded at all), or it is JSON text. *)
Definition attendees_decodable (req : form) : bool :=
  match fields req !! "attendees" with
  | Some (c :: s) => bool_decide (is_Some (JSON_parse (c :: s)))
  | _ => true
  end.

(** A request without any field and without a file. *)
Definition empty_form : form := {| fields := ∅; file := None |}.

(** What a handler answers while the connection handle is unset: a
    refusal of the request, or the failure of [getDB]; and the handle
    stays unset. *)
Definition refused_unset (out : response * database) : Prop :=
  (status (fst out) = 400 \/ fst out = not_initialized) /\ snd out = None.

(** ** More sample requests *)

(** A well-formed identifier that the sample store does not hold. *)
Definition other_id : jstring := js "507f1f77bcf86cd799439012".

(** An update that renames the event. *)
Definition rename_form : form :=
  {| fields := {["name" := js "Renamed"]}; file := None |}.

(** The documents of the sample store. *)
Definition sample_documents : collection := default [] sample_store.

(** The request for the first page of the latest events, with the
    default limit. *)
Definition latest_query : query :=
  text_query None (Some (js "latest")) None None.

(** The request for its second page. *)
Definition second_page_query : query :=
  text_query None (Some (js "latest")) None (Some (js "2")).

(** * Properties *)

(** ** The run-time model on small inputs *)

Example parseInt_plain : parseInt (js "42") = Int 42.
Proof. reflexivity. Qed.

Example parseInt_prefix : parseInt (js "  -17px") = Int (-17).
Proof. reflexivity. Qed.

Example parseInt_fraction : parseInt (js "3.7") = Int 3.
Proof. reflexivity. Qed.

Example parseInt_hex : parseInt (js "0x1F") = Int 31.
Proof. reflexivity. Qed.

Example parseInt_word : parseInt (js "abc") = NaN.
Proof. reflexivity. Qed.

Example parseInt_empty : parseInt [] = NaN.
Proof. reflexivity. Qed.

Example parseInt_bare_prefix : parseInt (js "0x") = NaN.
Proof. reflexivity. Qed.

(** Above 2^53 the integer read is rounded to the nearest double. *)
Example parseInt_rounded :
  parseInt (js "9007199254740993") = Int 9007199254740992.
Proof. vm_compute. reflexivity. Qed.

(** The text of 1e21 is 1e+21, that of 5e-7 is 5e-7. *)
Example parseInt_of_large_number : parseInt_value (VNum (Int (10 ^ 21))) = Int 1.
Proof. vm_compute. reflexivity. Qed.

Example parseInt_of_small_number :
  parseInt_value (VNum (of_decimal 5 (-7))) = Int 5.
Proof. vm_compute. reflexivity. Qed.

Example parseInt_of_fraction :
  parseInt_value (VNum (of_decimal 1237 (-1))) = Int 123.
Proof. vm_compute. reflexivity. Qed.

(** The offset of page 9007199254740993 with the default limit: the
    page is read as 2^53, and (2^53 - 1) * 10 is rounded. *)
Example offset_rounded :
  validatePagination VUndef (VStr (js "9007199254740993"))
  = Returned {| limit := Int 10; page := Int 9007199254740992;
                skip := Int 90071992547409904 |}.
Proof. vm_compute. reflexivity. Qed.

Example trim_both_ends : trim (js "  a b  ") = js "a b".
Proof. reflexivity. Qed.

Example JSON_parse_nested :
  JSON_parse (js " [1, 2.5e3, -0, true, null, {}] ")
  = Some (VArr [VNum (Int 1); VNum (Int 2500); VNum (Int 0); VBool true;
                VNull; VObj []]).
Proof. reflexivity. Qed.

Example JSON_parse_fraction : JSON_parse (js "0.25") = Some (VNum (Fin 25 (-2))).
Proof. reflexivity. Qed.

Example JSON_parse_tenth :
  JSON_parse (js "0.1")
  = Some (VNum (Fin 1000000000000000055511151231257827021181583404541015625
                    (-55))).
Proof. vm_compute. reflexivity. Qed.

(** A name written twice keeps its first place and its last value. *)
Example JSON_parse_duplicate_member :
  JSON_parse (js "{" ++ quote ++ js "b" ++ quote ++ js ":1,"
              ++ quote ++ js "a" ++ quote ++ js ":2,"
              ++ quote ++ js "b" ++ quote ++ js ":3}")
  = Some (VObj [(js "b", VNum (Int 3)); (js "a", VNum (Int 2))]).
Proof. vm_compute. reflexivity. Qed.

(** Names that are array indices come first, in ascending order. *)
Example JSON_parse_index_members :
  JSON_parse (js "{" ++ quote ++ js "b" ++ quote ++ js ":1,"
              ++ quote ++ js "10" ++ quote ++ js ":2,"
              ++ quote ++ js "2" ++ quote ++ js ":3,"
              ++ quote ++ js "01" ++ quote ++ js ":4}")
  = Some (VObj [(js "2", VNum (Int 3)); (js "10", VNum (Int 2));
                (js "b", VNum (Int 1)); (js "01", VNum (Int 4))]).
Proof. vm_compute. reflexivity. Qed.

Example JSON_parse_underflow : JSON_parse (js "1e-400") = Some (VNum (Int 0)).
Proof. reflexivity. Qed.

Example JSON_parse_words : JSON_parse (js "not json") = None.
Proof. reflexivity. Qed.

Example JSON_parse_trailing_comma : JSON_parse (js "[1,]") = None.
Proof. reflexivity. Qed.

Example JSON_parse_leading_zero : JSON_parse (js "01") = None.
Proof. reflexivity. Qed.

Example JSON_parse_escape :
  JSON_parse (quote ++ js "A\n" ++ quote) = Some (VStr [65%N; 10%N]).
Proof. reflexivity. Qed.

Example reference_date :
  reference_Date_parse (VStr (js "2024-03-15T10:00:00.000Z"))
  = Some 1710496800000.
Proof. reflexivity. Qed.

Example reference_date_words : reference_Date_parse (VStr (js "tomorrow")) = None.
Proof. reflexivity. Qed.

(** ** Numbers and parseInt *)

Lemma number_lt_Int (a b : Z) : number_lt (Int a) (Int b) = (a <? b).
Proof.
  unfold number_lt, align. rewrite Z.min_id, Z.sub_diag. simpl.
  now rewrite !Z.mul_1_r.
Qed.

Lemma of_integer_cases (z : Z) :
  (exists b, of_integer z = Infinity b) \/ (exists z', of_integer z = Int z').
Proof.
  unfold of_integer. destruct (overflow_bound <=? Z.abs z); eauto.
Qed.

Lemma of_integer_not_NaN (z : Z) : of_integer z <> NaN.
Proof.
  destruct (of_integer_cases z) as [[b E]|[z' E]]; rewrite E; discriminate.
Qed.

#[local] Hint Constructors whole : core.

Lemma of_integer_whole (z : Z) : whole (of_integer z).
Proof.
  destruct (of_integer_cases z) as [[b E]|[z' E]]; rewrite E; auto.
Qed.

(** Integers up to 2^53 are doubles. *)
Lemma of_integer_exact (z : Z) : Z.abs z <= 2 ^ 53 -> of_integer z = Int z.
Proof.
  intros Hz. unfold of_integer, round_integer.
  assert (2 ^ 53 < overflow_bound) as B by (vm_compute; reflexivity).
  rewrite (proj2 (Z.leb_gt overflow_bound (Z.abs z))) by lia.
  now rewrite (proj2 (Z.leb_le (Z.abs z) (2 ^ 53))) by exact Hz.
Qed.

Lemma parseInt_whole (s : jstring) : whole (parseInt s).
Proof.
  unfold parseInt.
  destruct (match trimStart s with [] => _ | _ => _ end) as [negative s1].
  destruct (match s1 with [] => _ | _ => _ end) as [R s2].
  destruct (digits_prefix R s2 None); auto using of_integer_whole.
Qed.

Lemma parseInt_value_whole : forall v : value, whole (parseInt_value v).
Proof.
  fix IH 1. intros v.
  destruct v as [| |b|n|s|items|members|t|o]; simpl;
    try (clear IH; solve [apply parseInt_whole | auto]).
  - clear IH. destruct n as [|neg|m e]; try apply parseInt_whole.
    destruct (exponent_notation m e); [constructor|apply of_integer_whole].
  - destruct items as [|x items]; [clear IH; apply parseInt_whole|].
    pose proof (IH x) as Hx. clear IH.
    destruct x; try apply parseInt_whole; exact Hx.
Qed.

Lemma number_or_whole (n : number) (d : Z) :
  whole n -> whole (number_or n (Int d)) /\ number_or n (Int d) <> NaN.
Proof.
  unfold number_or. intros [|b|z]; simpl; auto; try (split; [auto|discriminate]).
  destruct (z =? 0); simpl; split; auto; discriminate.
Qed.

Lemma resolved_limit_whole (l : value) :
  whole (resolved_limit l) /\ resolved_limit l <> NaN.
Proof. apply number_or_whole, parseInt_value_whole. Qed.

Lemma resolved_page_whole (p : value) :
  whole (resolved_page p) /\ resolved_page p <> NaN.
Proof. apply number_or_whole, parseInt_value_whole. Qed.

(** ** Pagination *)

(** The limit test of [validatePagination] passes exactly on the
    integers from 1 to 100. *)
Lemma limit_test (L : number) :
  whole L -> L <> NaN ->
  ((number_lt L (Int 1) || number_gt L (Int 100)) = false <-> within 1 100 L).
Proof.
  intros [|b|z] HN; unfold within, number_gt; [congruence| |].
  - destruct b; simpl; (split; [discriminate|]); intros (z & E & _); discriminate.
  - rewrite !number_lt_Int, orb_false_iff, !Z.ltb_ge. split.
    + intros [H1 H2]. exists z. split; [reflexivity|lia].
    + intros (z' & E & H). injection E as ->. lia.
Qed.

(** The page test passes exactly from 1 on. *)
Lemma page_test (P : number) :
  whole P -> P <> NaN -> (number_lt P (Int 1) = false <-> at_least 1 P).
Proof.
  intros [|b|z] HN; unfold at_least; [congruence| |].
  - destruct b; simpl; split; auto; try discriminate.
    intros [E|(z & E & _)]; discriminate.
  - rewrite number_lt_Int, Z.ltb_ge. split.
    + intros H. right. exists z. split; [reflexivity|lia].
    + intros [E|(z' & E & H)]; [discriminate|]. injection E as ->. lia.
Qed.

(** In terms of the limit and page it works with, the resolver rejects
    (with a 400) exactly when the limit is not an integer of [1,100] or
    the page is below 1, and what it accepts it returns with that
    limit. *)
Lemma validatePagination_rejection_cases (l p : value) :
  ((exists e, validatePagination l p = Threw e) <->
     (~ within 1 100 (resolved_limit l) \/ ~ at_least 1 (resolved_page p)))
  /\ (forall e, validatePagination l p = Threw e ->
        exists message, e = APIError message 400)
  /\ (forall r, validatePagination l p = Returned r ->
        limit r = resolved_limit l /\ within 1 100 (limit r))
  /\ (forall z, resolved_limit l = Int z -> 1 <= z <= 100 ->
        at_least 1 (resolved_page p) ->
        exists r, validatePagination l p = Returned r /\ limit r = Int z).
Proof.
  destruct (resolved_limit_whole l) as [WL NL].
  destruct (resolved_page_whole p) as [WP NP].
  pose proof (limit_test _ WL NL) as HL.
  pose proof (page_test _ WP NP) as HP.
  unfold validatePagination.
  change (number_or (parseInt_value l) (Int 10)) with (resolved_limit l).
  change (number_or (parseInt_value p) (Int 1)) with (resolved_page p).
  destruct (number_lt (resolved_limit l) (Int 1)
            || number_gt (resolved_limit l) (Int 100)) eqn:EL.
  - assert (~ within 1 100 (resolved_limit l)) as NW
      by (intros W; apply HL in W; discriminate).
    repeat split.
    + intros _. now left.
    + intros _. eauto.
    + intros e [= <-]. eauto.
    + discriminate.
    + discriminate.
    + intros z E Hz _. exfalso. apply NW. exists z. auto.
  - assert (within 1 100 (resolved_limit l)) as W by (now apply HL).
    destruct (number_lt (resolved_page p) (Int 1)) eqn:EP.
    + assert (~ at_least 1 (resolved_page p)) as NA
        by (intros A; apply HP in A; discriminate).
      repeat split.
      * intros _. now right.
      * intros _. eauto.
      * intros e [= <-]. eauto.
      * discriminate.
      * discriminate.
      * intros z _ _ A. contradiction.
    + assert (at_least 1 (resolved_page p)) as A by (now apply HP).
      repeat split.
      * intros [e E]. discriminate.
      * intros [N|N]; contradiction.
      * discriminate.
      * injection H as <-. reflexivity.
      * injection H as <-. exact W.
      * intros z E _ _. eexists. split; [reflexivity|exact E].
Qed.

(** Away from the texts that parse to zero the resolver follows the
    resolution rule of the specification. *)
Lemma number_or_parsed_or_default (t : value) (d : Z) :
  parseInt_value t <> Int 0 ->
  number_or (parseInt_value t) (Int d) = parsed_or_default t d.
Proof.
  unfold number_or, parsed_or_default. intros NZ.
  destruct (parseInt_value_whole t) as [|b|z]; try reflexivity.
  simpl. destruct (Z.eqb_spec z 0) as [->|]; [congruence|reflexivity].
Qed.

Lemma validatePagination_rejects_outside_unless_zero (l p : value) :
  parseInt_value l <> Int 0 -> parseInt_value p <> Int 0 ->
  ((exists e, validatePagination l p = Threw e) <->
   (~ within 1 100 (parsed_or_default l 10)
    \/ ~ at_least 1 (parsed_or_default p 1))).
Proof.
  intros Hl Hp.
  rewrite <- (number_or_parsed_or_default l 10 Hl).
  rewrite <- (number_or_parsed_or_default p 1 Hp).
  apply validatePagination_rejection_cases.
Qed.

Lemma digits_prefix_Some (R : Z) (s : jstring) (a : Z) :
  digits_prefix R s (Some a) <> None.
Proof.
  revert a. induction s as [|c s IH]; intros a; simpl; [discriminate|].
  destruct (radix_digit R c); [apply IH|discriminate].
Qed.

Lemma digits_prefix_None (R : Z) (s : jstring) :
  digits_prefix R s None = None <->
  match s with c :: _ => radix_digit R c = None | [] => True end.
Proof.
  destruct s as [|c s]; simpl; [tauto|].
  destruct (radix_digit R c) eqn:E; [|tauto].
  split; [|discriminate]. intros H. now apply digits_prefix_Some in H.
Qed.

Lemma radix_digit_decimal (c : N) :
  radix_digit 10 c = None <-> is_decimal c = false.
Proof.
  unfold radix_digit, digit_value, is_decimal.
  destruct ((48 <=? c)%N && (c <=? 57)%N) eqn:D.
  - apply andb_true_iff in D as [D1 D2].
    apply N.leb_le in D1, D2.
    destruct (Z.ltb_spec (Z.of_N c - 48) 10); [split; discriminate|lia].
  - destruct ((97 <=? c)%N && (c <=? 122)%N) eqn:D'.
    + apply andb_true_iff in D' as [D1 D2]. apply N.leb_le in D1, D2.
      destruct (Z.ltb_spec (Z.of_N c - 87) 10); [lia|tauto].
    + destruct ((65 <=? c)%N && (c <=? 90)%N) eqn:D''; [|tauto].
      apply andb_true_iff in D'' as [D1 D2]. apply N.leb_le in D1, D2.
      destruct (Z.ltb_spec (Z.of_N c - 55) 10); [lia|tauto].
Qed.

(** [parseInt] gives not-a-number exactly on the texts without a
    leading integer. *)
Lemma parseInt_NaN (s : jstring) :
  parseInt s = NaN <-> leading_integer s = false.
Proof.
  unfold parseInt, leading_integer, strip_sign.
  assert (forall (negative : bool) (s1 : jstring),
    match (let '(R, s2) :=
             match s1 with
             | c0 :: cx :: r =>
                 if ((c0 =? 48) && ((cx =? 120) || (cx =? 88)))%N then (16, r)
                 else (10, s1)
             | _ => (10, s1)
             end in
           match digits_prefix R s2 None with
           | None => NaN
           | Some mathInt => of_integer (if negative then - mathInt else mathInt)
           end) with NaN => True | _ => False end <->
    match s1 with
    | c0 :: cx :: r =>
        if ((c0 =? 48) && ((cx =? 120) || (cx =? 88)))%N
        then match r with
             | h :: _ => bool_decide (is_Some (radix_digit 16 h))
             | [] => false
             end
        else is_decimal c0
    | [c0] => is_decimal c0
    | [] => false
    end = false) as Core.
  { intros negative s1.
    assert (forall R s2,
      match
        match digits_prefix R s2 None with
        | None => NaN
        | Some mathInt => of_integer (if negative then - mathInt else mathInt)
        end with NaN => True | _ => False end <->
      match s2 with c :: _ => radix_digit R c = None | [] => True end) as Digits.
    { intros R s2. rewrite <- digits_prefix_None.
      destruct (digits_prefix R s2 None) as [m|]; [|tauto].
      pose proof (of_integer_not_NaN (if negative then - m else m)) as N.
      destruct (of_integer _); [congruence| |]; split; (tauto || discriminate). }
    destruct s1 as [|c0 [|cx r]].
    - rewrite Digits. tauto.
    - rewrite Digits, radix_digit_decimal. tauto.
    - destruct ((c0 =? 48) && ((cx =? 120) || (cx =? 88)))%N.
      + rewrite Digits. destruct r as [|h r]; [tauto|].
        destruct (radix_digit 16 h) eqn:E.
        * split; [discriminate|]. intros B.
          apply bool_decide_eq_false in B. destruct B. eauto.
        * split; [|reflexivity]. intros _.
          apply bool_decide_eq_false. intros [x X]. discriminate.
      + rewrite Digits, radix_digit_decimal. tauto. }
  assert (forall n : number, n = NaN <-> match n with NaN => True | _ => False end)
    as IsNaN by (intros []; split; (tauto || discriminate || reflexivity)).
  rewrite IsNaN.
  destruct (trimStart s) as [|c r].
  - apply (Core false []).
  - destruct (c =? 45)%N; simpl; [apply (Core true r)|].
    destruct (c =? 43)%N; simpl; [apply (Core false r)|apply (Core false (c :: r))].
Qed.


Lemma decimal_digit_range (c : N) (d : Z) :
  decimal_digit c = Some d -> (48 <= c <= 57)%N /\ d = Z.of_N c - 48.
Proof.
  unfold decimal_digit.
  destruct ((48 <=? c) && (c <=? 57))%N eqn:D; [|discriminate].
  apply andb_true_iff in D as [D1 D2]. apply N.leb_le in D1, D2.
  intros [= <-]. lia.
Qed.

Lemma decimal_digit_radix (c : N) (d : Z) :
  decimal_digit c = Some d -> radix_digit 10 c = Some d.
Proof.
  intros D. pose proof (decimal_digit_range c d D) as [R ->].
  unfold radix_digit, digit_value.
  rewrite (proj2 (andb_true_iff _ _)) by (split; apply N.leb_le; lia).
  now rewrite (proj2 (Z.ltb_lt _ _)) by lia.
Qed.

Lemma digits_prefix_app (ds rest : jstring) (a z : Z) :
  ends_digits rest -> decimal ds a = Some z ->
  digits_prefix 10 (ds ++ rest) (Some a) = Some z.
Proof.
  intros Hr. revert a. induction ds as [|c ds IH]; intros a D.
  - injection D as <-. destruct rest as [|c rest]; [reflexivity|].
    cbn [app digits_prefix]. destruct Hr as (Hc & _).
    now rewrite (proj2 (radix_digit_decimal c) Hc).
  - cbn [decimal] in D. cbn [app digits_prefix].
    destruct (decimal_digit c) as [d|] eqn:E; [|discriminate].
    rewrite (decimal_digit_radix c d E). cbn [default]. now apply IH.
Qed.

Lemma decimal_nonneg (ds : jstring) (a z : Z) :
  decimal ds a = Some z -> 0 <= a -> 0 <= z.
Proof.
  revert a. induction ds as [|c ds IH]; intros a D Ha; cbn [decimal] in D.
  - now injection D as <-.
  - destruct (decimal_digit c) as [d|] eqn:E; [|discriminate].
    pose proof (decimal_digit_range c d E) as [R ->].
    apply (IH _ D). lia.
Qed.

Lemma trimStart_blank (ws t : jstring) :
  blank ws = true -> trimStart (ws ++ t) = trimStart t.
Proof.
  induction ws as [|c ws IH]; [reflexivity|].
  unfold blank. cbn [forallb app trimStart]. intros B.
  apply andb_true_iff in B as [-> B]. now apply IH.
Qed.

Lemma decimal_head_char (ds rest : jstring) (z : Z) :
  decimal ds 0 = Some z -> ds <> [] ->
  exists c0 r, ds ++ rest = c0 :: r /\ (48 <= c0 <= 57)%N.
Proof.
  intros D NE. destruct ds as [|c0 ds]; [contradiction|].
  cbn [decimal] in D. destruct (decimal_digit c0) as [d0|] eqn:E0; [|discriminate].
  pose proof (decimal_digit_range c0 d0 E0) as [R0 _].
  exists c0, (ds ++ rest). split; [reflexivity|exact R0].
Qed.

Lemma digit_char_plain (c0 : N) :
  (48 <= c0 <= 57)%N ->
  StrWhiteSpaceChar c0 = false /\ (c0 =? 45)%N = false /\ (c0 =? 43)%N = false.
Proof.
  intros R.
  assert (c0 = 48 \/ c0 = 49 \/ c0 = 50 \/ c0 = 51 \/ c0 = 52 \/ c0 = 53
          \/ c0 = 54 \/ c0 = 55 \/ c0 = 56 \/ c0 = 57)%N as C by lia.
  repeat (destruct C as [->|C]; [repeat split; reflexivity|]).
  subst. repeat split; reflexivity.
Qed.


(** What [parseInt] reads after the sign, for a text that goes on with
    decimal digits. *)
Lemma parseInt_after_sign (negative : bool) (ds rest : jstring) (z : Z) :
  decimal ds 0 = Some z -> ds <> [] -> ends_digits rest ->
  (let '(R, s) :=
     match ds ++ rest with
     | c0 :: cx :: r =>
         if ((c0 =? 48) && ((cx =? 120) || (cx =? 88)))%N then (16, r)
         else (10, ds ++ rest)
     | _ => (10, ds ++ rest)
     end in
   match digits_prefix R s None with
   | None => NaN
   | Some mathInt => of_integer (if negative then - mathInt else mathInt)
   end) = of_integer (if negative then - z else z).
Proof.
  intros D NE Hr. destruct ds as [|c0 ds]; [contradiction|].
  cbn [decimal] in D. destruct (decimal_digit c0) as [d0|] eqn:E0; [|discriminate].
  assert (digits_prefix 10 ((c0 :: ds) ++ rest) None = Some z) as P.
  { cbn [app digits_prefix]. rewrite (decimal_digit_radix c0 _ E0).
    cbn [default]. now apply digits_prefix_app. }
  assert (match ds ++ rest with
          | cx :: _ => ((cx =? 120) || (cx =? 88))%N = false
          | [] => True
          end) as X.
  { destruct ds as [|c1 ds]; cbn [app].
    - destruct rest as [|c rest]; [exact I|]. destruct Hr as (_ & A & B).
      apply orb_false_iff. split; now apply N.eqb_neq.
    - cbn [decimal] in D. destruct (decimal_digit c1) as [d1|] eqn:E1;
        [|discriminate].
      pose proof (decimal_digit_range c1 d1 E1) as [R1 _].
      apply orb_false_iff. split; apply N.eqb_neq; lia. }
  cbn [app] in *.
  destruct (ds ++ rest) as [|cx r] eqn:T.
  - rewrite P. reflexivity.
  - rewrite X, andb_false_r. rewrite P. reflexivity.
Qed.

Lemma parseInt_signed (ws sg ds rest : jstring) (neg : bool) (z : Z) :
  blank ws = true -> sign_of sg = Some neg ->
  decimal ds 0 = Some z -> ds <> [] -> ends_digits rest ->
  parseInt (ws ++ sg ++ ds ++ rest) = of_integer (if neg then - z else z).
Proof.
  intros B Sg D NE Hr.
  destruct (decimal_head_char ds rest z D NE) as (c0 & r & T & R0).
  destruct (digit_char_plain c0 R0) as (W & S1 & S2).
  unfold parseInt. rewrite trimStart_blank by exact B.
  destruct sg as [|c [|? ?]]; cbn [sign_of] in Sg; [| |discriminate].
  - injection Sg as <-. cbn [app]. rewrite T. cbn [trimStart].
    rewrite W. cbv iota. rewrite S1, S2.
    pose proof (parseInt_after_sign false ds rest z D NE Hr) as P.
    rewrite T in P. exact P.
  - cbn [app trimStart].
    destruct (c =? 45)%N eqn:E1.
    + injection Sg as <-. apply N.eqb_eq in E1 as ->.
      change (StrWhiteSpaceChar 45) with false. cbv iota.
      change (45 =? 45)%N with true. cbv iota.
      exact (parseInt_after_sign true ds rest z D NE Hr).
    + destruct (c =? 43)%N eqn:E2; [|discriminate].
      injection Sg as <-. apply N.eqb_eq in E2 as ->.
      change (StrWhiteSpaceChar 43) with false. cbv iota.
      change (43 =? 45)%N with false. change (43 =? 43)%N with true. cbv iota.
      exact (parseInt_after_sign false ds rest z D NE Hr).
Qed.

(** White space, an optional sign and decimal digits, followed by
    nothing or by something that is neither a digit nor the letter x,
    are read as the value of these digits with that sign: as that very
    integer up to 2^53, and as the double nearest to it above. *)
Lemma parseInt_signed_head (ws sg ds rest : jstring) (neg : bool) (z : Z) :
  blank ws = true -> sign_of sg = Some neg ->
  decimal ds 0 = Some z -> ds <> [] -> ends_digits rest ->
  parseInt (ws ++ sg ++ ds ++ rest) = of_integer (if neg then - z else z)
  /\ (z <= 2 ^ 53 ->
      parseInt (ws ++ sg ++ ds ++ rest) = Int (if neg then - z else z)).
Proof.
  intros B Sg D NE Hr.
  pose proof (parseInt_signed ws sg ds rest neg z B Sg D NE Hr) as P.
  split; [exact P|]. intros Bd. rewrite P. apply of_integer_exact.
  pose proof (decimal_nonneg ds 0 z D ltac:(lia)). destruct neg; lia.
Qed.

Lemma align_Int (a b : Z) : align a 0 b 0 = (a, b).
Proof. unfold align. simpl. now rewrite !Z.mul_1_r. Qed.

Lemma number_ceil_div_Int (a b : Z) :
  b <> 0 -> number_ceil_div (Int a) (Int b) = Int (- ((- a) / b)).
Proof.
  intros Hb. unfold number_ceil_div. rewrite align_Int.
  destruct (Z.eqb_spec b 0); [contradiction|reflexivity].
Qed.

Lemma ceiling_quotient (a b : Z) : 0 < b -> is_ceiling a b (- ((- a) / b)).
Proof.
  intros Hb. unfold is_ceiling.
  pose proof (Z.div_mod (- a) b ltac:(lia)) as D.
  pose proof (Z.mod_pos_bound (- a) b Hb) as M.
  nia.
Qed.

Lemma as_count_Int (z : Z) : 0 <= z < 2 ^ 63 -> as_count (Int z) = Some z.
Proof.
  intros [H0 H1]. unfold as_count, truncate.
  change (0 <=? 0) with true. cbv beta iota zeta.
  rewrite Z.pow_0_r, Z.mul_1_r.
  destruct (Z.leb_spec 0 z); [|lia].
  destruct (Z.ltb_spec z (2 ^ 63)); [reflexivity|lia].
Qed.

(** What [validatePagination] returns. *)
Lemma validatePagination_Returned (l p : value) (r : page_request) :
  validatePagination l p = Returned r ->
  within 1 100 (limit r) /\ at_least 1 (page r)
  /\ limit r = resolved_limit l /\ page r = resolved_page p
  /\ skip r = number_mul (number_sub (page r) (Int 1)) (limit r).
Proof.
  destruct (resolved_limit_whole l) as [WL NL].
  destruct (resolved_page_whole p) as [WP NP].
  unfold validatePagination.
  change (number_or (parseInt_value l) (Int 10)) with (resolved_limit l).
  change (number_or (parseInt_value p) (Int 1)) with (resolved_page p).
  destruct (_ || _) eqn:EL; [discriminate|].
  destruct (number_lt (resolved_page p) (Int 1)) eqn:EP; [discriminate|].
  intros [= <-]. simpl.
  apply (limit_test _ WL NL) in EL. apply (page_test _ WP NP) in EP. auto.
Qed.

Lemma validatePagination_Threw (l p : value) (e : error) :
  validatePagination l p = Threw e -> exists message, e = APIError message 400.
Proof.
  unfold validatePagination.
  destruct (_ || _); [intros [= <-]; eauto|].
  destruct (number_lt _ _); [intros [= <-]; eauto|discriminate].
Qed.

(** ** The central responder *)

Lemma errorHandler_APIError (message : string) (c : Z) :
  errorHandler (APIError message c)
  = {| status := if c =? 0 then 500 else c;
       body := Failure (string_or message "Internal server error") |}.
Proof. reflexivity. Qed.

(** ** Running a handler *)

Lemma run_bind {A B : Type} (m : M A) (f : A -> M B) (db : database) :
  (m ≫= f) db
  = match m db with
    | (Returned a, db') => f a db'
    | (Threw e, db') => (Threw e, db')
    end.
Proof. reflexivity. Qed.

Lemma run_lift {A : Type} (r : result A) (db : database) : lift r db = (r, db).
Proof. reflexivity. Qed.

Lemma run_on_collection {A : Type} (f : collection -> result A * collection)
    (c : collection) :
  on_collection f (Some c) = (let '(r, c') := f c in (r, Some c')).
Proof. reflexivity. Qed.

Lemma run_ret {A : Type} (a : A) (db : database) :
  (mret a : M A) db = (Returned a, db).
Proof. reflexivity. Qed.

Lemma run_throw {A : Type} (e : error) (db : database) :
  (throw e : M A) db = (Threw e, db).
Proof. reflexivity. Qed.

Lemma run_getCollection (c : collection) :
  getCollection (Some c) = (Returned tt, Some c).
Proof. reflexivity. Qed.

Lemma run_countDocuments (c : collection) :
  countDocuments (Some c) = (Returned (Int (Z.of_nat (length c))), Some c).
Proof. reflexivity. Qed.

Arguments number_ceil_div : simpl never.
Arguments number_lt : simpl never.
Arguments number_gt : simpl never.
Arguments number_mul : simpl never.
Arguments number_sub : simpl never.
Arguments errorHandler : simpl never.
Arguments validatePagination : simpl never.
Arguments as_count : simpl never.

(** An accepted list request: the store is connected, the limit is an
    integer [L] of [1, 100], the page an integer [n >= 1], and the
    response carries the metadata computed from the count. *)
Lemma getLatestEvents_accepted `{Platform} (q : query) (db db' : database)
    (r : response) :
  getLatestEvents q db = (r, db') -> status r = 200 ->
  exists (c : collection) (L n : Z) (events : list obj),
    db = Some c /\ db' = Some c
    /\ resolved_limit (q_limit q) = Int L /\ 1 <= L <= 100
    /\ resolved_page (q_page q) = Int n /\ 1 <= n
    /\ body r = Page events
         {| currentPage := Int n;
            totalPages := Int (- ((- Z.of_nat (length c)) / L));
            totalEvents := Int (Z.of_nat (length c));
            eventsPerPage := Int L;
            hasNextPage := n <? - ((- Z.of_nat (length c)) / L);
            hasPrevPage := 1 <? n |}.
Proof.
  unfold getLatestEvents, handle.
  destruct (is_latest (q_type q)); simpl;
    [|intros [= <- <-]; discriminate].
  rewrite run_bind, run_lift.
  destruct (validatePagination (q_limit q) (q_page q)) as [pr|e] eqn:V.
  2:{ apply validatePagination_Threw in V as [m ->].
      intros [= <- <-]. discriminate. }
  apply validatePagination_Returned in V
    as ((L & EL & HL) & A & RL & RP & SK).
  destruct db as [c|]; [|intros [= <- <-]; discriminate].
  rewrite run_bind, run_getCollection, run_bind, run_countDocuments, run_bind.
  unfold find_page. rewrite run_on_collection.
  destruct (as_count (skip pr)) as [s|] eqn:ES;
    [|cbv beta iota zeta; intros [= <- <-]; discriminate].
  rewrite EL, (as_count_Int L) by lia. cbv beta iota zeta.
  rewrite run_ret. intros [= <- <-] _.
  assert (exists n, page pr = Int n /\ 1 <= n) as (n & EN & Hn).
  { destruct A as [EI|A]; [|exact A].
    rewrite SK, EI, EL in ES. unfold number_sub, number_mul, as_count in ES.
    simpl in ES. destruct (negb (L =? 0)); discriminate. }
  exists c, L, n. eexists.
  rewrite <- RL, <- RP, EL, EN.
  repeat split; try lia; try reflexivity.
  simpl. rewrite number_ceil_div_Int by lia.
  unfold number_gt. now rewrite !number_lt_Int.
Qed.

(** C8. Every accepted list request returns pagination metadata with
    totalPages = ceil(totalEvents / limit), hasNextPage = (page <
    totalPages) and hasPrevPage = (page > 1); with limit=5 and page=2
    over 47 records: totalPages=10, hasNextPage and hasPrevPage true. *)
Theorem getLatestEvents_pagination_metadata `{Platform} :
  (forall (q : query) (db db' : database) (r : response),
     getLatestEvents q db = (r, db') -> status r = 200 ->
     exists (c events : list obj) (pg : pagination) (total lim cur pages : Z),
       db = Some c /\ body r = Page events pg
       /\ totalEvents pg = Int total /\ eventsPerPage pg = Int lim
       /\ currentPage pg = Int cur /\ totalPages pg = Int pages
       /\ total = Z.of_nat (length c)
       /\ resolved_limit (q_limit q) = Int lim
       /\ resolved_page (q_page q) = Int cur
       /\ 1 <= lim <= 100 /\ is_ceiling total lim pages
       /\ hasNextPage pg = (cur <? pages)
       /\ hasPrevPage pg = (1 <? cur))
  /\ (forall c : collection, length c = 47%nat ->
      exists events : list obj,
        getLatestEvents
          (text_query None (Some (js "latest")) (Some (js "5")) (Some (js "2")))
          (Some c)
        = ({| status := 200;
              body := Page events
                {| currentPage := Int 2; totalPages := Int 10;
                   totalEvents := Int 47; eventsPerPage := Int 5;
                   hasNextPage := true; hasPrevPage := true |} |},
           Some c)).
Proof.
  split.
  - intros q db db' r E S.
    destruct (getLatestEvents_accepted q db db' r E S)
      as (c & L & n & events & -> & -> & EL & HL & EN & Hn & B).
    exists c. do 2 eexists.
    exists (Z.of_nat (length c)), L, n, (- ((- Z.of_nat (length c)) / L)).
    rewrite B. simpl.
    repeat split; try reflexivity; try assumption; try lia.
    all: apply ceiling_quotient; lia.
  - intros c Hc. eexists. unfold getLatestEvents, handle, text_query.
    cbn [q_type q_limit q_page param].
    change (is_latest (VStr (js "latest"))) with true. cbn [negb].
    rewrite run_bind, run_lift.
    change (validatePagination (VStr (js "5")) (VStr (js "2")))
      with (Returned {| limit := Int 5; page := Int 2; skip := Int 5 |}).
    cbv beta iota.
    rewrite run_bind, run_getCollection, run_bind, run_countDocuments, run_bind.
    unfold find_page. rewrite run_on_collection.
    change (skip _) with (Int 5). change (limit _) with (Int 5).
    change (page _) with (Int 2).
    rewrite (as_count_Int 5) by (split; [lia|reflexivity]).
    cbv beta iota zeta. rewrite run_ret, Hc. reflexivity.
Qed.

(** ** The Validator *)

Lemma trimStart_nil (s : jstring) : trimStart s = [] <-> blank s = true.
Proof.
  unfold blank. induction s as [|c s IH]; simpl; [tauto|].
  destruct (StrWhiteSpaceChar c); simpl; [exact IH|].
  split; discriminate.
Qed.

Lemma blank_rev (s : jstring) : blank (rev s) = blank s.
Proof.
  unfold blank. apply eq_true_iff_eq. rewrite !forallb_forall.
  split; intros F x Hx; apply F.
  - now apply in_rev in Hx.
  - now apply in_rev.
Qed.

Lemma blank_trimStart (s : jstring) : blank (trimStart s) = blank s.
Proof.
  unfold blank. induction s as [|c s IH]; simpl; [reflexivity|].
  destruct (StrWhiteSpaceChar c) eqn:E; simpl; [exact IH|].
  now rewrite E.
Qed.

(** [s.trim() === ''] holds exactly for the blank texts. *)
Lemma trim_blank (s : jstring) : jstring_eqb (trim s) [] = blank s.
Proof.
  unfold jstring_eqb, trim, trimEnd. apply eq_true_iff_eq.
  rewrite bool_decide_eq_true.
  rewrite <- (blank_trimStart s), <- (blank_rev (trimStart s)).
  rewrite <- trimStart_nil.
  split; intros E.
  - apply (f_equal (@rev N)) in E. now rewrite rev_involutive in E.
  - now rewrite E.
Qed.

(** The test of [validateRequiredFields], in words. *)
Lemma field_missing_spec (data : obj) (f : string) :
  field_missing data f = falsy_or_blank data f.
Proof.
  unfold field_missing, falsy_or_blank, get.
  destruct (data !! f) as [v|]; simpl; [|reflexivity].
  destruct v; simpl; try reflexivity; try apply orb_false_r.
  rewrite trim_blank. destruct s; reflexivity.
Qed.

Lemma absent_or_blank_falsy (data : obj) (f : string) :
  absent_or_blank data f = true -> falsy_or_blank data f = true.
Proof.
  unfold absent_or_blank, falsy_or_blank.
  destruct (data !! f) as [[]|]; auto; discriminate.
Qed.

Lemma missing_fields_spec (data : obj) (fs : list string) :
  filter (fun f => field_missing data f = true) fs
  = filter (fun f => falsy_or_blank data f = true) fs.
Proof.
  apply list_filter_iff. intros f. now rewrite field_missing_spec.
Qed.

Lemma validateRequiredFields_spec (data : obj) (fs : list string) :
  validateRequiredFields data fs
  = match filter (fun f => falsy_or_blank data f = true) fs with
    | [] => Returned tt
    | missing => Threw (APIError ("Missing required fields: "
                                  +:+ join_fields missing) 400)
    end.
Proof.
  unfold validateRequiredFields. rewrite missing_fields_spec.
  now destruct (filter _ fs).
Qed.

(** The three checks that follow the required-field check. *)
Lemma shape_checks_throw `{Platform} (eventData : obj) (e : error) :
  validateEventData eventData true = Threw e -> shape_error e.
Proof.
  unfold validateEventData, shape_error. simpl.
  destruct (is_defined (get eventData "rigor_rank"));
    [destruct (isNaN _); simpl; [intros [= <-]; auto|]|]; simpl;
  (destruct (truthy (get eventData "schedule"));
    [destruct (Date_new _); simpl; [|intros [= <-]; auto]|]; simpl;
   (destruct (truthy (get eventData "attendees"));
    [destruct (negb _); simpl; [intros [= <-]; auto|discriminate]
    |discriminate])).
Qed.

Lemma validateEventData_create `{Platform} (eventData : obj) :
  validateEventData eventData false
  = (validateRequiredFields eventData requiredFields;;
     validateEventData eventData true).
Proof. reflexivity. Qed.

(** The missing-fields rejection of create mode, exactly: it is raised
    when some required field passes the test of
    [validateRequiredFields], that is, is absent, falsy or blank, and
    its message lists those fields in the order of the required list. *)
Lemma missing_fields_rejection `{Platform} (data : obj) :
  let missing := filter (fun f => falsy_or_blank data f = true) requiredFields in
  length requiredFields = 8%nat
  /\ (forall f, f ∈ missing <-> f ∈ requiredFields /\ falsy_or_blank data f = true)
  /\ (forall f, f ∈ requiredFields -> absent_or_blank data f = true -> f ∈ missing)
  /\ (missing <> [] ->
      validateEventData data false
      = Threw (APIError ("Missing required fields: " +:+ join_fields missing) 400))
  /\ (missing = [] ->
      forall e, validateEventData data false = Threw e -> shape_error e)
  /\ ((exists fs, validateEventData data false
                  = Threw (APIError ("Missing required fields: "
                                     +:+ join_fields fs) 400))
      <-> exists f, f ∈ requiredFields /\ falsy_or_blank data f = true).
Proof.
  intros missing.
  assert (forall f, f ∈ missing <->
                    f ∈ requiredFields /\ falsy_or_blank data f = true) as In.
  { intros f. unfold missing. rewrite list_elem_of_filter. tauto. }
  assert (missing <> [] ->
          validateEventData data false
          = Threw (APIError ("Missing required fields: "
                             +:+ join_fields missing) 400)) as Rej.
  { intros NE. rewrite validateEventData_create, validateRequiredFields_spec.
    fold missing. destruct missing; [contradiction|reflexivity]. }
  assert (missing = [] ->
          forall e, validateEventData data false = Threw e -> shape_error e)
    as Pass.
  { intros E e. rewrite validateEventData_create, validateRequiredFields_spec.
    fold missing. rewrite E. apply shape_checks_throw. }
  split; [reflexivity|]. split; [exact In|].
  split; [intros f Hf Ha; apply In; auto using absent_or_blank_falsy|].
  split; [exact Rej|]. split; [exact Pass|]. split.
  - intros [fs E]. destruct missing as [|f0 rest] eqn:EM.
    + apply (Pass eq_refl) in E.
      destruct E as [E|[E|E]]; discriminate.
    + exists f0. apply In. apply list_elem_of_here.
  - intros (f & Hf & Hm). exists missing. apply Rej.
    intros E. assert (f ∈ missing) as Hin by (apply In; auto).
    rewrite E in Hin. now apply not_elem_of_nil in Hin.
Qed.

Lemma filter_agree (P Q : string -> Prop) `{!forall f, Decision (P f)}
    `{!forall f, Decision (Q f)} (l : list string) :
  (forall f, f ∈ l -> (P f <-> Q f)) -> filter P l = filter Q l.
Proof.
  induction l as [|x l IH]; intros A; [reflexivity|].
  rewrite !filter_cons.
  rewrite IH by (intros f Hf; apply A; now apply list_elem_of_further).
  pose proof (A x (list_elem_of_here _ _)) as Ax.
  destruct (decide (P x)), (decide (Q x)); tauto.
Qed.

(** C4, as amended.  In create mode the Validator raises its
    missing-fields rejection whenever at least one of the 8 required
    fields is absent or is a blank text, and the single message lists
    every such field.  For a record whose required fields, where
    present and not textual, are truthy, it raises that rejection only
    then, and the message lists exactly those fields in the order of
    the required list; such a record, when no field is missing, can
    only be rejected by the rigor_rank, schedule or attendees shape
    check. *)
Theorem validateEventData_create_missing_fields `{Platform} (data : obj) :
  let missing := filter (fun f => absent_or_blank data f = true) requiredFields in
  length requiredFields = 8%nat
  /\ (missing <> [] ->
      exists fs,
        validateEventData data false
        = Threw (APIError ("Missing required fields: " +:+ join_fields fs) 400)
        /\ forall f, f ∈ missing -> f ∈ fs)
  /\ ((forall f v, f ∈ requiredFields -> data !! f = Some v ->
                   is_string v = false -> truthy v = true) ->
      (missing <> [] ->
       validateEventData data false
       = Threw (APIError ("Missing required fields: "
                          +:+ join_fields missing) 400))
      /\ (missing = [] ->
          forall e, validateEventData data false = Threw e -> shape_error e)).
Proof.
  intros missing.
  destruct (missing_fields_rejection data) as (_ & In & Abs & Rej & Pass & _).
  split; [reflexivity|]. split.
  - intros NE. eexists. split.
    + apply Rej. intros E. destruct missing as [|f rest] eqn:EM; [congruence|].
      assert (f ∈ missing) as Hf by (rewrite EM; apply list_elem_of_here).
      apply list_elem_of_filter in Hf as [Hb Hr].
      apply (Abs f Hr) in Hb. rewrite E in Hb. now apply not_elem_of_nil in Hb.
    + intros f Hf. apply list_elem_of_filter in Hf as [Hb Hr]. now apply Abs.
  - intros Truthy.
    assert (filter (fun f => falsy_or_blank data f = true) requiredFields
            = missing) as EQ.
    { apply filter_agree. intros f Hf.
      unfold falsy_or_blank, absent_or_blank.
      destruct (data !! f) as [v|] eqn:L; [|tauto].
      pose proof (Truthy f v Hf L) as T.
      destruct v; try tauto; rewrite T by reflexivity; split; discriminate. }
    rewrite EQ in Rej, Pass. auto.
Qed.

(** ** Records *)

Lemma get_insert (k : string) (v : value) (d : obj) : get (<[k := v]> d) k = v.
Proof. unfold get. now rewrite lookup_insert_eq. Qed.

Lemma get_insert_ne (k k' : string) (v : value) (d : obj) :
  k <> k' -> get (<[k := v]> d) k' = get d k'.
Proof. intros N. unfold get. now rewrite lookup_insert_ne. Qed.

Lemma lookup_convert_ne (k k' : string) (f : value -> value) (d : obj) :
  k <> k' -> convert k f d !! k' = d !! k'.
Proof.
  intros N. unfold convert. destruct (truthy (get d k)); [|reflexivity].
  now rewrite lookup_insert_ne.
Qed.

Lemma get_convert_ne (k k' : string) (f : value -> value) (d : obj) :
  k <> k' -> get (convert k f d) k' = get d k'.
Proof. intros N. unfold get. now rewrite lookup_convert_ne. Qed.

Lemma get_convert (k : string) (f : value -> value) (d : obj) :
  get (convert k f d) k = if truthy (get d k) then f (get d k) else get d k.
Proof.
  unfold convert. destruct (truthy (get d k)); [apply get_insert|reflexivity].
Qed.

Lemma lookup_body_copy (req : form) (k : string) :
  body_copy req !! k = VStr <$> fields req !! k.
Proof. unfold body_copy. apply lookup_fmap. Qed.

Lemma get_body_copy (req : form) (k : string) :
  get (body_copy req) k
  = match fields req !! k with Some s => VStr s | None => VUndef end.
Proof.
  unfold get. rewrite lookup_body_copy. now destruct (fields req !! k).
Qed.

(** The Validator reads the eight required fields and [attendees],
    nothing else. *)
Lemma validateRequiredFields_ext (d d' : obj) (fs : list string) :
  Forall (fun f => get d f = get d' f) fs ->
  validateRequiredFields d fs = validateRequiredFields d' fs.
Proof.
  intros F. unfold validateRequiredFields.
  assert (filter (fun f => field_missing d f = true) fs
          = filter (fun f => field_missing d' f = true) fs) as ->;
    [|reflexivity].
  induction F as [|f fs E F IH]; [reflexivity|].
  rewrite !filter_cons, IH. unfold field_missing. now rewrite E.
Qed.

Lemma validateEventData_ext `{Platform} (d d' : obj) (isUpdate : bool) :
  Forall (fun f => get d f = get d' f) requiredFields ->
  get d "attendees" = get d' "attendees" ->
  validateEventData d isUpdate = validateEventData d' isUpdate.
Proof.
  intros F A. unfold validateEventData.
  rewrite (validateRequiredFields_ext d d' _ F), A.
  assert (get d "rigor_rank" = get d' "rigor_rank") as ->.
  { rewrite Forall_forall in F. apply F. unfold requiredFields.
    repeat (apply list_elem_of_here || apply list_elem_of_further). }
  assert (get d "schedule" = get d' "schedule") as ->.
  { rewrite Forall_forall in F. apply F. unfold requiredFields.
    repeat (apply list_elem_of_here || apply list_elem_of_further). }
  reflexivity.
Qed.

Lemma validateEventData_ignores (k : string) `{Platform} (d : obj) (v : value)
    (isUpdate : bool) :
  k ∉ requiredFields -> k <> "attendees" ->
  validateEventData (<[k := v]> d) isUpdate = validateEventData d isUpdate.
Proof.
  intros N A. apply validateEventData_ext.
  - apply Forall_forall. intros f Hf. apply get_insert_ne.
    intros ->. contradiction.
  - now apply get_insert_ne.
Qed.

(** Every rejection of the Validator is a 400. *)
Lemma validateEventData_Threw `{Platform} (d : obj) (isUpdate : bool) (e : error) :
  validateEventData d isUpdate = Threw e -> exists message, e = APIError message 400.
Proof.
  destruct isUpdate.
  - intros E. apply shape_checks_throw in E as [-> | [-> | ->]]; eauto.
  - rewrite validateEventData_create, validateRequiredFields_spec.
    destruct (filter _ _); simpl.
    + intros E. apply shape_checks_throw in E as [-> | [-> | ->]]; eauto.
    + intros [= <-]. eauto.
Qed.

(** A truthy [attendees] that is not an array never passes. *)
Lemma validateEventData_attendees `{Platform} (d : obj) (isUpdate : bool) :
  truthy (get d "attendees") = true ->
  Array_isArray (get d "attendees") = false ->
  exists message, validateEventData d isUpdate = Threw (APIError message 400).
Proof.
  intros T A.
  destruct (validateEventData d isUpdate) as [[]|e] eqn:E.
  - exfalso. revert E. unfold validateEventData. rewrite T, A. simpl.
    destruct (if negb isUpdate then _ else _); simpl; [|discriminate].
    destruct (if is_defined _ then _ else _); simpl; [|discriminate].
    destruct (if truthy (get d "schedule") then _ else _); simpl; discriminate.
  - apply validateEventData_Threw in E as [m ->]. eauto.
Qed.

(** ** Creating an event *)

Lemma create_attendees_spec (req : form) :
  create_attendees (body_copy req)
  = match fields req !! "attendees" with
    | Some (c :: s) =>
        match JSON_parse (c :: s) with
        | Some v => Returned (<["attendees" := v]> (body_copy req))
        | None => Threw (APIError "Invalid attendees format. Must be a JSON array" 400)
        end
    | _ => Returned (<["attendees" := VArr []]> (body_copy req))
    end.
Proof.
  unfold create_attendees. rewrite get_body_copy.
  destruct (fields req !! "attendees") as [[|c s]|]; cbn [truthy is_string andb negb parse_attendees]; try reflexivity.
  now destruct (JSON_parse (c :: s)).
Qed.

(** Steps of the result monad. *)
Lemma bind_Returned {A B : Type} (a : A) (f : A -> result B) :
  (Returned a ≫= f) = f a.
Proof. reflexivity. Qed.

Lemma bind_Threw {A B : Type} (e : error) (f : A -> result B) :
  (Threw e ≫= f) = Threw e.
Proof. reflexivity. Qed.

Ltac rsimpl := rewrite ?bind_Returned, ?bind_Threw.

Lemma createEvent_record_spec `{Platform} (created updated : Z) (req : form) :
  createEvent_record created updated req
  = (a ← create_attendees (body_copy req);
     match file req with
     | Some path =>
         validateEventData (converted a path) false;;
         Returned (stamped created updated (converted a path))
     | None => Threw (APIError "Event image is required" 400)
     end).
Proof.
  unfold createEvent_record.
  destruct (create_attendees (body_copy req)) as [a|e]; [|reflexivity].
  rsimpl. now destruct (file req).
Qed.

Lemma createEvent_record_Threw `{Platform} (created updated : Z) (req : form)
    (e : error) :
  createEvent_record created updated req = Threw e ->
  exists message, e = APIError message 400.
Proof.
  rewrite createEvent_record_spec, create_attendees_spec.
  assert (forall a,
    match file req with
    | Some path =>
        validateEventData (converted a path) false;;
        Returned (stamped created updated (converted a path))
    | None => Threw (APIError "Event image is required" 400)
    end = Threw e -> exists message, e = APIError message 400) as Rest.
  { intros a. destruct (file req); [|intros [= <-]; eauto].
    destruct (validateEventData _ false) eqn:V; rsimpl; [discriminate|].
    intros [= <-]. now apply validateEventData_Threw in V. }
  destruct (fields req !! "attendees") as [[|c s]|]; rsimpl; try apply Rest.
  destruct (JSON_parse (c :: s)); rsimpl; [apply Rest|intros [= <-]; eauto].
Qed.

Lemma createEvent_run `{Platform} (created updated : Z) (fresh : ObjectId)
    (req : form) (c : collection) :
  createEvent created updated fresh req (Some c)
  = match createEvent_record created updated req with
    | Threw e => (errorHandler e, Some c)
    | Returned d =>
        if existsb (fun x => same_id (get x "_id") (get (with_id fresh d) "_id")) c
        then (errorHandler (PlainError "MongoServerError" "E11000 duplicate key error"),
              Some c)
        else ({| status := 201;
                 body := Message "Event created successfully"
                           (with_id fresh d ∪ {["id" := get (with_id fresh d) "_id"]}) |},
              Some (c ++ [with_id fresh d]))
    end.
Proof.
  unfold createEvent, handle. rewrite run_bind, run_lift.
  destruct (createEvent_record created updated req) as [d|e]; [|reflexivity].
  rewrite run_bind, run_getCollection, run_bind.
  unfold insertOne. rewrite run_on_collection. fold (with_id fresh d).
  now destruct (existsb _ c).
Qed.

Lemma createEvent_rejected `{Platform} (created updated : Z) (fresh : ObjectId)
    (req : form) (db : database) (e : error) :
  createEvent_record created updated req = Threw e ->
  createEvent created updated fresh req db = (errorHandler e, db).
Proof.
  intros E. unfold createEvent, handle. rewrite run_bind, run_lift, E.
  reflexivity.
Qed.

Lemma createEvent_created `{Platform} (created updated : Z) (fresh : ObjectId)
    (req : form) (db db' : database) (r : response) :
  createEvent created updated fresh req db = (r, db') -> status r = 201 ->
  exists (c : collection) (d : obj),
    db = Some c /\ createEvent_record created updated req = Returned d
    /\ db' = Some (c ++ [with_id fresh d]).
Proof.
  destruct db as [c|].
  - rewrite createEvent_run.
    destruct (createEvent_record created updated req) as [d|e] eqn:E.
    + destruct (existsb _ c); intros [= <- <-]; [discriminate|]. eauto.
    + apply createEvent_record_Threw in E as [m ->].
      intros [= <- <-]. discriminate.
  - unfold createEvent, handle. rewrite run_bind, run_lift.
    destruct (createEvent_record created updated req) as [d|e] eqn:E.
    + intros [= <- <-]. discriminate.
    + apply createEvent_record_Threw in E as [m ->].
      intros [= <- <-]. discriminate.
Qed.

Lemma createEvent_record_Returned `{Platform} (created updated : Z) (req : form)
    (d : obj) :
  createEvent_record created updated req = Returned d ->
  exists (a : obj) (path : jstring),
    create_attendees (body_copy req) = Returned a
    /\ file req = Some path
    /\ validateEventData (converted a path) false = Returned tt
    /\ d = stamped created updated (converted a path).
Proof.
  rewrite createEvent_record_spec.
  destruct (create_attendees (body_copy req)) as [a|e]; rsimpl; [|discriminate].
  destruct (file req) as [path|]; [|discriminate].
  destruct (validateEventData _ false) as [[]|e] eqn:V; rsimpl; [|discriminate].
  intros [= <-]. eauto 6.
Qed.

Ltac not_required :=
  unfold requiredFields;
  repeat (apply not_elem_of_cons; split; [discriminate|]);
  apply not_elem_of_nil.

Ltac lookups :=
  repeat first
    [ rewrite lookup_insert_eq
    | rewrite lookup_insert_ne by discriminate
    | rewrite lookup_convert_ne by discriminate
    | rewrite get_insert
    | rewrite get_insert_ne by discriminate
    | rewrite get_convert_ne by discriminate ].

Lemma lookup_with_id (fresh : ObjectId) (d : obj) (k : string) :
  k <> "_id" -> with_id fresh d !! k = d !! k.
Proof.
  intros N. unfold with_id.
  destruct (get d "_id"); try reflexivity; now rewrite lookup_insert_ne.
Qed.

Lemma lookup_stamped (created updated : Z) (e : obj) (k : string) :
  k <> "type" -> k <> "uid" -> k <> "created_at" -> k <> "updated_at" ->
  stamped created updated e !! k = e !! k.
Proof.
  intros. unfold stamped. cbv zeta. now rewrite !lookup_insert_ne.
Qed.

Lemma lookup_stamped_uid (created updated : Z) (e : obj) :
  stamped created updated e !! "uid"
  = Some (if truthy (get e "uid") then get e "uid" else VNum (Int 18)).
Proof. unfold stamped. cbv zeta. now lookups. Qed.

Lemma lookup_converted `{Platform} (a : obj) (path : jstring) (k : string) :
  k <> "image" -> k <> "schedule" -> k <> "rigor_rank" -> k <> "uid" ->
  converted a path !! k = a !! k.
Proof.
  intros. unfold converted.
  now rewrite lookup_insert_ne, !lookup_convert_ne.
Qed.

Lemma get_converted_uid `{Platform} (a : obj) (path : jstring) :
  get (converted a path) "uid"
  = if truthy (get a "uid") then VNum (parseInt_value (get a "uid"))
    else get a "uid".
Proof. unfold converted. lookups. apply get_convert. Qed.

Lemma create_attendees_other (d a : obj) (k : string) :
  create_attendees d = Returned a -> k <> "attendees" -> a !! k = d !! k.
Proof.
  unfold create_attendees. intros E N.
  destruct (truthy (get d "attendees") && is_string (get d "attendees")).
  - destruct (parse_attendees _); [|discriminate].
    injection E as <-. now rewrite lookup_insert_ne.
  - destruct (negb _); injection E as <-; [|reflexivity].
    now rewrite lookup_insert_ne.
Qed.

(** C3, as amended.  For every create request with a uid text:
    normalisation turns a non-empty text into what [parseInt] reads
    from it, which is the not-a-number sentinel exactly when the text
    has no integer at its head, and otherwise the integer at its head,
    whatever follows it (white space, an optional sign and decimal
    digits, followed by anything but a further digit or the letter x,
    are read as the value of the digits with that sign); the Validator
    does not look at uid at all; and a request that is accepted is
    stored with that integer, or with the fallback uid 18 when the text
    gave the sentinel or zero, or is empty. *)
Theorem createEvent_non_numeric_uid `{Platform} (created updated : Z)
    (fresh : ObjectId) (req : form) (s : jstring) :
  fields req !! "uid" = Some s ->
  (parseInt s = NaN <-> leading_integer s = false)
  /\ (forall (ws sg ds rest : jstring) (neg : bool) (z : Z),
        s = ws ++ sg ++ ds ++ rest ->
        blank ws = true -> sign_of sg = Some neg ->
        decimal ds 0 = Some z -> ds <> [] -> ends_digits rest ->
        parseInt s = of_integer (if neg then - z else z)
        /\ (z <= 2 ^ 53 -> parseInt s = Int (if neg then - z else z)))
  /\ (forall (a : obj) (path : jstring),
        create_attendees (body_copy req) = Returned a -> s <> [] ->
        get (converted a path) "uid" = VNum (parseInt s))
  /\ (forall (data : obj) (v : value) (isUpdate : bool),
        validateEventData (<["uid" := v]> data) isUpdate
        = validateEventData data isUpdate)
  /\ (forall (db db' : database) (r : response),
        createEvent created updated fresh req db = (r, db') -> status r = 201 ->
        exists (c : collection) (doc : obj),
          db = Some c /\ db' = Some (c ++ [doc])
          /\ doc !! "uid"
             = Some (VNum (if number_truthy (parseInt s) then parseInt s
                           else Int 18))).
Proof.
  intros U. split; [apply parseInt_NaN|]. split; [|split; [|split]].
  - intros ws sg ds rest neg z ->. apply parseInt_signed_head.
  - intros a path A NE. rewrite get_converted_uid.
    assert (get a "uid" = VStr s) as ->.
    { unfold get. rewrite (create_attendees_other _ _ _ A) by discriminate.
      now rewrite lookup_body_copy, U. }
    destruct s; [contradiction|]. reflexivity.
  - intros data v isUpdate. apply validateEventData_ignores; [not_required|discriminate].
  - intros db db' r E S.
    destruct (createEvent_created _ _ _ _ _ _ _ E S) as (c & d & -> & R & ->).
    apply createEvent_record_Returned in R as (a & path & A & F & V & ->).
    exists c, (with_id fresh (stamped created updated (converted a path))).
    split; [reflexivity|]. split; [reflexivity|].
    rewrite lookup_with_id by discriminate.
    rewrite lookup_stamped_uid, get_converted_uid.
    assert (get a "uid" = VStr s) as ->.
    { unfold get. rewrite (create_attendees_other _ _ _ A) by discriminate.
      now rewrite lookup_body_copy, U. }
    destruct s as [|x s]; [reflexivity|]. cbn [truthy parseInt_value].
    now destruct (number_truthy (parseInt (x :: s))).
Qed.

(** ** The identifier codec *)

Lemma toObjectId_total `{Platform} (id : value) :
  exists r : option ObjectId, toObjectId id = Returned r.
Proof.
  unfold toObjectId, try_catch.
  destruct (ObjectId_isValid id) as [[|]|e]; rsimpl; eauto.
  destruct (ObjectId_new id) as [o|e]; rsimpl; eauto.
Qed.

(** ** Updating an event *)

Lemma updateEvent_fields_spec `{Platform} (now : Z) (req : form) :
  updateEvent_fields now req
  = if (Z.of_nat (size (body_copy req)) =? 0)
       && negb (bool_decide (is_Some (file req)))
    then Threw (APIError "No update data provided" 400)
    else u ← update_attendees (with_file req);
         Returned (update_converted now u).
Proof. reflexivity. Qed.

Lemma update_attendees_Threw (d : obj) (e : error) :
  update_attendees d = Threw e -> exists message, e = APIError message 400.
Proof.
  unfold update_attendees.
  destruct (truthy _ && is_string _); [|discriminate].
  unfold parse_attendees. destruct (get d "attendees"); try discriminate.
  destruct (JSON_parse s); [discriminate|]. rsimpl. intros [= <-]. eauto.
Qed.

Lemma updateEvent_fields_Threw `{Platform} (now : Z) (req : form) (e : error) :
  updateEvent_fields now req = Threw e -> exists message, e = APIError message 400.
Proof.
  rewrite updateEvent_fields_spec.
  destruct (_ && _); [intros [= <-]; eauto|].
  destruct (update_attendees (with_file req)) eqn:U; rsimpl; [discriminate|].
  intros [= <-]. now apply update_attendees_Threw in U.
Qed.

Lemma update_attendees_other (d u : obj) (k : string) :
  update_attendees d = Returned u -> k <> "attendees" -> u !! k = d !! k.
Proof.
  unfold update_attendees. intros E N.
  destruct (truthy (get d "attendees") && is_string (get d "attendees")).
  - destruct (parse_attendees _); [|discriminate].
    injection E as <-. now rewrite lookup_insert_ne.
  - now injection E as <-.
Qed.

Lemma update_attendees_absent (d u : obj) :
  update_attendees d = Returned u -> d !! "attendees" = None ->
  u !! "attendees" = None.
Proof.
  unfold update_attendees, get. intros E N. rewrite N in E.
  cbn [default truthy andb] in E. now injection E as <-.
Qed.

Lemma lookup_with_file (req : form) (k : string) :
  k <> "image" -> with_file req !! k = VStr <$> fields req !! k.
Proof.
  intros N. unfold with_file. destruct (file req).
  - now rewrite lookup_insert_ne, lookup_body_copy.
  - apply lookup_body_copy.
Qed.

(** The fields an update writes: [updated_at], and for every other
    name outside the converted ones the text of the body. *)
Lemma lookup_updateEvent_fields `{Platform} (now : Z) (req : form) (fs : obj) :
  updateEvent_fields now req = Returned fs ->
  fs !! "updated_at" = Some (VDate (Some now))
  /\ (fields req !! "attendees" = None -> fs !! "attendees" = None)
  /\ (forall k, k <> "updated_at" -> k <> "uid" -> k <> "schedule" ->
                k <> "rigor_rank" -> k <> "attendees" -> k <> "image" ->
                fs !! k = VStr <$> fields req !! k).
Proof.
  rewrite updateEvent_fields_spec. destruct (_ && _); [discriminate|].
  destruct (update_attendees (with_file req)) as [u|] eqn:U; rsimpl;
    [|discriminate].
  intros [= <-]. unfold update_converted. split; [|split].
  - apply lookup_insert_eq.
  - intros A. rewrite lookup_insert_ne, !lookup_convert_ne by discriminate.
    apply (update_attendees_absent _ _ U).
    rewrite lookup_with_file by discriminate. now rewrite A.
  - intros k ? ? ? ? ? ?.
    rewrite lookup_insert_ne, !lookup_convert_ne by congruence.
    rewrite (update_attendees_other _ _ _ U) by assumption.
    now apply lookup_with_file.
Qed.

Lemma find_has_id (o : ObjectId) (c : collection) (d : obj) :
  List.find (has_id o) c = Some d -> has_id o d = true.
Proof. intros F. now apply find_some in F. Qed.

Lemma find_update_first (o : ObjectId) (fs : obj) (c : collection) (d : obj) :
  List.find (has_id o) c = Some d ->
  has_id o (set_fields fs d) = true ->
  List.find (has_id o) (update_first o fs c) = Some (set_fields fs d).
Proof.
  intros F I. induction c as [|x c IH]; [discriminate|].
  cbn [List.find update_first] in *.
  destruct (has_id o x) eqn:X.
  - injection F as ->. cbn [List.find]. now rewrite I.
  - cbn [List.find]. rewrite X. auto.
Qed.

Lemma lookup_set_fields_None (fs d : obj) (k : string) :
  fs !! k = None -> set_fields fs d !! k = d !! k.
Proof. intros N. unfold set_fields. now apply lookup_union_r. Qed.

Lemma lookup_set_fields_Some (fs d : obj) (k : string) (v : value) :
  fs !! k = Some v -> set_fields fs d !! k = Some v.
Proof. intros S. unfold set_fields. now apply lookup_union_Some_l. Qed.

Lemma plain_names_spec {A : Type} (m : gmap string A) :
  plain_names m = true <-> forall k, is_Some (m !! k) -> plain_name k = true.
Proof.
  unfold plain_names. rewrite forallb_forall. split.
  - intros Hm k [v Hk]. apply Hm, list_elem_of_In, list_elem_of_fmap.
    exists (k, v). split; [reflexivity|]. now apply elem_of_map_to_list.
  - intros Hm k Hk.
    apply list_elem_of_In, list_elem_of_fmap in Hk as ([k' v] & -> & Hkv).
    apply elem_of_map_to_list in Hkv. apply Hm. eauto.
Qed.

Lemma lookup_convert_None (k k' : string) (f : value -> value) (d : obj) :
  d !! k = None -> convert k' f d !! k = None.
Proof.
  intros N. destruct (decide (k' = k)) as [->|Hk].
  - unfold convert, get. now rewrite N.
  - now rewrite lookup_convert_ne.
Qed.

Lemma updateEvent_fields_Returned `{Platform} (now : Z) (req : form) (fs : obj) :
  updateEvent_fields now req = Returned fs ->
  exists u, update_attendees (with_file req) = Returned u
            /\ fs = update_converted now u.
Proof.
  rewrite updateEvent_fields_spec. destruct (_ && _); [discriminate|].
  destruct (update_attendees (with_file req)) as [u|e]; rsimpl; [|discriminate].
  intros [= <-]. eauto.
Qed.

(** A field the body does not name is not among the fields an update
    writes, apart from the time stamp and the path of an uploaded
    file. *)
Lemma updateEvent_fields_absent `{Platform} (now : Z) (req : form) (fs : obj)
    (k : string) :
  updateEvent_fields now req = Returned fs ->
  fields req !! k = None -> k <> "updated_at" ->
  (k = "image" -> file req = None) ->
  fs !! k = None.
Proof.
  intros F B N I. apply updateEvent_fields_Returned in F as (u & A & ->).
  assert (with_file req !! k = None) as W.
  { destruct (decide (k = "image")) as [->|Hk].
    - unfold with_file. rewrite I by reflexivity. now rewrite lookup_body_copy, B.
    - rewrite lookup_with_file by exact Hk. now rewrite B. }
  assert (u !! k = None) as U.
  { destruct (decide (k = "attendees")) as [->|Hk].
    - now apply (update_attendees_absent _ _ A).
    - now rewrite (update_attendees_other _ _ _ A Hk). }
  unfold update_converted. rewrite lookup_insert_ne by congruence.
  now do 3 apply lookup_convert_None.
Qed.

(** The names of the fields an update writes are those of the body,
    [image] and [updated_at]: they are plain when those of the body
    are. *)
Lemma updateEvent_fields_plain `{Platform} (now : Z) (req : form) (fs : obj) :
  updateEvent_fields now req = Returned fs ->
  plain_names (fields req) = true -> plain_names fs = true.
Proof.
  intros F P. apply plain_names_spec. intros k Hk.
  destruct (decide (k = "updated_at")) as [->|N1]; [reflexivity|].
  destruct (decide (k = "image")) as [->|N2]; [reflexivity|].
  destruct (fields req !! k) as [s|] eqn:B.
  - apply (proj1 (plain_names_spec _) P). rewrite B. eauto.
  - rewrite (updateEvent_fields_absent now req fs k F B N1) in Hk
      by (intros ->; contradiction).
    destruct Hk. discriminate.
Qed.

(** For a body with plain field names, a 200 means that the identifier
    is well-formed, the fields were built, a document with that
    identifier exists, and the fields were written over it. *)
Lemma updateEvent_updated `{Platform} (now : Z) (id : jstring) (req : form)
    (db db' : database) (r : response) :
  updateEvent now id req db = (r, db') -> status r = 200 ->
  plain_names (fields req) = true ->
  exists (o : ObjectId) (c : collection) (fs d : obj),
    toObjectId (VStr id) = Returned (Some o)
    /\ updateEvent_fields now req = Returned fs
    /\ db = Some c /\ List.find (has_id o) c = Some d
    /\ fields req !! "_id" = None
    /\ body r = Message "Event updated successfully" (set_fields fs d)
    /\ db' = Some (update_first o fs c)
    /\ List.find (has_id o) (update_first o fs c) = Some (set_fields fs d).
Proof.
  unfold updateEvent, handle. rewrite run_bind, run_lift.
  destruct (toObjectId_total (VStr id)) as [[o|] ->];
    [|rewrite run_throw; intros [= <- <-]; discriminate].
  rewrite run_bind, run_lift.
  destruct (updateEvent_fields now req) as [fs|e] eqn:F.
  2:{ apply updateEvent_fields_Threw in F as [m ->].
      intros [= <- <-]. discriminate. }
  destruct db as [c|]; [|intros [= <- <-]; discriminate].
  intros E S P. revert E S.
  rewrite run_bind, run_getCollection, run_bind.
  unfold findOneAndUpdate.
  rewrite run_on_collection, (updateEvent_fields_plain now req fs F P).
  destruct (List.find (has_id o) c) as [d|] eqn:Fd;
    [|rewrite run_throw; intros [= <- <-]; discriminate].
  destruct (is_defined (get fs "_id") && negb (same_id (get fs "_id") (get d "_id")))
    eqn:I; [intros [= <- <-]; discriminate|].
  rewrite run_ret. intros [= <- <-] _.
  assert (fields req !! "_id" = None) as N.
  { pose proof (find_has_id _ _ _ Fd) as Hd. unfold has_id in Hd.
    destruct (lookup_updateEvent_fields _ _ _ F) as (_ & _ & L).
    unfold get in I at 1 2. rewrite (L "_id") in I by discriminate.
    destruct (fields req !! "_id") as [s|]; [|reflexivity].
    cbn [fmap option_fmap option_map default is_defined andb] in I.
    destruct (get d "_id"); discriminate. }
  exists o, c, fs, d. repeat split; auto.
  apply find_update_first; [assumption|].
  pose proof (find_has_id _ _ _ Fd) as Hd. unfold has_id, get in *.
  rewrite lookup_set_fields_None; [assumption|].
  destruct (lookup_updateEvent_fields _ _ _ F) as (_ & _ & L).
  rewrite (L "_id") by discriminate. now rewrite N.
Qed.

(** Conversely the update handler writes whatever fields it has built:
    no check stands between [updateEvent_fields] and the store. *)
Lemma updateEvent_writes_fields `{Platform} (now : Z) (id : jstring)
    (req : form) (o : ObjectId) (c : collection) (fs d : obj) :
  toObjectId (VStr id) = Returned (Some o) ->
  updateEvent_fields now req = Returned fs ->
  List.find (has_id o) c = Some d ->
  fields req !! "_id" = None ->
  plain_names (fields req) = true ->
  updateEvent now id req (Some c)
  = ({| status := 200;
        body := Message "Event updated successfully" (set_fields fs d) |},
     Some (update_first o fs c)).
Proof.
  intros T F Fd N P. unfold updateEvent, handle.
  rewrite run_bind, run_lift, T, run_bind, run_lift, F.
  rewrite run_bind, run_getCollection, run_bind.
  unfold findOneAndUpdate.
  rewrite run_on_collection, (updateEvent_fields_plain now req fs F P), Fd.
  destruct (lookup_updateEvent_fields _ _ _ F) as (_ & _ & L).
  assert (get fs "_id" = VUndef) as ->.
  { unfold get. rewrite (L "_id") by discriminate. now rewrite N. }
  reflexivity.
Qed.

(** C5, as amended.  For every successful update whose body carries no
    created_at field and whose field names are all plain (none is
    empty or holds a dot, a dollar or a NUL, so that none is a path into
    a stored field), the stored created_at keeps the value it had, and
    updated_at is set to the time of the update. *)
Theorem updateEvent_keeps_created_at `{Platform} (now : Z) (id : jstring)
    (req : form) (db db' : database) (r : response) :
  updateEvent now id req db = (r, db') -> status r = 200 ->
  fields req !! "created_at" = None ->
  plain_names (fields req) = true ->
  exists (o : ObjectId) (c c' : collection) (d d' : obj),
    toObjectId (VStr id) = Returned (Some o)
    /\ db = Some c /\ db' = Some c'
    /\ List.find (has_id o) c = Some d
    /\ List.find (has_id o) c' = Some d'
    /\ body r = Message "Event updated successfully" d'
    /\ d' !! "created_at" = d !! "created_at"
    /\ d' !! "updated_at" = Some (VDate (Some now)).
Proof.
  intros E S C P.
  destruct (updateEvent_updated _ _ _ _ _ _ E S P)
    as (o & c & fs & d & T & F & -> & Fd & _ & B & -> & Fd').
  destruct (lookup_updateEvent_fields _ _ _ F) as (U & _ & L).
  exists o, c, (update_first o fs c), d, (set_fields fs d).
  repeat split; auto.
  - apply lookup_set_fields_None. rewrite L by discriminate. now rewrite C.
  - now apply lookup_set_fields_Some.
Qed.

Lemma createEvent_record_attendees `{Platform} (created updated : Z)
    (fresh : ObjectId) (a : obj) (path : jstring) :
  with_id fresh (stamped created updated (converted a path)) !! "attendees"
  = a !! "attendees".
Proof.
  rewrite lookup_with_id, lookup_stamped, lookup_converted by discriminate.
  reflexivity.
Qed.

(** C6, as amended.  On create, a non-empty attendees text is decoded
    as JSON (the text ["a","b"] gives the sequence a, b); a non-empty
    text that does not decode is rejected with the message naming
    attendees, and one that decodes to a truthy value that is not an
    array is rejected with a 400 and nothing is stored; an accepted
    request stores the decoded array, and the empty sequence when
    attendees is absent or the empty text.  On update a body without
    attendees, whose field names are all plain (so that none is a path
    into attendees), leaves the stored attendees untouched. *)
Theorem attendees_normalisation `{Platform} :
  JSON_parse attendees_ab = Some (VArr [VStr (js "a"); VStr (js "b")])
  /\ (forall (req : form) (x : N) (s : jstring) (v : value),
        fields req !! "attendees" = Some (x :: s) ->
        JSON_parse (x :: s) = Some v ->
        create_attendees (body_copy req)
        = Returned (<["attendees" := v]> (body_copy req)))
  /\ (forall (created updated : Z) (fresh : ObjectId) (req : form)
             (db : database) (x : N) (s : jstring),
        fields req !! "attendees" = Some (x :: s) ->
        JSON_parse (x :: s) = None ->
        createEvent created updated fresh req db
        = ({| status := 400;
              body := Failure "Invalid attendees format. Must be a JSON array" |},
           db))
  /\ (forall (created updated : Z) (fresh : ObjectId) (req : form)
             (db : database) (x : N) (s : jstring) (v : value),
        fields req !! "attendees" = Some (x :: s) ->
        JSON_parse (x :: s) = Some v ->
        truthy v = true -> Array_isArray v = false ->
        exists message,
          createEvent created updated fresh req db
          = ({| status := 400; body := Failure message |}, db))
  /\ (forall (created updated : Z) (fresh : ObjectId) (req : form)
             (db db' : database) (r : response),
        createEvent created updated fresh req db = (r, db') ->
        status r = 201 ->
        exists (c : collection) (doc : obj),
          db = Some c /\ db' = Some (c ++ [doc])
          /\ match fields req !! "attendees" with
             | Some (x :: s) =>
                 forall items, JSON_parse (x :: s) = Some (VArr items) ->
                               doc !! "attendees" = Some (VArr items)
             | _ => doc !! "attendees" = Some (VArr [])
             end)
  /\ (forall (now : Z) (id : jstring) (req : form) (db db' : database)
             (r : response),
        updateEvent now id req db = (r, db') -> status r = 200 ->
        fields req !! "attendees" = None ->
        plain_names (fields req) = true ->
        exists (o : ObjectId) (c c' : collection) (d d' : obj),
          toObjectId (VStr id) = Returned (Some o)
          /\ db = Some c /\ db' = Some c'
          /\ List.find (has_id o) c = Some d
          /\ List.find (has_id o) c' = Some d'
          /\ d' !! "attendees" = d !! "attendees").
Proof.
  split; [reflexivity|]. split; [|split; [|split; [|split]]].
  - intros req x s v A P. now rewrite create_attendees_spec, A, P.
  - intros created updated fresh req db x s A P.
    rewrite (createEvent_rejected _ _ _ _ _
               (APIError "Invalid attendees format. Must be a JSON array" 400));
      [reflexivity|].
    now rewrite createEvent_record_spec, create_attendees_spec, A, P.
  - intros created updated fresh req db x s v A P T NA.
    assert (exists m, createEvent_record created updated req
                      = Threw (APIError m 400)) as [m R].
    { rewrite createEvent_record_spec, create_attendees_spec, A, P. rsimpl.
      destruct (file req) as [path|]; [|eauto].
      destruct (validateEventData_attendees
                  (converted (<["attendees" := v]> (body_copy req)) path) false)
        as [m V].
      - unfold get. rewrite lookup_converted, lookup_insert_eq by discriminate.
        exact T.
      - unfold get. rewrite lookup_converted, lookup_insert_eq by discriminate.
        exact NA.
      - rewrite V. rsimpl. eauto. }
    rewrite (createEvent_rejected _ _ _ _ _ _ R), errorHandler_APIError.
    eexists. reflexivity.
  - intros created updated fresh req db db' r E S.
    destruct (createEvent_created _ _ _ _ _ _ _ E S) as (c & d & -> & R & ->).
    apply createEvent_record_Returned in R as (a & path & A & F & V & ->).
    exists c, (with_id fresh (stamped created updated (converted a path))).
    split; [reflexivity|]. split; [reflexivity|].
    rewrite createEvent_record_attendees.
    rewrite create_attendees_spec in A.
    destruct (fields req !! "attendees") as [[|x s]|].
    + injection A as <-. apply lookup_insert_eq.
    + intros items P. rewrite P in A. injection A as <-. apply lookup_insert_eq.
    + injection A as <-. apply lookup_insert_eq.
  - intros now id req db db' r E S A P.
    destruct (updateEvent_updated _ _ _ _ _ _ E S P)
      as (o & c & fs & d & T & F & -> & Fd & _ & B & -> & Fd').
    destruct (lookup_updateEvent_fields _ _ _ F) as (_ & N & _).
    exists o, c, (update_first o fs c), d, (set_fields fs d).
    repeat split; auto.
    apply lookup_set_fields_None. auto.
Qed.

Lemma getEventById_invalid `{Platform} (q : query) (db : database) :
  truthy (q_id q) = true -> toObjectId (q_id q) = Returned None ->
  getEventById q db
  = ({| status := 400; body := Failure "Invalid event ID format" |}, db).
Proof.
  intros T I. unfold getEventById, handle. rewrite T. cbn [negb].
  now rewrite run_bind, run_lift, I, run_throw.
Qed.

Lemma isValid_false_invalid `{Platform} (id : value) :
  ObjectId_isValid id = Returned false -> toObjectId id = Returned None.
Proof. intros V. unfold toObjectId. now rewrite V. Qed.

(** C7. For every input the identifier codec returns an internal
    identifier or the invalid outcome, whatever the driver does
    (throwing included); the read-one handler answers the invalid
    outcome with a 400, and with a connected store never answers 500;
    the identifier "not-an-id", which the driver's format check does
    not accept, yields 400. *)
Theorem toObjectId_never_throws `{Platform} :
  (forall id : value,
     toObjectId id = Returned None
     \/ exists o : ObjectId, toObjectId id = Returned (Some o))
  /\ (forall (q : query) (db : database),
        truthy (q_id q) = true -> toObjectId (q_id q) = Returned None ->
        getEventById q db
        = ({| status := 400; body := Failure "Invalid event ID format" |}, db))
  /\ (forall (q : query) (c : collection),
        status (fst (getEventById q (Some c))) = 200
        \/ status (fst (getEventById q (Some c))) = 400
        \/ status (fst (getEventById q (Some c))) = 404)
  /\ (ObjectId_isValid (VStr (js "not-an-id")) = Returned false ->
      forall (type limit page : value) (db : database),
        getEventById {| q_id := VStr (js "not-an-id"); q_type := type;
                        q_limit := limit; q_page := page |} db
        = ({| status := 400; body := Failure "Invalid event ID format" |}, db)).
Proof.
  split; [|split; [|split]].
  - intros id. destruct (toObjectId_total id) as [[o|] E]; eauto.
  - apply @getEventById_invalid.
  - intros q c. unfold getEventById, handle.
    destruct (truthy (q_id q)); cbn [negb];
      [|rewrite run_throw; right; left; reflexivity].
    rewrite run_bind, run_lift.
    destruct (toObjectId_total (q_id q)) as [[o|] ->];
      [|rewrite run_throw; right; left; reflexivity].
    rewrite run_bind, run_getCollection, run_bind.
    unfold findOne. rewrite run_on_collection.
    destruct (List.find (has_id o) c);
      [rewrite run_ret; left; reflexivity
      |rewrite run_throw; right; right; reflexivity].
  - intros V type limit page db.
    apply getEventById_invalid; [reflexivity|].
    now apply isValid_false_invalid.
Qed.

Lemma is_latest_param (t : option jstring) :
  is_latest (param t) = true <-> t = Some (js "latest").
Proof.
  destruct t as [s|]; cbn [param is_latest]; [|split; discriminate].
  unfold jstring_eqb. rewrite bool_decide_eq_true. split; congruence.
Qed.

Lemma truthy_param (t : option jstring) :
  truthy (param t) = false <-> t = None \/ t = Some [].
Proof.
  destruct t as [[|x s]|]; cbn [param truthy];
    split; auto; try discriminate; intros [E|E]; discriminate.
Qed.

(** C10, as amended.  A GET /events request with a non-empty id is
    given to the read-one handler, with or without type=latest; with
    an absent or empty id and type=latest it is given to the list
    handler; with an absent or empty id and no type=latest it receives
    a 400 and no handler runs. *)
Theorem get_events_dispatch `{Platform} :
  (forall (x : N) (s : jstring) (type limit page : option jstring),
     let q := text_query (Some (x :: s)) type limit page in
     route_events q = ToGetEventById /\ get_events q = getEventById q)
  /\ (forall (id limit page : option jstring),
        id = None \/ id = Some [] ->
        let q := text_query id (Some (js "latest")) limit page in
        route_events q = ToGetLatestEvents /\ get_events q = getLatestEvents q)
  /\ (forall (id type limit page : option jstring) (db : database),
        id = None \/ id = Some [] -> type <> Some (js "latest") ->
        let q := text_query id type limit page in
        route_events q = NoHandler
        /\ exists message,
             get_events q db = ({| status := 400; body := Failure message |}, db)).
Proof.
  split; [|split].
  - intros x s type limit page q. unfold get_events. now unfold route_events.
  - intros id limit page I q.
    assert (route_events q = ToGetLatestEvents) as R.
    { unfold route_events, q, text_query. cbn [q_id q_type].
      apply truthy_param in I. rewrite I. reflexivity. }
    split; [exact R|]. unfold get_events. now rewrite R.
  - intros id type limit page db I T q.
    assert (route_events q = NoHandler) as R.
    { unfold route_events, q, text_query. cbn [q_id q_type].
      apply truthy_param in I. rewrite I.
      destruct (is_latest (param type)) eqn:L; [|reflexivity].
      apply is_latest_param in L. contradiction. }
    split; [exact R|]. unfold get_events. rewrite R. eauto.
Qed.

(** ** Concrete requests *)

(** C1. The update handler never calls the Validator: a non-numeric
    rigor_rank, which [validateEventData] rejects in update mode, is
    answered with a 200 and written to the stored record as
    not-a-number. *)
Theorem updateEvent_writes_non_numeric_rigor_rank :
  let req := {| fields := {["rigor_rank" := js "abc"]}; file := None |} in
  let run := updateEvent (H := reference) 5000 sample_id req sample_store in
  (updateEvent_fields (H := reference) 5000 req ≫= fun fs =>
     validateEventData (H := reference) fs true)
  = Threw (APIError "rigor_rank must be a valid integer" 400)
  /\ status (fst run) = 200
  /\ stored_field sample_store "rigor_rank" = [Some (VNum (Int 7))]
  /\ stored_field (snd run) "rigor_rank" = [Some (VNum NaN)]
  /\ stored_field (snd run) "updated_at" = [Some (VDate (Some 5000))].
Proof. cbv zeta. repeat split; vm_compute; reflexivity. Qed.

(** C2. The limit text 0 and the page text 0 parse to the integer 0,
    which lies outside [1,100] and below 1, yet the resolver does not
    reject them: [parseInt(..) || default] has replaced the zero by the
    default before the range checks run.  (The texts -1 are rejected,
    with the messages that state the intended ranges.) *)
Theorem validatePagination_accepts_zero :
  parsed_or_default (VStr (js "0")) 10 = Int 0
  /\ parsed_or_default (VStr (js "0")) 1 = Int 0
  /\ validatePagination (VStr (js "0")) VUndef
     = Returned {| limit := Int 10; page := Int 1; skip := Int 0 |}
  /\ validatePagination VUndef (VStr (js "0"))
     = Returned {| limit := Int 10; page := Int 1; skip := Int 0 |}
  /\ validatePagination (VStr (js "-1")) VUndef
     = Threw (APIError "Limit must be between 1 and 100" 400)
  /\ validatePagination VUndef (VStr (js "-1"))
     = Threw (APIError "Page must be greater than 0" 400)
  /\ status (fst (getLatestEvents (H := reference)
                    (text_query None (Some (js "latest")) (Some (js "0")) None)
                    sample_store)) = 200.
Proof. repeat split; vm_compute; reflexivity. Qed.

(** A create request with uid=abc is accepted and stored with uid 18. *)
Lemma uid_abc_is_stored_as_18 :
  let req := sample_form [("uid", js "abc")] in
  let run := createEvent (H := reference) 1000 1000 sample_id req (Some []) in
  fields req !! "uid" = Some (js "abc")
  /\ parseInt (js "abc") = NaN
  /\ status (fst run) = 201
  /\ stored_field (snd run) "uid" = [Some (VNum (Int 18))].
Proof. cbv zeta. repeat split; vm_compute; reflexivity. Qed.

(** Records in which none of the eight required fields is absent or
    blank, and which the Validator rejects in create mode: one for its
    Invalid Date schedule, one because its rigor rank is the number 0
    (as built from the text 0 by the create handler). *)
Lemma complete_records_rejected :
  existsb (absent_or_blank invalid_schedule_record) requiredFields = false
  /\ validateEventData (H := reference) invalid_schedule_record false
     = Threw (APIError "schedule must be a valid date/time" 400)
  /\ existsb (absent_or_blank zero_rank_record) requiredFields = false
  /\ validateEventData (H := reference) zero_rank_record false
     = Threw (APIError "Missing required fields: rigor_rank" 400)
  /\ createEvent (H := reference) 1000 1000 sample_id
       (sample_form [("rigor_rank", js "0")]) (Some [])
     = ({| status := 400;
           body := Failure "Missing required fields: rigor_rank" |}, Some []).
Proof. repeat split; vm_compute; reflexivity. Qed.

(** An update whose body carries created_at replaces the stored
    creation time by that text. *)
Lemma created_at_overwritten_by_update :
  let req := {| fields := {["created_at" := js "2000-01-01"]}; file := None |} in
  let run := updateEvent (H := reference) 5000 sample_id req sample_store in
  status (fst run) = 200
  /\ stored_field sample_store "created_at" = [Some (VDate (Some 1000))]
  /\ stored_field (snd run) "created_at" = [Some (VStr (js "2000-01-01"))].
Proof. cbv zeta. repeat split; vm_compute; reflexivity. Qed.

(** On create the empty attendees text, which does not decode, is
    accepted and stored as the empty sequence. *)
Lemma empty_attendees_silently_defaulted :
  let req := sample_form [("attendees", [])] in
  let run := createEvent (H := reference) 1000 1000 sample_id req (Some []) in
  fields req !! "attendees" = Some []
  /\ JSON_parse [] = None
  /\ status (fst run) = 201
  /\ stored_field (snd run) "attendees" = [Some (VArr [])].
Proof. cbv zeta. repeat split; vm_compute; reflexivity. Qed.

(** The limit text 0abc has an integer at its head, the zero, and
    resolves to the default. *)
Lemma limit_0abc_is_defaulted :
  leading_integer (js "0abc") = true
  /\ parseInt (js "0abc") = Int 0
  /\ validatePagination (VStr (js "0abc")) VUndef
     = Returned {| limit := Int 10; page := Int 1; skip := Int 0 |}.
Proof. repeat split; vm_compute; reflexivity. Qed.


(** GET /events?id=&type=latest is given to the list handler. *)
Lemma empty_id_with_latest_is_listed :
  let q := text_query (Some []) (Some (js "latest")) None None in
  q_id q = VStr []
  /\ route_events q = ToGetLatestEvents
  /\ status (fst (get_events (H := reference) q sample_store)) = 200.
Proof. cbv zeta. repeat split; vm_compute; reflexivity. Qed.

(** ** The theorems at concrete requests *)


Lemma getLatestEvents_pagination_metadata_witness :
  exists events : list obj,
    getLatestEvents (H := reference)
      (text_query None (Some (js "latest")) (Some (js "5")) (Some (js "2")))
      (Some (repeat ∅ 47%nat))
    = ({| status := 200;
          body := Page events
            {| currentPage := Int 2; totalPages := Int 10;
               totalEvents := Int 47; eventsPerPage := Int 5;
               hasNextPage := true; hasPrevPage := true |} |},
       Some (repeat ∅ 47%nat)).
Proof.
  apply (proj2 (getLatestEvents_pagination_metadata (H := reference))).
  reflexivity.
Defined.

Lemma validateEventData_create_missing_fields_witness :
  filter (fun f => absent_or_blank blank_name_record f = true) requiredFields
  = ["name"; "tagline"]
  /\ validateEventData (H := reference) blank_name_record false
     = Threw (APIError "Missing required fields: name, tagline" 400).
Proof.
  assert (filter (fun f => absent_or_blank blank_name_record f = true)
            requiredFields = ["name"; "tagline"]) as EM
    by (vm_compute; reflexivity).
  assert (forall f v, f ∈ requiredFields -> blank_name_record !! f = Some v ->
                      is_string v = false -> truthy v = true) as Truthy.
  { intros f v Hf L S. unfold requiredFields in Hf.
    repeat (apply elem_of_cons in Hf as [-> | Hf]);
      [..|now apply elem_of_nil in Hf];
      vm_compute in L; try discriminate; injection L as <-;
      (discriminate S || reflexivity). }
  destruct (validateEventData_create_missing_fields (H := reference)
              blank_name_record) as (_ & _ & Exact).
  destruct (Exact Truthy) as [Rej _].
  split; [exact EM|].
  rewrite EM in Rej. apply Rej. discriminate.
Defined.

Lemma createEvent_non_numeric_uid_witness :
  let req := sample_form [("uid", js "12abc")] in
  let run := createEvent (H := reference) 1000 1000 sample_id req (Some []) in
  fields req !! "uid" = Some (js "12abc")
  /\ integer_text (js "12abc") = false
  /\ status (fst run) = 201
  /\ exists (c : collection) (doc : obj),
       Some [] = Some c /\ snd run = Some (c ++ [doc])
       /\ doc !! "uid" = Some (VNum (Int 12)).
Proof.
  cbv zeta.
  assert (fields (sample_form [("uid", js "12abc")]) !! "uid"
          = Some (js "12abc")) as U by (vm_compute; reflexivity).
  assert (status (fst (createEvent (H := reference) 1000 1000 sample_id
                         (sample_form [("uid", js "12abc")]) (Some []))) = 201)
    as S by (vm_compute; reflexivity).
  destruct (createEvent_non_numeric_uid (H := reference) 1000 1000 sample_id
              _ _ U) as (_ & _ & _ & _ & Stored).
  split; [exact U|]. split; [vm_compute; reflexivity|]. split; [exact S|].
  exact (Stored (Some []) _ _ (surjective_pairing _) S).
Defined.

Lemma updateEvent_keeps_created_at_witness :
  let req := {| fields := {["name" := js "Renamed"]}; file := None |} in
  let run := updateEvent (H := reference) 5000 sample_id req sample_store in
  status (fst run) = 200 /\ fields req !! "created_at" = None
  /\ plain_names (fields req) = true
  /\ exists (o : ObjectId) (c c' : collection) (d d' : obj),
       toObjectId (H := reference) (VStr sample_id) = Returned (Some o)
       /\ sample_store = Some c /\ snd run = Some c'
       /\ List.find (has_id o) c = Some d
       /\ List.find (has_id o) c' = Some d'
       /\ body (fst run) = Message "Event updated successfully" d'
       /\ d' !! "created_at" = d !! "created_at"
       /\ d' !! "updated_at" = Some (VDate (Some 5000)).
Proof.
  cbv zeta.
  assert (status (fst (updateEvent (H := reference) 5000 sample_id
            {| fields := {["name" := js "Renamed"]}; file := None |}
            sample_store)) = 200) as S by (vm_compute; reflexivity).
  assert (fields {| fields := {["name" := js "Renamed"]}; file := None |}
            !! "created_at" = None) as C by (vm_compute; reflexivity).
  assert (plain_names
            (fields {| fields := {["name" := js "Renamed"]}; file := None |})
          = true) as P by (vm_compute; reflexivity).
  split; [exact S|]. split; [exact C|]. split; [exact P|].
  exact (updateEvent_keeps_created_at (H := reference) 5000 sample_id _
           sample_store _ _ (surjective_pairing _) S C P).
Defined.

Lemma attendees_normalisation_witness :
  fields (sample_form [("attendees", js "not json")]) !! "attendees"
  = Some (js "not json")
  /\ JSON_parse (js "not json") = None
  /\ createEvent (H := reference) 1000 1000 sample_id
       (sample_form [("attendees", js "not json")]) (Some [])
     = ({| status := 400;
           body := Failure "Invalid attendees format. Must be a JSON array" |},
        Some []).
Proof.
  assert (fields (sample_form [("attendees", js "not json")]) !! "attendees"
          = Some (110%N :: js "ot json")) as A by (vm_compute; reflexivity).
  assert (JSON_parse (110%N :: js "ot json") = None) as P
    by (vm_compute; reflexivity).
  destruct (attendees_normalisation (H := reference)) as (_ & _ & Bad & _).
  split; [exact A|]. split; [exact P|].
  exact (Bad 1000 1000 sample_id _ (Some []) _ _ A P).
Defined.

Lemma toObjectId_never_throws_witness :
  ObjectId_isValid (Platform := reference) (VStr (js "not-an-id")) = Returned false
  /\ getEventById (H := reference)
       {| q_id := VStr (js "not-an-id"); q_type := VUndef;
          q_limit := VUndef; q_page := VUndef |} None
     = ({| status := 400; body := Failure "Invalid event ID format" |}, None).
Proof.
  assert (ObjectId_isValid (Platform := reference) (VStr (js "not-an-id"))
          = Returned false) as V by (vm_compute; reflexivity).
  destruct (toObjectId_never_throws (H := reference)) as (_ & _ & _ & Bad).
  split; [exact V|]. exact (Bad V VUndef VUndef VUndef None).
Defined.

Lemma get_events_dispatch_witness :
  route_events (text_query None None None None) = NoHandler.
Proof.
  destruct (get_events_dispatch (H := reference)) as (_ & _ & No).
  destruct (No None None None None None (or_introl eq_refl)
              ltac:(discriminate)) as [R _].
  exact R.
Defined.

(** * The handlers and the store *)

(** ** How each handler runs *)

Lemma getEventById_missing `{Platform} (q : query) (db : database) :
  truthy (q_id q) = false ->
  getEventById q db
  = ({| status := 400; body := Failure "Event ID is required" |}, db).
Proof.
  intros T. unfold getEventById, handle. rewrite T. reflexivity.
Qed.

Lemma getEventById_run `{Platform} (q : query) (o : ObjectId) (c : collection) :
  truthy (q_id q) = true -> toObjectId (q_id q) = Returned (Some o) ->
  getEventById q (Some c)
  = (match List.find (has_id o) c with
     | Some d => {| status := 200; body := Data d |}
     | None => {| status := 404; body := Failure "Event not found" |}
     end, Some c).
Proof.
  intros T E. unfold getEventById, handle. rewrite T. cbn [negb].
  rewrite run_bind, run_lift, E. cbv beta iota.
  rewrite run_bind, run_getCollection, run_bind.
  unfold findOne. rewrite run_on_collection. cbv beta iota zeta.
  destruct (List.find (has_id o) c); reflexivity.
Qed.

Lemma getEventById_disconnected `{Platform} (q : query) (o : ObjectId) :
  truthy (q_id q) = true -> toObjectId (q_id q) = Returned (Some o) ->
  getEventById q None = (not_initialized, None).
Proof.
  intros T E. unfold getEventById, handle. rewrite T. cbn [negb].
  rewrite run_bind, run_lift, E. reflexivity.
Qed.

Lemma updateEvent_invalid `{Platform} (now : Z) (id : jstring) (req : form)
    (db : database) :
  toObjectId (VStr id) = Returned None ->
  updateEvent now id req db
  = ({| status := 400; body := Failure "Invalid event ID format" |}, db).
Proof.
  intros E. unfold updateEvent, handle. rewrite run_bind, run_lift, E.
  reflexivity.
Qed.

Lemma updateEvent_rejected `{Platform} (now : Z) (id : jstring) (req : form)
    (db : database) (o : ObjectId) (e : error) :
  toObjectId (VStr id) = Returned (Some o) ->
  updateEvent_fields now req = Threw e ->
  updateEvent now id req db = (errorHandler e, db).
Proof.
  intros E F. unfold updateEvent, handle. rewrite run_bind, run_lift, E.
  cbv beta iota. rewrite run_bind, run_lift, F. reflexivity.
Qed.

Lemma updateEvent_disconnected `{Platform} (now : Z) (id : jstring) (req : form)
    (o : ObjectId) (fs : obj) :
  toObjectId (VStr id) = Returned (Some o) ->
  updateEvent_fields now req = Returned fs ->
  updateEvent now id req None = (not_initialized, None).
Proof.
  intros E F. unfold updateEvent, handle. rewrite run_bind, run_lift, E.
  cbv beta iota. rewrite run_bind, run_lift, F. reflexivity.
Qed.

(** An update with plain field names, past the identifier check and the
    conversions. *)
Lemma updateEvent_run `{Platform} (now : Z) (id : jstring) (req : form)
    (o : ObjectId) (fs : obj) (c : collection) :
  toObjectId (VStr id) = Returned (Some o) ->
  updateEvent_fields now req = Returned fs ->
  plain_names fs = true ->
  updateEvent now id req (Some c)
  = match List.find (has_id o) c with
    | None => ({| status := 404; body := Failure "Event not found" |}, Some c)
    | Some d =>
        if is_defined (get fs "_id") && negb (same_id (get fs "_id") (get d "_id"))
        then (errorHandler immutable_id, Some c)
        else ({| status := 200;
                 body := Message "Event updated successfully" (set_fields fs d) |},
              Some (update_first o fs c))
    end.
Proof.
  intros E F P. unfold updateEvent, handle. rewrite run_bind, run_lift, E.
  cbv beta iota. rewrite run_bind, run_lift, F. cbv beta iota.
  rewrite run_bind, run_getCollection, run_bind.
  unfold findOneAndUpdate. rewrite run_on_collection, P.
  destruct (List.find (has_id o) c) as [d|]; [|reflexivity].
  destruct (is_defined (get fs "_id") && negb (same_id (get fs "_id") (get d "_id")));
    reflexivity.
Qed.

(** An update one of whose field names is not plain: the outcome is the
    store's. *)
Lemma updateEvent_run_paths `{Platform} (now : Z) (id : jstring) (req : form)
    (o : ObjectId) (fs : obj) (c : collection) :
  toObjectId (VStr id) = Returned (Some o) ->
  updateEvent_fields now req = Returned fs ->
  plain_names fs = false ->
  updateEvent now id req (Some c)
  = match update_refused fs with
    | Some e => (errorHandler (driver_error e), Some c)
    | None =>
        match List.find (has_id o) c with
        | None =>
            ({| status := 404; body := Failure "Event not found" |}, Some c)
        | Some d =>
            match set_paths fs d with
            | Threw e => (errorHandler (driver_error e), Some c)
            | Returned d' =>
                if has_id o d'
                then ({| status := 200;
                         body := Message "Event updated successfully" d' |},
                      Some (replace_first o d' c))
                else (errorHandler immutable_id, Some c)
            end
        end
    end.
Proof.
  intros E F P. unfold updateEvent, handle. rewrite run_bind, run_lift, E.
  cbv beta iota. rewrite run_bind, run_lift, F. cbv beta iota.
  rewrite run_bind, run_getCollection, run_bind.
  unfold findOneAndUpdate. rewrite run_on_collection, P.
  destruct (update_refused fs) as [e|]; [reflexivity|].
  destruct (List.find (has_id o) c) as [d|]; [|reflexivity].
  destruct (set_paths fs d) as [d'|e]; [|reflexivity].
  destruct (has_id o d'); reflexivity.
Qed.

Lemma deleteEvent_invalid `{Platform} (id : jstring) (db : database) :
  toObjectId (VStr id) = Returned None ->
  deleteEvent id db
  = ({| status := 400; body := Failure "Invalid event ID format" |}, db).
Proof.
  intros E. unfold deleteEvent, handle. rewrite run_bind, run_lift, E.
  reflexivity.
Qed.

Lemma deleteEvent_disconnected `{Platform} (id : jstring) (o : ObjectId) :
  toObjectId (VStr id) = Returned (Some o) ->
  deleteEvent id None = (not_initialized, None).
Proof.
  intros E. unfold deleteEvent, handle. rewrite run_bind, run_lift, E.
  reflexivity.
Qed.

Lemma deleteEvent_run `{Platform} (id : jstring) (o : ObjectId) (c : collection) :
  toObjectId (VStr id) = Returned (Some o) ->
  deleteEvent id (Some c)
  = if existsb (has_id o) c
    then ({| status := 200;
             body := Message "Event deleted successfully"
                       {["deletedId" := VStr id]} |},
          Some (delete_first o c))
    else ({| status := 404; body := Failure "Event not found" |},
          Some (delete_first o c)).
Proof.
  intros E. unfold deleteEvent, handle. rewrite run_bind, run_lift, E.
  cbv beta iota. rewrite run_bind, run_getCollection, run_bind.
  unfold deleteOne. rewrite run_on_collection. cbv beta iota zeta.
  destruct (existsb (has_id o) c); reflexivity.
Qed.

Lemma createEvent_disconnected `{Platform} (created updated : Z)
    (fresh : ObjectId) (req : form) (d : obj) :
  createEvent_record created updated req = Returned d ->
  createEvent created updated fresh req None = (not_initialized, None).
Proof.
  intros E. unfold createEvent, handle. rewrite run_bind, run_lift, E.
  reflexivity.
Qed.

(** ** The list operations of the store *)

Lemma delete_first_absent (o : ObjectId) (c : collection) :
  existsb (has_id o) c = false -> delete_first o c = c.
Proof.
  induction c as [|d c IH]; [reflexivity|]. cbn [existsb delete_first].
  destruct (has_id o d); [discriminate|]. intros E. now rewrite IH.
Qed.

Lemma find_existsb (o : ObjectId) (c : collection) :
  existsb (has_id o) c = bool_decide (is_Some (List.find (has_id o) c)).
Proof.
  induction c as [|d c IH]; [reflexivity|]. cbn [existsb List.find].
  destruct (has_id o d); [reflexivity|]. exact IH.
Qed.

Lemma has_id_same (o : ObjectId) (d : obj) :
  has_id o d = same_id (get d "_id") (VOid o).
Proof.
  unfold has_id, same_id, jstring_eqb.
  destruct (get d "_id"); try reflexivity.
  apply bool_decide_ext. split; congruence.
Qed.

Lemma elem_of_delete_first (o : ObjectId) (c : collection) (x : obj) :
  x ∈ delete_first o c -> x ∈ c.
Proof.
  induction c as [|d c IH]; cbn [delete_first]; [easy|].
  destruct (has_id o d).
  - intros Hx. now apply list_elem_of_further.
  - intros [->|Hx]%elem_of_cons; [apply list_elem_of_here|].
    apply list_elem_of_further. now apply IH.
Qed.

Lemma length_delete_first (o : ObjectId) (c : collection) :
  existsb (has_id o) c = true ->
  (length (delete_first o c) + 1 = length c)%nat.
Proof.
  induction c as [|d c IH]; cbn [existsb delete_first length]; [discriminate|].
  destruct (has_id o d); cbn [orb length]; [lia|].
  intros E. rewrite <- (IH E). lia.
Qed.

Lemma others_delete_first (o : ObjectId) (c : collection) :
  others o (delete_first o c) = others o c.
Proof.
  unfold others. induction c as [|d c IH]; [reflexivity|].
  cbn [delete_first]. destruct (has_id o d) eqn:E.
  - rewrite filter_cons_False; [reflexivity|]. rewrite E. discriminate.
  - rewrite !filter_cons_True by exact E. now rewrite IH.
Qed.

(** A set of fields without [_id] leaves the identifier as it is. *)
Lemma set_fields_keeps_id (fs d : obj) :
  fs !! "_id" = None -> get (set_fields fs d) "_id" = get d "_id".
Proof.
  intros F. unfold get. now rewrite lookup_set_fields_None.
Qed.

(** The fields an update writes carry an [_id] exactly when the body
    does, as text. *)
Lemma updateEvent_fields_id `{Platform} (now : Z) (req : form) (fs : obj) :
  updateEvent_fields now req = Returned fs ->
  fs !! "_id" = VStr <$> fields req !! "_id".
Proof.
  intros F. apply lookup_updateEvent_fields in F as (_ & _ & F).
  apply F; discriminate.
Qed.

Lemma distinct_ids_snoc (l : list value) (v : value) :
  distinct_ids l -> Forall (fun x => same_id x v = false) l ->
  distinct_ids (l ++ [v]).
Proof.
  induction l as [|x l IH]; cbn [distinct_ids app].
  - intros _ _. split; [constructor|exact I].
  - intros [Hx Hl] Hv. inversion Hv as [|? ? Hxv Hlv]; subst. split.
    + apply Forall_app. split; [exact Hx|]. constructor; [exact Hxv|constructor].
    + now apply IH.
Qed.

Lemma distinct_ids_delete_first (o : ObjectId) (c : collection) :
  distinct_ids (ids c) -> distinct_ids (ids (delete_first o c)).
Proof.
  unfold ids. induction c as [|d c IH]; [easy|].
  cbn [map distinct_ids delete_first]. intros [Hd Hc].
  destruct (has_id o d); [exact Hc|]. cbn [map distinct_ids]. split.
  - rewrite Forall_forall in Hd |- *. intros y Hy. apply Hd.
    apply list_elem_of_fmap in Hy as (x & -> & Hx).
    apply list_elem_of_fmap. exists x. split; [reflexivity|].
    now apply elem_of_delete_first in Hx.
  - now apply IH.
Qed.

(** Among documents with distinct identifiers, deleting the first one
    that carries [o] leaves none that carries it. *)
Lemma delete_first_gone (o : ObjectId) (c : collection) :
  distinct_ids (ids c) -> existsb (has_id o) (delete_first o c) = false.
Proof.
  unfold ids. induction c as [|d c IH]; [reflexivity|].
  cbn [map distinct_ids delete_first]. intros [Hd Hc].
  destruct (has_id o d) eqn:E.
  - apply not_true_is_false. intros (x & Hx & Ex)%existsb_exists.
    rewrite Forall_forall in Hd.
    assert (same_id (get d "_id") (get x "_id") = false) as K.
    { apply Hd. apply list_elem_of_fmap. exists x. split; [reflexivity|].
      now apply list_elem_of_In. }
    unfold has_id in E, Ex. unfold same_id in K.
    destruct (get d "_id"); try discriminate.
    destruct (get x "_id"); try discriminate.
    unfold jstring_eqb in *. apply bool_decide_eq_true in E, Ex.
    apply bool_decide_eq_false in K. congruence.
  - cbn [existsb]. rewrite E. cbn [orb]. now apply IH.
Qed.

Lemma find_snoc_fresh (o : ObjectId) (c : collection) (d : obj) :
  existsb (has_id o) c = false -> has_id o d = true ->
  List.find (has_id o) (c ++ [d]) = Some d.
Proof.
  induction c as [|x c IH]; cbn [existsb app List.find].
  - intros _ ->. reflexivity.
  - destruct (has_id o x); [discriminate|]. exact IH.
Qed.

Lemma update_first_replace (o : ObjectId) (fs : obj) (c : collection) (d : obj) :
  List.find (has_id o) c = Some d ->
  update_first o fs c = replace_first o (set_fields fs d) c.
Proof.
  induction c as [|x c IH]; [discriminate|].
  cbn [List.find update_first replace_first]. destruct (has_id o x).
  - now intros [= ->].
  - intros F. now rewrite IH.
Qed.

Lemma length_replace_first (o : ObjectId) (d' : obj) (c : collection) :
  length (replace_first o d' c) = length c.
Proof.
  induction c as [|d c IH]; [reflexivity|]. cbn [replace_first].
  destruct (has_id o d); cbn [length]; [reflexivity|]. now rewrite IH.
Qed.

Lemma others_replace_first (o : ObjectId) (d' : obj) (c : collection) :
  has_id o d' = true -> others o (replace_first o d' c) = others o c.
Proof.
  unfold others. intros K. induction c as [|x c IH]; [reflexivity|].
  cbn [replace_first]. destruct (has_id o x) eqn:E.
  - rewrite !filter_cons_False; [reflexivity| |].
    + rewrite E. discriminate.
    + rewrite K. discriminate.
  - rewrite !filter_cons_True by exact E. now rewrite IH.
Qed.

(** Two documents that carry the identifier [o] have the same [_id]. *)
Lemma has_id_same_value (o : ObjectId) (d d' : obj) :
  has_id o d = true -> has_id o d' = true -> get d' "_id" = get d "_id".
Proof.
  unfold has_id, jstring_eqb.
  destruct (get d "_id"); try discriminate.
  destruct (get d' "_id"); try discriminate.
  intros A B. apply bool_decide_eq_true in A, B. congruence.
Qed.

Lemma ids_replace_first (o : ObjectId) (d' : obj) (c : collection) :
  has_id o d' = true -> ids (replace_first o d' c) = ids c.
Proof.
  unfold ids. intros K. induction c as [|x c IH]; [reflexivity|].
  cbn [replace_first]. destruct (has_id o x) eqn:E; cbn [map].
  - now rewrite (has_id_same_value o x d' E K).
  - now rewrite IH.
Qed.

Lemma find_replace_first (o : ObjectId) (d' : obj) (c : collection) (d : obj) :
  List.find (has_id o) c = Some d -> has_id o d' = true ->
  List.find (has_id o) (replace_first o d' c) = Some d'.
Proof.
  intros F K. induction c as [|x c IH]; [discriminate|].
  cbn [List.find replace_first] in *. destruct (has_id o x) eqn:X.
  - cbn [List.find]. now rewrite K.
  - cbn [List.find]. rewrite X. auto.
Qed.

Lemma existsb_has_id (o : ObjectId) (c : collection) :
  existsb (has_id o) c = existsb (fun x => same_id (get x "_id") (VOid o)) c.
Proof.
  induction c as [|x c IH]; [reflexivity|]. cbn [existsb].
  now rewrite IH, has_id_same.
Qed.

(** ** What each handler can answer *)

Lemma status_APIError_400 (e : error) :
  (exists message, e = APIError message 400) -> status (errorHandler e) = 400.
Proof. intros [m ->]. reflexivity. Qed.

(** What the driver throws is answered 500, or 400 when its name is
    the one the responder takes for a validation error. *)
Lemma status_driver_error (e : error) :
  status (errorHandler (driver_error e)) = 400
  \/ status (errorHandler (driver_error e)) = 500.
Proof.
  unfold errorHandler, driver_error, PlainError, code_is, name_is.
  cbn [err_name err_message err_statusCode err_code].
  rewrite !bool_decide_eq_false_2 by discriminate.
  destruct (bool_decide (err_name e = "MongoError")),
    (bool_decide (err_name e = "ValidationError")); auto.
Qed.

Lemma getEventById_outcome `{Platform} (q : query) (db : database) :
  snd (getEventById q db) = db
  /\ (status (fst (getEventById q db)) = 400
      \/ fst (getEventById q db) = not_initialized
      \/ status (fst (getEventById q db)) = 404
      \/ status (fst (getEventById q db)) = 200).
Proof.
  destruct (truthy (q_id q)) eqn:T.
  2:{ rewrite getEventById_missing by exact T. split; [reflexivity|now left]. }
  destruct (toObjectId_total (q_id q)) as [[o|] E].
  2:{ rewrite getEventById_invalid by assumption. split; [reflexivity|now left]. }
  destruct db as [c|].
  - rewrite (getEventById_run q o c T E).
    destruct (List.find (has_id o) c); (split; [reflexivity|]); cbn [fst status];
      auto.
  - rewrite (getEventById_disconnected q o T E). split; [reflexivity|]. auto.
Qed.

Lemma validatePagination_messages (l p : value) (e : error) :
  validatePagination l p = Threw e ->
  e = APIError "Limit must be between 1 and 100" 400
  \/ e = APIError "Page must be greater than 0" 400.
Proof.
  unfold validatePagination.
  destruct (number_lt _ _ || number_gt _ _); [intros [= <-]; now left|].
  destruct (number_lt _ _); [intros [= <-]; now right|discriminate].
Qed.

(** The answers of the list handler once the type is accepted. *)
Lemma getLatestEvents_outcome `{Platform} (q : query) (db : database) :
  is_latest (q_type q) = true ->
  snd (getLatestEvents q db) = db
  /\ (fst (getLatestEvents q db)
        = {| status := 400; body := Failure "Limit must be between 1 and 100" |}
      \/ fst (getLatestEvents q db)
        = {| status := 400; body := Failure "Page must be greater than 0" |}
      \/ fst (getLatestEvents q db) = not_initialized
      \/ fst (getLatestEvents q db)
        = {| status := 500; body := Failure "skip and limit must be whole numbers" |}
      \/ (status (fst (getLatestEvents q db)) = 200
          /\ exists events pg, body (fst (getLatestEvents q db)) = Page events pg)).
Proof.
  intros T. unfold getLatestEvents, handle. rewrite T. cbn [negb].
  rewrite run_bind, run_lift.
  destruct (validatePagination (q_limit q) (q_page q)) as [pr|e] eqn:V.
  2:{ apply validatePagination_messages in V as [-> | ->];
        (split; [reflexivity|]); auto. }
  destruct db as [c|]; [|split; [reflexivity|]; auto].
  rewrite run_bind, run_getCollection, run_bind, run_countDocuments, run_bind.
  unfold find_page. rewrite run_on_collection.
  destruct (as_count (skip pr)) as [s|];
    [|cbv beta iota zeta; split; [reflexivity|]; auto].
  destruct (as_count (limit pr)) as [k|];
    [|cbv beta iota zeta; split; [reflexivity|]; auto].
  cbv beta iota zeta. rewrite run_ret. split; [reflexivity|].
  do 4 right. split; [reflexivity|]. cbn [fst body]. eauto.
Qed.

Lemma getLatestEvents_wrong_type `{Platform} (q : query) (db : database) :
  is_latest (q_type q) = false ->
  getLatestEvents q db
  = ({| status := 400; body := Failure "Invalid type parameter. Use type=latest" |},
     db).
Proof.
  intros T. unfold getLatestEvents, handle. rewrite T. reflexivity.
Qed.

Lemma getLatestEvents_rejected `{Platform} (q : query) (db : database)
    (e : error) :
  is_latest (q_type q) = true ->
  validatePagination (q_limit q) (q_page q) = Threw e ->
  getLatestEvents q db = (errorHandler e, db).
Proof.
  intros T V. unfold getLatestEvents, handle. rewrite T. cbn [negb].
  now rewrite run_bind, run_lift, V.
Qed.

Lemma getLatestEvents_disconnected `{Platform} (q : query) (pr : page_request) :
  is_latest (q_type q) = true ->
  validatePagination (q_limit q) (q_page q) = Returned pr ->
  getLatestEvents q None = (not_initialized, None).
Proof.
  intros T V. unfold getLatestEvents, handle. rewrite T. cbn [negb].
  now rewrite run_bind, run_lift, V.
Qed.

Lemma createEvent_outcome `{Platform} (created updated : Z) (fresh : ObjectId)
    (req : form) (db : database) :
  (snd (createEvent created updated fresh req db) = db
   /\ (status (fst (createEvent created updated fresh req db)) = 400
       \/ fst (createEvent created updated fresh req db) = not_initialized
       \/ fst (createEvent created updated fresh req db)
          = {| status := 500; body := Failure "E11000 duplicate key error" |}))
  \/ (status (fst (createEvent created updated fresh req db)) = 201
      /\ exists (c : collection) (d : obj),
           createEvent_record created updated req = Returned d
           /\ db = Some c
           /\ existsb (fun x => same_id (get x "_id") (get (with_id fresh d) "_id")) c
              = false
           /\ createEvent created updated fresh req db
              = ({| status := 201;
                    body := Message "Event created successfully"
                              (with_id fresh d
                               ∪ {["id" := get (with_id fresh d) "_id"]}) |},
                 Some (c ++ [with_id fresh d]))).
Proof.
  destruct (createEvent_record created updated req) as [d|e] eqn:R.
  2:{ rewrite (createEvent_rejected _ _ _ _ _ _ R). left. split; [reflexivity|].
      left. apply status_APIError_400. eapply createEvent_record_Threw, R. }
  destruct db as [c|].
  2:{ rewrite (createEvent_disconnected _ _ _ _ _ R). left.
      split; [reflexivity|]. auto. }
  rewrite createEvent_run, R.
  destruct (existsb _ c) eqn:D.
  - left. split; [reflexivity|]. auto.
  - right. split; [reflexivity|]. exists c, d. auto.
Qed.

Lemma updateEvent_outcome `{Platform} (now : Z) (id : jstring) (req : form)
    (db : database) :
  (snd (updateEvent now id req db) = db
   /\ (status (fst (updateEvent now id req db)) = 400
       \/ fst (updateEvent now id req db) = not_initialized
       \/ fst (updateEvent now id req db)
          = {| status := 404; body := Failure "Event not found" |}
       \/ status (fst (updateEvent now id req db)) = 500))
  \/ (exists (o : ObjectId) (c : collection) (d d' : obj),
        toObjectId (VStr id) = Returned (Some o)
        /\ db = Some c /\ List.find (has_id o) c = Some d
        /\ has_id o d' = true
        /\ updateEvent now id req db
           = ({| status := 200;
                 body := Message "Event updated successfully" d' |},
              Some (replace_first o d' c))).
Proof.
  destruct (toObjectId_total (VStr id)) as [[o|] E].
  2:{ rewrite updateEvent_invalid by exact E. left. split; [reflexivity|]. auto. }
  destruct (updateEvent_fields now req) as [fs|e] eqn:F.
  2:{ rewrite (updateEvent_rejected _ _ _ _ _ _ E F). left.
      split; [reflexivity|]. left. apply status_APIError_400.
      eapply updateEvent_fields_Threw, F. }
  destruct db as [c|].
  2:{ rewrite (updateEvent_disconnected _ _ _ _ _ E F). left.
      split; [reflexivity|]. auto. }
  destruct (plain_names fs) eqn:P.
  - rewrite (updateEvent_run _ _ _ _ _ _ E F P).
    destruct (List.find (has_id o) c) as [d|] eqn:Fd.
    2:{ left. split; [reflexivity|]. auto. }
    pose proof (updateEvent_fields_id _ _ _ F) as Fi.
    destruct (fields req !! "_id") as [s|] eqn:B.
    + left. assert (get fs "_id" = VStr s) as -> by (unfold get; now rewrite Fi).
      apply find_has_id in Fd. unfold has_id in Fd.
      destruct (get d "_id"); try discriminate.
      cbn [is_defined same_id negb andb].
      split; [reflexivity|]. do 3 right. reflexivity.
    + right.
      assert (get fs "_id" = VUndef) as -> by (unfold get; now rewrite Fi).
      cbn [is_defined andb]. exists o, c, d, (set_fields fs d).
      rewrite (update_first_replace o fs c d Fd).
      repeat split; auto.
      pose proof (find_has_id _ _ _ Fd) as K. unfold has_id in *.
      now rewrite (set_fields_keeps_id fs d Fi).
  - rewrite (updateEvent_run_paths _ _ _ _ _ _ E F P).
    destruct (update_refused fs) as [e|].
    { left. split; [reflexivity|]. cbn [fst].
      destruct (status_driver_error e); auto. }
    destruct (List.find (has_id o) c) as [d|] eqn:Fd.
    2:{ left. split; [reflexivity|]. auto. }
    destruct (set_paths fs d) as [d'|e].
    2:{ left. split; [reflexivity|]. cbn [fst].
        destruct (status_driver_error e); auto. }
    destruct (has_id o d') eqn:K.
    + right. exists o, c, d, d'. auto.
    + left. split; [reflexivity|]. do 3 right. reflexivity.
Qed.

Lemma deleteEvent_outcome `{Platform} (id : jstring) (db : database) :
  (snd (deleteEvent id db) = db
   /\ (status (fst (deleteEvent id db)) = 400
       \/ fst (deleteEvent id db) = not_initialized
       \/ fst (deleteEvent id db)
          = {| status := 404; body := Failure "Event not found" |}))
  \/ (exists (o : ObjectId) (c : collection),
        toObjectId (VStr id) = Returned (Some o)
        /\ db = Some c /\ existsb (has_id o) c = true
        /\ deleteEvent id db
           = ({| status := 200;
                 body := Message "Event deleted successfully"
                           {["deletedId" := VStr id]} |},
              Some (delete_first o c))).
Proof.
  destruct (toObjectId_total (VStr id)) as [[o|] E].
  2:{ rewrite deleteEvent_invalid by exact E. left. split; [reflexivity|]. auto. }
  destruct db as [c|].
  2:{ rewrite (deleteEvent_disconnected _ _ E). left. split; [reflexivity|]. auto. }
  rewrite (deleteEvent_run _ _ _ E).
  destruct (existsb (has_id o) c) eqn:X.
  - right. exists o, c. auto.
  - left. rewrite delete_first_absent by exact X. split; [reflexivity|]. auto.
Qed.

(** ** Reading and writing the store *)

(** Closes a case in which the handler answered [K], against the status
    [S] it is known to have answered. *)
Ltac wrong_status E K S :=
  rewrite E in K; cbn [fst] in K;
  first [lia | rewrite K in S; cbv in S; discriminate S].

(** X1. The two read handlers and the GET /events router leave the
    store exactly as they found it, whatever the request and whatever
    they answer. *)
Theorem reads_never_write `{Platform} (q : query) (db : database) :
  snd (getEventById q db) = db
  /\ snd (getLatestEvents q db) = db
  /\ snd (get_events q db) = db.
Proof.
  assert (snd (getLatestEvents q db) = db) as L.
  { destruct (is_latest (q_type q)) eqn:T.
    - apply getLatestEvents_outcome, T.
    - now rewrite getLatestEvents_wrong_type. }
  split; [apply getEventById_outcome|]. split; [exact L|].
  unfold get_events. destruct (route_events q);
    [apply getEventById_outcome|exact L|reflexivity].
Qed.

(** X2. A write handler changes the store only when it answers with its
    success status: a create that does not answer 201, an update or a
    delete that does not answer 200, leaves the store as it was. *)
Theorem rejections_never_write `{Platform} (created updated now : Z)
    (fresh : ObjectId) (id : jstring) (req : form) (db : database) :
  (status (fst (createEvent created updated fresh req db)) <> 201 ->
   snd (createEvent created updated fresh req db) = db)
  /\ (status (fst (updateEvent now id req db)) <> 200 ->
      snd (updateEvent now id req db) = db)
  /\ (status (fst (deleteEvent id db)) <> 200 ->
      snd (deleteEvent id db) = db).
Proof.
  split; [|split].
  - destruct (createEvent_outcome created updated fresh req db) as [[E _]|[S _]];
      [intros _; exact E|intros N; now destruct N].
  - destruct (updateEvent_outcome now id req db)
      as [[E _]|(o & c & d & d' & _ & _ & _ & _ & E)];
      [intros _; exact E|rewrite E; intros N; now destruct N].
  - destruct (deleteEvent_outcome id db) as [[E _]|(o & c & _ & _ & _ & E)];
      [intros _; exact E|rewrite E; intros N; now destruct N].
Qed.

(** X3. No write handler ever brings two documents with the same
    identifier into the store: if the identifiers are distinct before a
    create, an update or a delete, they are distinct after it. *)
Theorem writes_keep_ids_unique `{Platform} (created updated now : Z)
    (fresh : ObjectId) (id : jstring) (req : form) (db : database) :
  unique_ids db ->
  unique_ids (snd (createEvent created updated fresh req db))
  /\ unique_ids (snd (updateEvent now id req db))
  /\ unique_ids (snd (deleteEvent id db)).
Proof.
  intros U. split; [|split].
  - destruct (createEvent_outcome created updated fresh req db)
      as [[E _]|(_ & c & d & _ & -> & D & E)]; [now rewrite E|].
    rewrite E. cbn [snd unique_ids] in *. unfold ids. rewrite map_app.
    apply distinct_ids_snoc; [exact U|].
    apply Forall_forall. intros v (x & -> & Hx)%list_elem_of_fmap.
    destruct (same_id (get x "_id") (get (with_id fresh d) "_id")) eqn:S;
      [|reflexivity].
    rewrite <- D. symmetry. apply existsb_exists. exists x.
    split; [now apply list_elem_of_In|exact S].
  - destruct (updateEvent_outcome now id req db)
      as [[E _]|(o & c & d & d' & _ & -> & Fd & K & E)]; [now rewrite E|].
    rewrite E. cbn [snd unique_ids] in *.
    now rewrite (ids_replace_first o d' c K).
  - destruct (deleteEvent_outcome id db) as [[E _]|(o & c & _ & -> & _ & E)];
      [now rewrite E|].
    rewrite E. cbn [snd unique_ids] in *. now apply distinct_ids_delete_first.
Qed.

(** X4. A read by a well-formed identifier answers 200 with a stored
    document that carries this identifier, and 404 'Event not found'
    exactly when no stored document carries it. *)
Theorem getEventById_finds_by_id `{Platform} (q : query) (o : ObjectId)
    (c : collection) :
  truthy (q_id q) = true -> toObjectId (q_id q) = Returned (Some o) ->
  (exists d, d ∈ c /\ get d "_id" = VOid o
             /\ getEventById q (Some c)
                = ({| status := 200; body := Data d |}, Some c))
  \/ ((forall d, d ∈ c -> get d "_id" <> VOid o)
      /\ getEventById q (Some c)
         = ({| status := 404; body := Failure "Event not found" |}, Some c)).
Proof.
  intros T E. rewrite (getEventById_run q o c T E).
  destruct (List.find (has_id o) c) as [d|] eqn:F.
  - left. exists d. apply find_some in F as [I K].
    split; [now apply list_elem_of_In|]. split; [|reflexivity].
    unfold has_id in K. destruct (get d "_id"); try discriminate.
    unfold jstring_eqb in K. apply bool_decide_eq_true in K. now subst.
  - right. split; [|reflexivity]. intros d I K.
    apply list_elem_of_In in I.
    pose proof (find_none _ _ F d I) as N. unfold has_id in N. rewrite K in N.
    unfold jstring_eqb in N. now apply bool_decide_eq_false in N.
Qed.

Lemma truthy_text (id : jstring) : id <> [] -> truthy (VStr id) = true.
Proof. destruct id; [now intros []|reflexivity]. Qed.

(** X5. Create, then read: after a create that answered 201 for a body
    without [_id], a read by the text of the generated identifier
    answers 200 with exactly the document the create response showed
    (apart from the [id] member the response adds), and this document is
    the last of the store. *)
Theorem create_then_read `{Platform} (created updated : Z) (fresh : ObjectId)
    (req : form) (db db' : database) (r : response) (t : jstring) :
  createEvent created updated fresh req db = (r, db') -> status r = 201 ->
  fields req !! "_id" = None ->
  t <> [] -> toObjectId (VStr t) = Returned (Some fresh) ->
  exists (c : collection) (d : obj),
    db = Some c /\ db' = Some (c ++ [d])
    /\ d !! "_id" = Some (VOid fresh)
    /\ body r = Message "Event created successfully" (d ∪ {["id" := VOid fresh]})
    /\ getEventById (id_query t) db' = ({| status := 200; body := Data d |}, db').
Proof.
  intros E S B T O.
  destruct (createEvent_outcome created updated fresh req db)
    as [[_ [K|[K|K]]]|(_ & c & d & R & -> & D & E')];
    try (wrong_status E K S).
  rewrite E in E'. injection E' as -> ->.
  assert (d !! "_id" = None) as Hd.
  { apply createEvent_record_Returned in R as (a & path & A & _ & _ & ->).
    rewrite lookup_stamped, lookup_converted by discriminate.
    rewrite (create_attendees_other _ _ "_id" A) by discriminate.
    now rewrite lookup_body_copy, B. }
  assert (with_id fresh d = <["_id" := VOid fresh]> d) as W.
  { unfold with_id, get. now rewrite Hd. }
  assert (get (with_id fresh d) "_id" = VOid fresh) as G.
  { rewrite W. apply get_insert. }
  exists c, (with_id fresh d). rewrite G in *.
  repeat split; try reflexivity.
  - rewrite W. apply lookup_insert_eq.
  - rewrite (getEventById_run (id_query t) fresh _ (truthy_text t T) O).
    rewrite (find_snoc_fresh fresh c (with_id fresh d)); [reflexivity| |].
    + rewrite <- D. apply existsb_has_id.
    + unfold has_id. rewrite G. unfold jstring_eqb. now apply bool_decide_eq_true.
Qed.

(** X6. Update, then read: after an update that answered 200, a read by
    the same identifier answers 200 with exactly the document the update
    response showed. *)
Theorem update_then_read `{Platform} (now : Z) (id : jstring) (req : form)
    (db db' : database) (r : response) :
  updateEvent now id req db = (r, db') -> status r = 200 -> id <> [] ->
  exists d : obj,
    body r = Message "Event updated successfully" d
    /\ getEventById (id_query id) db' = ({| status := 200; body := Data d |}, db').
Proof.
  intros E S T.
  destruct (updateEvent_outcome now id req db)
    as [[_ [K|[K|[K|K]]]]|(o & c & d & d' & O & -> & Fd & K & E')];
    try (wrong_status E K S).
  rewrite E in E'. injection E' as -> ->.
  exists d'. split; [reflexivity|].
  rewrite (getEventById_run (id_query id) o _ (truthy_text id T) O).
  now rewrite (find_replace_first o d' c d Fd K).
Qed.

(** X7. Delete, then read: in a store with distinct identifiers, after a
    delete that answered 200 the identifier is gone: a read by it and a
    second delete both answer 404 'Event not found'. *)
Theorem delete_then_gone `{Platform} (id : jstring) (db db' : database)
    (r : response) :
  unique_ids db -> deleteEvent id db = (r, db') -> status r = 200 ->
  id <> [] ->
  getEventById (id_query id) db'
  = ({| status := 404; body := Failure "Event not found" |}, db')
  /\ deleteEvent id db'
     = ({| status := 404; body := Failure "Event not found" |}, db').
Proof.
  intros U E S T.
  destruct (deleteEvent_outcome id db) as [[_ [K|[K|K]]]|(o & c & O & -> & _ & E')];
    try (wrong_status E K S).
  rewrite E in E'. injection E' as -> ->.
  pose proof (delete_first_gone o c U) as G. split.
  - rewrite (getEventById_run (id_query id) o _ (truthy_text id T) O).
    rewrite find_existsb in G. apply bool_decide_eq_false in G.
    destruct (List.find (has_id o) (delete_first o c)); [|reflexivity].
    destruct G. eauto.
  - rewrite (deleteEvent_run _ _ _ O), G.
    now rewrite (delete_first_absent _ _ G).
Qed.

(** X8. A delete that answers 200 removes exactly one document, one that
    carries the identifier: the store is one document shorter, every
    document with another identifier is kept, in order, and the response
    repeats the identifier text as it was given. *)
Theorem deleteEvent_removes_one `{Platform} (id : jstring) (db db' : database)
    (r : response) :
  deleteEvent id db = (r, db') -> status r = 200 ->
  exists (o : ObjectId) (c c' : collection),
    toObjectId (VStr id) = Returned (Some o)
    /\ db = Some c /\ db' = Some c'
    /\ existsb (has_id o) c = true
    /\ (length c' + 1 = length c)%nat
    /\ others o c' = others o c
    /\ body r = Message "Event deleted successfully" {["deletedId" := VStr id]}.
Proof.
  intros E S.
  destruct (deleteEvent_outcome id db) as [[_ [K|[K|K]]]|(o & c & O & -> & X & E')];
    try (wrong_status E K S).
  rewrite E in E'. injection E' as -> ->.
  exists o, c, (delete_first o c).
  repeat split; try assumption; try reflexivity.
  - now apply length_delete_first.
  - apply others_delete_first.
Qed.

(** X9. An update that answers 200 touches one document only: the store
    keeps its length and the identifiers of all its documents, and every
    document with another identifier is unchanged. *)
Theorem updateEvent_touches_one `{Platform} (now : Z) (id : jstring)
    (req : form) (db db' : database) (r : response) :
  updateEvent now id req db = (r, db') -> status r = 200 ->
  exists (o : ObjectId) (c c' : collection),
    toObjectId (VStr id) = Returned (Some o)
    /\ db = Some c /\ db' = Some c'
    /\ length c' = length c
    /\ ids c' = ids c
    /\ others o c' = others o c.
Proof.
  intros E S.
  destruct (updateEvent_outcome now id req db)
    as [[_ [K|[K|[K|K]]]]|(o & c & d & d' & O & -> & Fd & K & E')];
    try (wrong_status E K S).
  rewrite E in E'. injection E' as -> ->.
  exists o, c, (replace_first o d' c).
  repeat split; try assumption; try reflexivity.
  - apply length_replace_first.
  - now apply ids_replace_first.
  - now apply others_replace_first.
Qed.

(** ** What a create stores *)

Lemma validateEventData_accepted `{Platform} (e : obj) :
  validateEventData e false = Returned tt ->
  (forall f, f ∈ requiredFields -> field_missing e f = false)
  /\ isNaN (parseInt_value (get e "rigor_rank")) = false
  /\ (truthy (get e "schedule") = true ->
      exists t, Date_new (get e "schedule") = Some t)
  /\ (truthy (get e "attendees") = true ->
      Array_isArray (get e "attendees") = true).
Proof.
  rewrite validateEventData_create. unfold validateRequiredFields.
  destruct (filter _ requiredFields) as [|m ms] eqn:Fl;
    [|cbn [length]; destruct (0 <? _) eqn:K; [discriminate|apply Z.ltb_ge in K; lia]].
  change (0 <? Z.of_nat (length [])) with false. rsimpl. intros V.
  assert (forall f, f ∈ requiredFields -> field_missing e f = false) as R.
  { intros f I. destruct (field_missing e f) eqn:M; [|reflexivity].
    assert (f ∈ filter (fun f => field_missing e f = true) requiredFields) as J
      by (apply list_elem_of_filter; auto).
    rewrite Fl in J. now apply elem_of_nil in J. }
  split; [exact R|].
  assert (is_defined (get e "rigor_rank") = true) as D.
  { assert (field_missing e "rigor_rank" = false) as M
      by (apply R; unfold requiredFields;
          repeat first [apply list_elem_of_here | apply list_elem_of_further]).
    unfold field_missing in M. destruct (get e "rigor_rank"); try reflexivity.
    discriminate. }
  revert V. unfold validateEventData. cbn [negb]. rsimpl. rewrite D.
  destruct (isNaN _); rsimpl; [discriminate|].
  destruct (truthy (get e "schedule")).
  - destruct (Date_new _) as [t|]; rsimpl; [|discriminate].
    destruct (truthy (get e "attendees")).
    + destruct (Array_isArray _); cbn [negb]; [|discriminate]. eauto.
    + intros _. split; [reflexivity|]. split; [eauto|discriminate].
  - destruct (truthy (get e "attendees")).
    + destruct (Array_isArray _); cbn [negb]; [|discriminate].
      intros _. split; [reflexivity|]. split; [discriminate|auto].
    + intros _. split; [reflexivity|]. split; discriminate.
Qed.

Lemma get_converted_rigor_rank `{Platform} (a : obj) (path : jstring) :
  get (converted a path) "rigor_rank"
  = if truthy (get a "rigor_rank")
    then VNum (parseInt_value (get a "rigor_rank"))
    else get a "rigor_rank".
Proof.
  unfold converted. lookups. rewrite get_convert. now lookups.
Qed.

Lemma get_converted_schedule `{Platform} (a : obj) (path : jstring) :
  get (converted a path) "schedule"
  = if truthy (get a "schedule") then VDate (Date_new (get a "schedule"))
    else get a "schedule".
Proof.
  unfold converted. lookups. rewrite get_convert. now lookups.
Qed.

Lemma get_lookup (d : obj) (k : string) (v : value) :
  d !! k = Some v -> get d k = v.
Proof. unfold get. now intros ->. Qed.

Lemma lookup_get (d : obj) (k : string) (v : value) :
  get d k = v -> v <> VUndef -> d !! k = Some v.
Proof.
  unfold get. destruct (d !! k); simpl; [now intros ->|].
  intros <- N. now destruct N.
Qed.

(** A number that is truthy and read back as a number by [parseInt] is
    a non-zero integer. *)
Lemma truthy_parsed_integer (n : number) :
  whole n -> number_truthy n = true -> isNaN (parseInt_value (VNum n)) = false ->
  exists z, n = Int z /\ z <> 0.
Proof.
  intros [|b|z] T P.
  - discriminate.
  - destruct b; vm_compute in P; discriminate.
  - exists z. split; [reflexivity|]. cbn [number_truthy] in T.
    apply negb_true_iff in T. lia.
Qed.

Lemma get_after_attendees (req : form) (a : obj) (k : string) :
  create_attendees (body_copy req) = Returned a -> k <> "attendees" ->
  get a k = match fields req !! k with Some s => VStr s | None => VUndef end.
Proof.
  intros A N. unfold get. rewrite (create_attendees_other _ _ _ A N).
  apply get_body_copy.
Qed.

Lemma lookup_after_attendees (req : form) (a : obj) :
  create_attendees (body_copy req) = Returned a ->
  exists v, a !! "attendees" = Some v.
Proof.
  rewrite create_attendees_spec.
  destruct (fields req !! "attendees") as [[|c s]|];
    try (intros [= <-]; rewrite lookup_insert_eq; eauto).
  destruct (JSON_parse (c :: s)); [|discriminate].
  intros [= <-]. rewrite lookup_insert_eq. eauto.
Qed.

(** Membership in a list that is written out. *)
Ltac in_list :=
  repeat first [apply list_elem_of_here | apply list_elem_of_further].

(** A text that passes the required-field test is not blank. *)
Lemma field_present_text (e : obj) (k : string) (s : jstring) :
  field_missing e k = false -> get e k = VStr s -> blank s = false.
Proof.
  unfold field_missing. cbv zeta. intros M G. rewrite G in M.
  cbn [is_string andb] in M.
  apply orb_false_iff in M as [_ M]. now rewrite trim_blank in M.
Qed.

Lemma field_present_truthy (e : obj) (k : string) :
  field_missing e k = false -> truthy (get e k) = true.
Proof.
  unfold field_missing. cbv zeta. intros [M _]%orb_false_iff.
  now apply negb_false_iff.
Qed.

(** X10. What a create that answers 201 has stored: one new document, at
    the end of the store, with type 'event', the path of the uploaded
    file as image, the two time stamps, a non-zero integer rigor_rank
    (the integer read from the body text), a valid moment as schedule, a
    truthy number as uid, an attendees member that is an array whenever
    it is truthy, and each of the six descriptive fields as the
    non-blank text the body gave. *)
Theorem createEvent_stored_record `{Platform} (created updated : Z)
    (fresh : ObjectId) (req : form) (db db' : database) (r : response) :
  createEvent created updated fresh req db = (r, db') -> status r = 201 ->
  exists (c : collection) (d : obj) (path : jstring),
    db = Some c /\ db' = Some (c ++ [d]) /\ file req = Some path
    /\ d !! "type" = Some (VStr (js "event"))
    /\ d !! "image" = Some (VStr path)
    /\ d !! "created_at" = Some (VDate (Some created))
    /\ d !! "updated_at" = Some (VDate (Some updated))
    /\ (exists (s : jstring) (z : Z),
          fields req !! "rigor_rank" = Some s /\ parseInt s = Int z /\ z <> 0
          /\ d !! "rigor_rank" = Some (VNum (Int z)))
    /\ (exists (s : jstring) (t : Z),
          fields req !! "schedule" = Some s /\ Date_parse (VStr s) = Some t
          /\ d !! "schedule" = Some (VDate (Some t)))
    /\ (exists n : number, number_truthy n = true /\ d !! "uid" = Some (VNum n))
    /\ (exists v : value,
          d !! "attendees" = Some v
          /\ (truthy v = true -> Array_isArray v = true))
    /\ (forall k : string, k ∈ text_fields ->
          exists s : jstring,
            fields req !! k = Some s /\ blank s = false
            /\ d !! k = Some (VStr s)).
Proof.
  intros E S.
  destruct (createEvent_created _ _ _ _ _ _ _ E S) as (c & d0 & -> & R & ->).
  apply createEvent_record_Returned in R as (a & path & A & F & V & ->).
  apply validateEventData_accepted in V as (Rq & Rk & Sc & At).
  exists c, (with_id fresh (stamped created updated (converted a path))), path.
  do 3 (split; [reflexivity || assumption|]).
  rewrite !lookup_with_id by discriminate.
  split; [unfold stamped; cbv zeta; now lookups|].
  split; [rewrite lookup_stamped by discriminate; unfold converted; now lookups|].
  split; [unfold stamped; cbv zeta; now lookups|].
  split; [unfold stamped; cbv zeta; now lookups|].
  split; [|split; [|split; [|split]]].
  - assert (field_missing (converted a path) "rigor_rank" = false) as M
      by (apply Rq; unfold requiredFields; in_list).
    pose proof (field_present_truthy _ _ M) as T.
    rewrite get_converted_rigor_rank in Rk, T.
    rewrite (get_after_attendees req a "rigor_rank" A) in Rk, T by discriminate.
    destruct (fields req !! "rigor_rank") as [[|c0 s]|] eqn:B; try discriminate.
    cbn [truthy parseInt_value] in Rk, T.
    destruct (truthy_parsed_integer _ (parseInt_whole (c0 :: s)) T Rk)
      as (z & Ez & Nz).
    exists (c0 :: s), z. do 3 (split; [reflexivity || assumption|]).
    rewrite lookup_stamped by discriminate.
    apply lookup_get; [|discriminate].
    rewrite get_converted_rigor_rank.
    rewrite (get_after_attendees req a "rigor_rank" A), B by discriminate.
    cbn [truthy parseInt_value]. now rewrite Ez.
  - assert (field_missing (converted a path) "schedule" = false) as M
      by (apply Rq; unfold requiredFields; in_list).
    pose proof (field_present_truthy _ _ M) as T.
    destruct (Sc T) as [t Et]. clear Sc.
    rewrite get_converted_schedule in Et, T.
    rewrite (get_after_attendees req a "schedule" A) in Et, T by discriminate.
    destruct (fields req !! "schedule") as [[|c0 s]|] eqn:B; try discriminate.
    cbn [truthy Date_new] in Et.
    exists (c0 :: s), t. split; [reflexivity|]. split; [exact Et|].
    rewrite lookup_stamped by discriminate.
    apply lookup_get; [|discriminate].
    rewrite get_converted_schedule.
    rewrite (get_after_attendees req a "schedule" A), B by discriminate.
    cbn [truthy Date_new]. now rewrite Et.
  - rewrite lookup_stamped_uid, get_converted_uid.
    rewrite (get_after_attendees req a "uid" A) by discriminate.
    destruct (fields req !! "uid") as [[|c0 s]|]; cbn [truthy];
      try (exists (Int 18); split; reflexivity).
    destruct (number_truthy (parseInt_value (VStr (c0 :: s)))) eqn:T; eauto.
    exists (Int 18). split; reflexivity.
  - destruct (lookup_after_attendees req a A) as [v Ev].
    exists v. rewrite lookup_stamped, lookup_converted by discriminate.
    split; [exact Ev|].
    assert (get (converted a path) "attendees" = v) as G.
    { apply get_lookup. now rewrite lookup_converted by discriminate. }
    now rewrite G in At.
  - intros k I.
    assert (k ∈ requiredFields
            /\ k <> "_id" /\ k <> "type" /\ k <> "uid" /\ k <> "created_at"
            /\ k <> "updated_at" /\ k <> "image" /\ k <> "schedule"
            /\ k <> "rigor_rank" /\ k <> "attendees") as N.
    { unfold text_fields in I. unfold requiredFields.
      repeat (apply elem_of_cons in I as [->|I];
              [split; [in_list|repeat split; discriminate]|]).
      now apply elem_of_nil in I. }
    destruct N as (J & N1 & N2 & N3 & N4 & N5 & N6 & N7 & N8 & N9).
    pose proof (Rq k J) as M.
    assert (get (converted a path) k
            = match fields req !! k with Some s => VStr s | None => VUndef end)
      as G.
    { unfold get at 1. rewrite lookup_converted by assumption.
      now apply get_after_attendees. }
    pose proof (field_present_truthy _ _ M) as T. rewrite G in T.
    destruct (fields req !! k) as [s|] eqn:B; [|discriminate].
    exists s. split; [reflexivity|]. split; [exact (field_present_text _ _ _ M G)|].
    rewrite lookup_with_id, lookup_stamped, lookup_converted by assumption.
    rewrite (create_attendees_other _ _ _ A) by assumption.
    now rewrite lookup_body_copy, B.
Qed.

(** ** Requests that are turned away *)

(** X11. A create request without an uploaded file is answered 400
    before any field is validated and before the store is touched:
    with 'Invalid attendees format. Must be a JSON array' when its
    attendees text cannot be decoded, and with 'Event image is required'
    otherwise, whatever the other fields hold and whether or not the
    store is connected. *)
Theorem createEvent_without_file `{Platform} (created updated : Z)
    (fresh : ObjectId) (req : form) (db : database) :
  file req = None ->
  createEvent created updated fresh req db
  = ({| status := 400;
        body := Failure (if attendees_decodable req
                         then "Event image is required"
                         else "Invalid attendees format. Must be a JSON array") |},
     db).
Proof.
  intros F.
  assert (createEvent_record created updated req
          = Threw (APIError (if attendees_decodable req
                             then "Event image is required"
                             else "Invalid attendees format. Must be a JSON array")
                            400)) as R.
  { rewrite createEvent_record_spec, create_attendees_spec, F.
    unfold attendees_decodable.
    destruct (fields req !! "attendees") as [[|c s]|]; rsimpl; try reflexivity.
    destruct (JSON_parse (c :: s)) as [v|] eqn:J; rsimpl.
    - rewrite bool_decide_eq_true_2 by eauto. reflexivity.
    - rewrite bool_decide_eq_false_2 by (intros [? ?]; discriminate). reflexivity. }
  rewrite (createEvent_rejected _ _ _ _ _ _ R).
  now destruct (attendees_decodable req).
Qed.

(** X12. An update request with no field and no file is answered 400
    'No update data provided' when its identifier is well-formed, and
    400 'Invalid event ID format' when it is not; the store is not
    touched. *)
Theorem updateEvent_without_data `{Platform} (now : Z) (id : jstring)
    (req : form) (db : database) :
  fields req = ∅ -> file req = None ->
  updateEvent now id req db
  = ({| status := 400;
        body := Failure (match toObjectId (VStr id) with
                         | Returned (Some _) => "No update data provided"
                         | _ => "Invalid event ID format"
                         end) |},
     db).
Proof.
  intros B F.
  destruct (toObjectId_total (VStr id)) as [[o|] E]; rewrite E.
  - assert (updateEvent_fields now req
            = Threw (APIError "No update data provided" 400)) as R.
    { rewrite updateEvent_fields_spec. unfold body_copy. rewrite B, F.
      rewrite fmap_empty, map_size_empty. reflexivity. }
    now rewrite (updateEvent_rejected _ _ _ _ _ _ E R).
  - now apply updateEvent_invalid.
Qed.

(** X13. A well-formed identifier that no stored document carries: a
    delete, and an update with plain field names whose fields were
    built, both answer 404 'Event not found' and leave the store as it
    was.  (With a field name that is not plain the store may refuse the
    update before it looks for the document.) *)
Theorem absent_identifier_404 `{Platform} (now : Z) (id : jstring) (req : form)
    (o : ObjectId) (c : collection) :
  toObjectId (VStr id) = Returned (Some o) ->
  existsb (has_id o) c = false ->
  deleteEvent id (Some c)
  = ({| status := 404; body := Failure "Event not found" |}, Some c)
  /\ (forall fs : obj,
        updateEvent_fields now req = Returned fs ->
        plain_names (fields req) = true ->
        updateEvent now id req (Some c)
        = ({| status := 404; body := Failure "Event not found" |}, Some c)).
Proof.
  intros E X. split.
  - rewrite (deleteEvent_run _ _ _ E), X. now rewrite delete_first_absent.
  - intros fs F P.
    rewrite (updateEvent_run _ _ _ _ _ _ E F
               (updateEvent_fields_plain now req fs F P)).
    rewrite find_existsb in X. apply bool_decide_eq_false in X.
    destruct (List.find (has_id o) c); [|reflexivity]. destruct X. eauto.
Qed.

(** X14. In update mode the Validator demands no field: a record
    without rigor_rank, schedule and attendees is accepted, whatever
    else it holds, although create mode rejects the same record. *)
Theorem validateEventData_update_partial `{Platform} (e : obj) :
  e !! "rigor_rank" = None -> e !! "schedule" = None ->
  e !! "attendees" = None ->
  validateEventData e true = Returned tt
  /\ exists message, validateEventData e false = Threw (APIError message 400).
Proof.
  intros R S A.
  assert (validateEventData e true = Returned tt) as U.
  { unfold validateEventData, get. rewrite R, S, A. reflexivity. }
  split; [exact U|].
  rewrite validateEventData_create, validateRequiredFields_spec.
  destruct (filter _ requiredFields) as [|m ms] eqn:Fl; rsimpl; [|eauto].
  assert ("schedule" ∈ filter (fun f => falsy_or_blank e f = true) requiredFields)
    as J.
  { apply list_elem_of_filter. split.
    - unfold falsy_or_blank. now rewrite S.
    - unfold requiredFields. in_list. }
  rewrite Fl in J. now apply elem_of_nil in J.
Qed.

(** ** Pages *)

Lemma of_decimal_integer (z : Z) : of_decimal z 0 = of_integer z.
Proof.
  unfold of_decimal. destruct (Z.eqb_spec z 0) as [->|]; [reflexivity|].
  change (0 <=? 0) with true. cbv iota. now rewrite Z.pow_0_r, Z.mul_1_r.
Qed.

Lemma number_sub_Int (a b : Z) :
  number_sub (Int a) (Int b) = of_integer (a - b).
Proof.
  unfold number_sub. rewrite align_Int. change (Z.min 0 0) with 0.
  apply of_decimal_integer.
Qed.

Lemma number_mul_Int (a b : Z) :
  number_mul (Int a) (Int b) = of_integer (a * b).
Proof.
  unfold number_mul. change (0 + 0) with 0. apply of_decimal_integer.
Qed.

Lemma half_even_nonneg (num den : Z) :
  0 <= num -> 0 <= den -> 0 <= half_even num den.
Proof.
  intros Hn Hd. unfold half_even.
  pose proof (Z_div_nonneg_nonneg num den Hn Hd) as Q.
  destruct (2 * (num mod den) <? den); [exact Q|].
  destruct (den <? 2 * (num mod den)); [lia|].
  destruct (Z.even (num / den)); lia.
Qed.

(** Rounding keeps the sign. *)
Lemma of_integer_nonneg (z : Z) :
  0 <= z -> at_least 0 (of_integer z).
Proof.
  intros Hz. unfold of_integer, at_least.
  destruct (overflow_bound <=? Z.abs z).
  - left. now rewrite (proj2 (Z.ltb_ge z 0)) by exact Hz.
  - right. eexists. split; [reflexivity|]. unfold round_integer.
    destruct (Z.abs z <=? 2 ^ 53); [exact Hz|].
    apply Z.mul_nonneg_nonneg; [lia|].
    apply Z.mul_nonneg_nonneg; [|apply Z.pow_nonneg; lia].
    apply half_even_nonneg; [lia|apply Z.pow_nonneg; lia].
Qed.

Lemma window_take_drop {A : Type} (l : list A) (s k : Z) :
  0 <= s ->
  (if Z.of_nat (length l) <=? s then []
   else take (Z.to_nat k) (drop (Z.to_nat s) l))
  = take (Z.to_nat k) (drop (Z.to_nat s) l).
Proof.
  intros Hs. destruct (Z.of_nat (length l) <=? s) eqn:K; [|reflexivity].
  apply Z.leb_le in K. rewrite drop_ge by lia. now rewrite take_nil.
Qed.

(** X15. Whatever the resolver returns is in range, and its offset is
    the product (page - 1) * limit as the arithmetic of doubles gives
    it: the limit is an integer of [1, 100]; the offset is a whole number
    from 0 on or plus infinity, never negative and never not-a-number;
    the page is an integer from 1 on, and then the offset is exactly
    (page - 1) * limit as long as that product is at most 2^53 (above, it
    is that product of doubles, rounded), or the page is plus infinity,
    and so is the offset. *)
Theorem validatePagination_offset (l p : value) (r : page_request) :
  validatePagination l p = Returned r ->
  exists L : Z,
    limit r = Int L /\ 1 <= L <= 100
    /\ at_least 0 (skip r)
    /\ ((exists n : Z, page r = Int n /\ 1 <= n
                       /\ skip r = number_mul (of_integer (n - 1)) (Int L)
                       /\ ((n - 1) * L <= 2 ^ 53 ->
                           skip r = Int ((n - 1) * L)))
        \/ (page r = Infinity false /\ skip r = Infinity false)).
Proof.
  intros V. apply validatePagination_Returned in V
    as ((L & EL & HL) & [EI|(n & EN & Hn)] & _ & _ & SK).
  - assert (skip r = Infinity false) as SI.
    { rewrite SK, EI, EL. unfold number_sub, number_mul.
      cbn [number_truthy number_negative andb].
      rewrite (proj2 (Z.eqb_neq L 0)), (proj2 (Z.ltb_ge L 0)) by lia.
      reflexivity. }
    exists L. split; [exact EL|]. split; [exact HL|].
    split; [rewrite SI; now left|]. right. auto.
  - rewrite EN, EL, number_sub_Int in SK.
    exists L. split; [exact EL|]. split; [exact HL|]. split.
    + rewrite SK.
      destruct (of_integer_nonneg (n - 1) ltac:(lia)) as [E|(z & E & Hz)];
        rewrite E.
      * left. unfold number_mul. cbn [number_truthy number_negative andb].
        rewrite (proj2 (Z.eqb_neq L 0)), (proj2 (Z.ltb_ge L 0)) by lia.
        reflexivity.
      * rewrite number_mul_Int. apply of_integer_nonneg. nia.
    + left. exists n. split; [exact EN|]. split; [exact Hn|].
      split; [exact SK|]. intros B.
      rewrite SK, of_integer_exact by nia.
      rewrite number_mul_Int. apply of_integer_exact. nia.
Qed.

Lemma getLatestEvents_run `{Platform} (q : query) (c : collection)
    (pr : page_request) (s k : Z) :
  is_latest (q_type q) = true ->
  validatePagination (q_limit q) (q_page q) = Returned pr ->
  as_count (skip pr) = Some s -> as_count (limit pr) = Some k ->
  getLatestEvents q (Some c)
  = ({| status := 200;
        body := Page
          (if Z.of_nat (length (sort_schedule_descending c)) <=? s then []
           else take (Z.to_nat k) (drop (Z.to_nat s) (sort_schedule_descending c)))
          {| currentPage := page pr;
             totalPages := number_ceil_div (Int (Z.of_nat (length c))) (limit pr);
             totalEvents := Int (Z.of_nat (length c));
             eventsPerPage := limit pr;
             hasNextPage :=
               number_lt (page pr)
                 (number_ceil_div (Int (Z.of_nat (length c))) (limit pr));
             hasPrevPage := number_gt (page pr) (Int 1) |} |},
     Some c).
Proof.
  intros T V S K. unfold getLatestEvents, handle. rewrite T. cbn [negb].
  rewrite run_bind, run_lift, V. cbv beta iota.
  rewrite run_bind, run_getCollection, run_bind, run_countDocuments, run_bind.
  unfold find_page. rewrite run_on_collection, S, K. reflexivity.
Qed.

(** X16. An accepted list request whose offset (page - 1) * limit is at
    most 2^53 is answered 200 on a connected store, and its events are
    the window of the sorted collection that starts after that many
    documents and holds at most limit of them; in particular a page
    beyond the end is answered 200 with no events. *)
Theorem getLatestEvents_page_slice `{Platform} (q : query) (c : collection)
    (L n : Z) :
  is_latest (q_type q) = true ->
  resolved_limit (q_limit q) = Int L -> 1 <= L <= 100 ->
  resolved_page (q_page q) = Int n -> 1 <= n ->
  (n - 1) * L <= 2 ^ 53 ->
  exists (events : list obj) (pg : pagination),
    getLatestEvents q (Some c)
    = ({| status := 200; body := Page events pg |}, Some c)
    /\ events = take (Z.to_nat L)
                  (drop (Z.to_nat ((n - 1) * L)) (sort_schedule_descending c))
    /\ (length events <= Z.to_nat L)%nat
    /\ (Z.of_nat (length (sort_schedule_descending c)) <= (n - 1) * L ->
        events = []).
Proof.
  intros T EL HL EN Hn B.
  destruct (validatePagination_rejection_cases (q_limit q) (q_page q))
    as (_ & _ & _ & Acc).
  destruct (Acc L EL HL) as (pr & V & RL).
  { rewrite EN. right. eauto. }
  destruct (validatePagination_Returned _ _ _ V) as (_ & _ & _ & RP & SK).
  rewrite RP, EN, RL, number_sub_Int, of_integer_exact, number_mul_Int,
    of_integer_exact in SK by nia.
  assert (2 ^ 53 < 2 ^ 63) as P by (vm_compute; reflexivity).
  rewrite (getLatestEvents_run q c pr ((n - 1) * L) L T V).
  2:{ rewrite SK. apply as_count_Int. nia. }
  2:{ rewrite RL. apply as_count_Int. lia. }
  rewrite window_take_drop by nia.
  do 2 eexists. split; [reflexivity|]. split; [reflexivity|]. split.
  - rewrite length_take. lia.
  - intros K. rewrite drop_ge by lia. apply take_nil.
Qed.

(** ** The router, the responder and the connection handle *)

(** X17. Behind the router the first guard of each read handler is
    never the one that answers: a GET /events request is never answered
    'Event ID is required' nor 'Invalid type parameter. Use
    type=latest', although each handler answers so when it is given such
    a request directly. *)
Theorem get_events_shadows_guards `{Platform} (q : query) (db : database) :
  body (fst (get_events q db)) <> Failure "Event ID is required"
  /\ body (fst (get_events q db))
     <> Failure "Invalid type parameter. Use type=latest"
  /\ (truthy (q_id q) = false ->
      body (fst (getEventById q db)) = Failure "Event ID is required")
  /\ (is_latest (q_type q) = false ->
      body (fst (getLatestEvents q db))
      = Failure "Invalid type parameter. Use type=latest").
Proof.
  assert (forall m : string,
            m = "Event ID is required"
            \/ m = "Invalid type parameter. Use type=latest" ->
            body (fst (get_events q db)) <> Failure m) as N.
  { intros m Hm. unfold get_events, route_events.
    destruct (truthy (q_id q)) eqn:T.
    - destruct (toObjectId_total (q_id q)) as [[o|] E].
      + destruct db as [c|].
        * rewrite (getEventById_run q o c T E).
          destruct (List.find (has_id o) c); cbn [fst body];
            destruct Hm as [-> | ->]; discriminate.
        * rewrite (getEventById_disconnected q o T E).
          destruct Hm as [-> | ->]; discriminate.
      + rewrite (getEventById_invalid q db T E).
        destruct Hm as [-> | ->]; discriminate.
    - destruct (is_latest (q_type q)) eqn:L.
      + destruct (getLatestEvents_outcome q db L)
          as (_ & [K|[K|[K|[K|(_ & ev & pg & K)]]]]); rewrite K;
          destruct Hm as [-> | ->]; discriminate.
      + destruct Hm as [-> | ->]; discriminate. }
  split; [apply N; auto|]. split; [apply N; auto|]. split.
  - intros T. now rewrite getEventById_missing.
  - intros T. now rewrite getLatestEvents_wrong_type.
Qed.

(** X18. How the central responder classifies an error.  The body always
    carries a non-empty text.  The name 'ValidationError' gives 400
    whatever else the error carries; the name 'MongoError' gives 500 and
    hides the message behind 'Database error occurred'; otherwise either
    upload code gives 400 with its fixed text; and any other error keeps
    its message (or 'Internal server error' without one) and its own
    status code, 500 when it has none or a zero one. *)
Theorem errorHandler_classification (err : error) :
  (exists m : string, body (errorHandler err) = Failure m /\ m <> "")
  /\ (name_is err "ValidationError" = true -> status (errorHandler err) = 400)
  /\ (name_is err "MongoError" = true ->
      errorHandler err
      = {| status := 500; body := Failure "Database error occurred" |})
  /\ (name_is err "ValidationError" = false ->
      name_is err "MongoError" = false ->
      (code_is err "LIMIT_FILE_SIZE" = true ->
       errorHandler err
       = {| status := 400;
            body := Failure "File size too large. Maximum size is 5MB" |})
      /\ (code_is err "LIMIT_UNEXPECTED_FILE" = true ->
          errorHandler err
          = {| status := 400;
               body := Failure "Too many files or unexpected field name" |})
      /\ (code_is err "LIMIT_FILE_SIZE" = false ->
          code_is err "LIMIT_UNEXPECTED_FILE" = false ->
          errorHandler err
          = {| status := match err_statusCode err with
                         | Some c => if c =? 0 then 500 else c
                         | None => 500
                         end;
               body := Failure (string_or (err_message err)
                                  "Internal server error") |})).
Proof.
  assert (forall a b : string, b <> "" -> string_or a b <> "") as SO.
  { intros [|x a] b Hb; [exact Hb|discriminate]. }
  split; [|split; [|split]].
  - unfold errorHandler.
    destruct (code_is err "LIMIT_FILE_SIZE"), (code_is err "LIMIT_UNEXPECTED_FILE"),
      (name_is err "MongoError"), (name_is err "ValidationError");
      cbv beta iota zeta; eexists; (split; [reflexivity|]);
      repeat apply SO; discriminate.
  - intros V. unfold errorHandler. rewrite V.
    destruct (code_is err "LIMIT_FILE_SIZE"), (code_is err "LIMIT_UNEXPECTED_FILE"),
      (name_is err "MongoError"); reflexivity.
  - intros M.
    assert (name_is err "ValidationError" = false) as V.
    { unfold name_is in *. apply bool_decide_eq_true in M.
      apply bool_decide_eq_false. rewrite M. discriminate. }
    unfold errorHandler. rewrite M, V.
    destruct (code_is err "LIMIT_FILE_SIZE"), (code_is err "LIMIT_UNEXPECTED_FILE");
      reflexivity.
  - intros V M. split; [|split].
    + intros C.
      assert (code_is err "LIMIT_UNEXPECTED_FILE" = false) as C'.
      { unfold code_is in *. apply bool_decide_eq_true in C.
        apply bool_decide_eq_false. rewrite C. discriminate. }
      unfold errorHandler. now rewrite V, M, C, C'.
    + intros C. unfold errorHandler. rewrite V, M, C.
      now destruct (code_is err "LIMIT_FILE_SIZE").
    + intros C C'. unfold errorHandler. now rewrite V, M, C, C'.
Qed.

(** An unmatched route is answered 404, and the text the responder
    sends is 'Route not found - ' followed by the requested URL,
    whatever the URL is. *)
Lemma notFound_answers_404 (originalUrl : string) :
  notFound originalUrl
  = {| status := 404;
       body := Failure ("Route not found - " +:+ originalUrl) |}.
Proof. reflexivity. Qed.

(** X19. The [status] of an [APIError] follows the class of its
    three-digit status code: 'fail' for the codes 400 to 499 and 'error'
    for every other code from 100 to 999. *)
Theorem APIError_status_class (c : Z) :
  100 <= c <= 999 ->
  APIError_status c = if (400 <=? c) && (c <=? 499) then "fail" else "error".
Proof.
  intros Hc.
  assert (forallb (fun k : nat =>
            String.eqb (APIError_status (100 + Z.of_nat k))
              (if (400 <=? 100 + Z.of_nat k) && (100 + Z.of_nat k <=? 499)
               then "fail" else "error"))
            (seq 0 900) = true) as A by (vm_compute; reflexivity).
  rewrite forallb_forall in A.
  specialize (A (Z.to_nat (c - 100))).
  replace (100 + Z.of_nat (Z.to_nat (c - 100))) with c in A by lia.
  apply String.eqb_eq, A, in_seq. lia.
Qed.

(** X20. While the connection handle is unset no handler gets past its
    first store access: each one answers either 400, for a request its
    input checks refuse, or 500 'Database not initialized. Call
    connectDB first.', and the handle stays unset. *)
Theorem unset_handle `{Platform} (created updated now : Z) (fresh : ObjectId)
    (id : jstring) (req : form) (q : query) :
  refused_unset (get_events q None)
  /\ refused_unset (getEventById q None)
  /\ refused_unset (getLatestEvents q None)
  /\ refused_unset (createEvent created updated fresh req None)
  /\ refused_unset (updateEvent now id req None)
  /\ refused_unset (deleteEvent id None).
Proof.
  unfold refused_unset.
  assert ((status (fst (getEventById q None)) = 400
           \/ fst (getEventById q None) = not_initialized)
          /\ snd (getEventById q None) = None) as G.
  { destruct (truthy (q_id q)) eqn:T.
    - destruct (toObjectId_total (q_id q)) as [[o|] E].
      + rewrite (getEventById_disconnected q o T E). auto.
      + rewrite (getEventById_invalid q None T E). auto.
    - rewrite (getEventById_missing q None T). auto. }
  assert ((status (fst (getLatestEvents q None)) = 400
           \/ fst (getLatestEvents q None) = not_initialized)
          /\ snd (getLatestEvents q None) = None) as L.
  { destruct (is_latest (q_type q)) eqn:T.
    - destruct (validatePagination (q_limit q) (q_page q)) as [pr|e] eqn:V.
      + rewrite (getLatestEvents_disconnected q pr T V). auto.
      + rewrite (getLatestEvents_rejected q None e T V).
        apply validatePagination_Threw in V as [m ->]. auto.
    - rewrite (getLatestEvents_wrong_type q None T). auto. }
  split; [|split; [exact G|split; [exact L|split; [|split]]]].
  - unfold get_events. destruct (route_events q); [exact G|exact L|auto].
  - destruct (createEvent_record created updated req) as [d|e] eqn:R.
    + rewrite (createEvent_disconnected _ _ _ _ _ R). auto.
    + rewrite (createEvent_rejected _ _ _ _ _ _ R).
      apply createEvent_record_Threw in R as [m ->]. auto.
  - destruct (toObjectId_total (VStr id)) as [[o|] O].
    + destruct (updateEvent_fields now req) as [fs|e] eqn:F.
      * rewrite (updateEvent_disconnected _ _ _ _ _ O F). auto.
      * rewrite (updateEvent_rejected _ _ _ _ _ _ O F).
        apply updateEvent_fields_Threw in F as [m ->]. auto.
    + rewrite (updateEvent_invalid _ _ _ _ O). auto.
  - destruct (toObjectId_total (VStr id)) as [[o|] O].
    + rewrite (deleteEvent_disconnected _ _ O). auto.
    + rewrite (deleteEvent_invalid _ _ O). auto.
Qed.

(** ** What an update writes *)

Lemma updateEvent_fields_image `{Platform} (now : Z) (req : form) (fs : obj)
    (path : jstring) :
  updateEvent_fields now req = Returned fs -> file req = Some path ->
  fs !! "image" = Some (VStr path).
Proof.
  intros F I. apply updateEvent_fields_Returned in F as (u & A & ->).
  unfold update_converted. rewrite lookup_insert_ne by discriminate.
  rewrite !lookup_convert_ne by discriminate.
  rewrite (update_attendees_other _ _ _ A) by discriminate.
  unfold with_file. rewrite I. apply lookup_insert_eq.
Qed.

(** X21. An update with plain field names that answers 200 is partial:
    every field the body does not name keeps its stored value, apart
    from updated_at, which becomes the time of the update, and image,
    which becomes the path of the uploaded file when there is one (even
    if the body names an image of its own).  (A name with a dot is a
    path, and can change a field that the body does not name.) *)
Theorem updateEvent_is_partial `{Platform} (now : Z) (id : jstring)
    (req : form) (db db' : database) (r : response) :
  updateEvent now id req db = (r, db') -> status r = 200 ->
  plain_names (fields req) = true ->
  exists (o : ObjectId) (c c' : collection) (d d' : obj),
    toObjectId (VStr id) = Returned (Some o)
    /\ db = Some c /\ db' = Some c'
    /\ List.find (has_id o) c = Some d
    /\ List.find (has_id o) c' = Some d'
    /\ body r = Message "Event updated successfully" d'
    /\ d' !! "updated_at" = Some (VDate (Some now))
    /\ (forall path, file req = Some path -> d' !! "image" = Some (VStr path))
    /\ (forall k, fields req !! k = None -> k <> "updated_at" ->
                  (k = "image" -> file req = None) ->
                  d' !! k = d !! k).
Proof.
  intros E S P.
  destruct (updateEvent_updated _ _ _ _ _ _ E S P)
    as (o & c & fs & d & T & F & -> & Fd & _ & B & -> & Fd').
  destruct (lookup_updateEvent_fields _ _ _ F) as (U & _ & _).
  exists o, c, (update_first o fs c), d, (set_fields fs d).
  repeat split; auto.
  - now apply lookup_set_fields_Some.
  - intros path I. apply lookup_set_fields_Some.
    now apply (updateEvent_fields_image now req).
  - intros k Bk N I. apply lookup_set_fields_None.
    now apply (updateEvent_fields_absent now req).
Qed.

(** ** Status codes *)

(** X22. The status codes each route can answer with: POST /events only
    201, 400 and 500 (never 404); PUT and DELETE /events/:id only 200,
    400, 404 and 500; GET /events only 200, 400, 404 and 500. *)
Theorem handler_status_codes `{Platform} (created updated now : Z)
    (fresh : ObjectId) (id : jstring) (req : form) (q : query)
    (db : database) :
  status (fst (createEvent created updated fresh req db)) ∈ [201; 400; 500]
  /\ status (fst (updateEvent now id req db)) ∈ [200; 400; 404; 500]
  /\ status (fst (deleteEvent id db)) ∈ [200; 400; 404; 500]
  /\ status (fst (get_events q db)) ∈ [200; 400; 404; 500].
Proof.
  split; [|split; [|split]].
  - destruct (createEvent_outcome created updated fresh req db)
      as [[_ [K|[K|K]]]|(K & _)]; rewrite K; cbn [status not_initialized]; in_list.
  - destruct (updateEvent_outcome now id req db)
      as [[_ [K|[K|[K|K]]]]|(o & c & d & d' & _ & _ & _ & _ & K)];
      rewrite K; cbn [fst status not_initialized]; in_list.
  - destruct (deleteEvent_outcome id db)
      as [[_ [K|[K|K]]]|(o & c & _ & _ & _ & K)];
      rewrite K; cbn [fst status not_initialized]; in_list.
  - assert (status (fst (getEventById q db)) ∈ [200; 400; 404; 500]) as G.
    { destruct (getEventById_outcome q db) as (_ & [K|[K|[K|K]]]);
        rewrite K; cbn [status not_initialized]; in_list. }
    unfold get_events. destruct (route_events q) eqn:R; [exact G| |cbn; in_list].
    assert (is_latest (q_type q) = true) as L.
    { unfold route_events in R. destruct (truthy (q_id q)); [discriminate|].
      now destruct (is_latest (q_type q)). }
    destruct (getLatestEvents_outcome q db L)
      as (_ & [K|[K|[K|[K|(K & _)]]]]); rewrite K;
      cbn [status not_initialized]; in_list.
Qed.

(** ** The properties of the handlers at concrete requests *)

Lemma rejections_never_write_witness :
  snd (createEvent (H := reference) 1000 1000 other_id rename_form sample_store)
  = sample_store
  /\ snd (updateEvent (H := reference) 5000 other_id rename_form sample_store)
     = sample_store
  /\ snd (deleteEvent (H := reference) other_id sample_store) = sample_store.
Proof.
  destruct (rejections_never_write (H := reference) 1000 1000 5000 other_id
              other_id rename_form sample_store) as (A & B & C).
  split; [|split].
  - apply A. vm_compute. discriminate.
  - apply B. vm_compute. discriminate.
  - apply C. vm_compute. discriminate.
Defined.

Lemma writes_keep_ids_unique_witness :
  unique_ids sample_store
  /\ unique_ids (snd (createEvent (H := reference) 2000 2000 other_id
                        (sample_form []) sample_store))
  /\ unique_ids (snd (updateEvent (H := reference) 5000 sample_id
                        (sample_form []) sample_store))
  /\ unique_ids (snd (deleteEvent (H := reference) sample_id sample_store)).
Proof.
  assert (unique_ids sample_store) as U by (vm_compute; repeat constructor).
  split; [exact U|].
  exact (writes_keep_ids_unique (H := reference) 2000 2000 5000 other_id
           sample_id (sample_form []) sample_store U).
Defined.

Lemma getEventById_finds_by_id_witness :
  (exists d, d ∈ sample_documents /\ get d "_id" = VOid sample_id
             /\ getEventById (H := reference) (id_query sample_id)
                  (Some sample_documents)
                = ({| status := 200; body := Data d |}, Some sample_documents))
  \/ ((forall d, d ∈ sample_documents -> get d "_id" <> VOid sample_id)
      /\ getEventById (H := reference) (id_query sample_id)
           (Some sample_documents)
         = ({| status := 404; body := Failure "Event not found" |},
            Some sample_documents)).
Proof.
  apply (getEventById_finds_by_id (H := reference) (id_query sample_id)
           sample_id sample_documents); vm_compute; reflexivity.
Defined.

Lemma create_then_read_witness :
  let run := createEvent (H := reference) 1000 1000 sample_id (sample_form [])
               (Some []) in
  exists (c : collection) (d : obj),
    Some [] = Some c /\ snd run = Some (c ++ [d])
    /\ d !! "_id" = Some (VOid sample_id)
    /\ body (fst run)
       = Message "Event created successfully" (d ∪ {["id" := VOid sample_id]})
    /\ getEventById (H := reference) (id_query sample_id) (snd run)
       = ({| status := 200; body := Data d |}, snd run).
Proof.
  cbv zeta.
  apply (create_then_read (H := reference) 1000 1000 sample_id (sample_form [])
           (Some []) _ _ sample_id (surjective_pairing _));
    [vm_compute; reflexivity | vm_compute; reflexivity | discriminate
    | vm_compute; reflexivity].
Defined.

Lemma update_then_read_witness :
  let run := updateEvent (H := reference) 5000 sample_id rename_form
               sample_store in
  exists d : obj,
    body (fst run) = Message "Event updated successfully" d
    /\ getEventById (H := reference) (id_query sample_id) (snd run)
       = ({| status := 200; body := Data d |}, snd run).
Proof.
  cbv zeta.
  apply (update_then_read (H := reference) 5000 sample_id rename_form
           sample_store _ _ (surjective_pairing _));
    [vm_compute; reflexivity | discriminate].
Defined.

Lemma delete_then_gone_witness :
  let run := deleteEvent (H := reference) sample_id sample_store in
  getEventById (H := reference) (id_query sample_id) (snd run)
  = ({| status := 404; body := Failure "Event not found" |}, snd run)
  /\ deleteEvent (H := reference) sample_id (snd run)
     = ({| status := 404; body := Failure "Event not found" |}, snd run).
Proof.
  cbv zeta.
  apply (delete_then_gone (H := reference) sample_id sample_store
           (snd (deleteEvent (H := reference) sample_id sample_store))
           (fst (deleteEvent (H := reference) sample_id sample_store)));
    [vm_compute; repeat constructor | apply surjective_pairing
    | vm_compute; reflexivity | discriminate].
Defined.

Lemma deleteEvent_removes_one_witness :
  let run := deleteEvent (H := reference) sample_id sample_store in
  exists (o : ObjectId) (c c' : collection),
    toObjectId (H := reference) (VStr sample_id) = Returned (Some o)
    /\ sample_store = Some c /\ snd run = Some c'
    /\ existsb (has_id o) c = true
    /\ (length c' + 1 = length c)%nat
    /\ others o c' = others o c
    /\ body (fst run)
       = Message "Event deleted successfully" {["deletedId" := VStr sample_id]}.
Proof.
  cbv zeta.
  apply (deleteEvent_removes_one (H := reference) sample_id sample_store _ _
           (surjective_pairing _)).
  vm_compute. reflexivity.
Defined.

Lemma updateEvent_touches_one_witness :
  let run := updateEvent (H := reference) 5000 sample_id rename_form
               sample_store in
  exists (o : ObjectId) (c c' : collection),
    toObjectId (H := reference) (VStr sample_id) = Returned (Some o)
    /\ sample_store = Some c /\ snd run = Some c'
    /\ length c' = length c
    /\ ids c' = ids c
    /\ others o c' = others o c.
Proof.
  cbv zeta.
  apply (updateEvent_touches_one (H := reference) 5000 sample_id rename_form
           sample_store _ _ (surjective_pairing _)).
  vm_compute. reflexivity.
Defined.

Lemma createEvent_stored_record_witness :
  let req := sample_form [] in
  let run := createEvent (H := reference) 1000 1000 sample_id req (Some []) in
  exists (c : collection) (d : obj) (path : jstring),
    Some [] = Some c /\ snd run = Some (c ++ [d]) /\ file req = Some path
    /\ d !! "type" = Some (VStr (js "event"))
    /\ d !! "image" = Some (VStr path)
    /\ d !! "created_at" = Some (VDate (Some 1000))
    /\ d !! "updated_at" = Some (VDate (Some 1000))
    /\ (exists (s : jstring) (z : Z),
          fields req !! "rigor_rank" = Some s /\ parseInt s = Int z /\ z <> 0
          /\ d !! "rigor_rank" = Some (VNum (Int z)))
    /\ (exists (s : jstring) (t : Z),
          fields req !! "schedule" = Some s
          /\ Date_parse (Platform := reference) (VStr s) = Some t
          /\ d !! "schedule" = Some (VDate (Some t)))
    /\ (exists n : number, number_truthy n = true /\ d !! "uid" = Some (VNum n))
    /\ (exists v : value,
          d !! "attendees" = Some v
          /\ (truthy v = true -> Array_isArray v = true))
    /\ (forall k : string, k ∈ text_fields ->
          exists s : jstring,
            fields req !! k = Some s /\ blank s = false
            /\ d !! k = Some (VStr s)).
Proof.
  cbv zeta.
  apply (createEvent_stored_record (H := reference) 1000 1000 sample_id
           (sample_form []) (Some []) _ _ (surjective_pairing _)).
  vm_compute. reflexivity.
Defined.

Lemma createEvent_without_file_witness :
  createEvent (H := reference) 1000 1000 other_id rename_form sample_store
  = ({| status := 400; body := Failure "Event image is required" |},
     sample_store).
Proof.
  exact (createEvent_without_file (H := reference) 1000 1000 other_id
           rename_form sample_store eq_refl).
Defined.

Lemma updateEvent_without_data_witness :
  updateEvent (H := reference) 5000 sample_id empty_form sample_store
  = ({| status := 400; body := Failure "No update data provided" |},
     sample_store).
Proof.
  exact (updateEvent_without_data (H := reference) 5000 sample_id empty_form
           sample_store eq_refl eq_refl).
Defined.

Lemma absent_identifier_404_witness :
  deleteEvent (H := reference) other_id (Some sample_documents)
  = ({| status := 404; body := Failure "Event not found" |},
     Some sample_documents)
  /\ updateEvent (H := reference) 5000 other_id rename_form
       (Some sample_documents)
     = ({| status := 404; body := Failure "Event not found" |},
        Some sample_documents).
Proof.
  destruct (absent_identifier_404 (H := reference) 5000 other_id rename_form
              other_id sample_documents) as [D U];
    try (vm_compute; reflexivity).
  split; [exact D|]. eapply U; vm_compute; reflexivity.
Defined.

Lemma validateEventData_update_partial_witness :
  validateEventData (H := reference) (body_copy rename_form) true = Returned tt
  /\ exists message,
       validateEventData (H := reference) (body_copy rename_form) false
       = Threw (APIError message 400).
Proof.
  apply (validateEventData_update_partial (H := reference)
           (body_copy rename_form)); vm_compute; reflexivity.
Defined.

Lemma validatePagination_offset_witness :
  let r := {| limit := Int 5; page := Int 3; skip := Int 10 |} in
  exists L : Z,
    limit r = Int L /\ 1 <= L <= 100
    /\ at_least 0 (skip r)
    /\ ((exists n : Z, page r = Int n /\ 1 <= n
                       /\ skip r = number_mul (of_integer (n - 1)) (Int L)
                       /\ ((n - 1) * L <= 2 ^ 53 ->
                           skip r = Int ((n - 1) * L)))
        \/ (page r = Infinity false /\ skip r = Infinity false)).
Proof.
  cbv zeta.
  apply (validatePagination_offset (VStr (js "5")) (VStr (js "3"))).
  vm_compute. reflexivity.
Defined.

Lemma getLatestEvents_page_slice_witness :
  exists pg : pagination,
    getLatestEvents (H := reference) second_page_query (Some sample_documents)
    = ({| status := 200; body := Page [] pg |}, Some sample_documents).
Proof.
  destruct (getLatestEvents_page_slice (H := reference) second_page_query
              sample_documents 10 2)
    as (events & pg & E & _ & _ & Beyond);
    try (vm_compute; reflexivity); try lia;
    try (apply Z.leb_le; vm_compute; reflexivity).
  exists pg. rewrite E, Beyond; [reflexivity|].
  apply Z.leb_le. vm_compute. reflexivity.
Defined.

Lemma updateEvent_is_partial_witness :
  let run := updateEvent (H := reference) 5000 sample_id rename_form
               sample_store in
  exists (o : ObjectId) (c c' : collection) (d d' : obj),
    toObjectId (H := reference) (VStr sample_id) = Returned (Some o)
    /\ sample_store = Some c /\ snd run = Some c'
    /\ List.find (has_id o) c = Some d
    /\ List.find (has_id o) c' = Some d'
    /\ body (fst run) = Message "Event updated successfully" d'
    /\ d' !! "updated_at" = Some (VDate (Some 5000))
    /\ (forall path, file rename_form = Some path ->
                     d' !! "image" = Some (VStr path))
    /\ (forall k, fields rename_form !! k = None -> k <> "updated_at" ->
                  (k = "image" -> file rename_form = None) ->
                  d' !! k = d !! k).
Proof.
  cbv zeta.
  apply (updateEvent_is_partial (H := reference) 5000 sample_id rename_form
           sample_store _ _ (surjective_pairing _));
    vm_compute; reflexivity.
Defined.

Lemma APIError_status_class_witness :
  100 <= 404 <= 999 /\ APIError_status 404 = "fail".
Proof.
  assert (100 <= 404 <= 999) as R by lia.
  split; [exact R|]. exact (APIError_status_class 404 R).
Defined.

Lemma errorHandler_classification_witness :
  errorHandler (PlainError "MongoError" "connection refused by 10.0.0.7")
  = {| status := 500; body := Failure "Database error occurred" |}.
Proof.
  destruct (errorHandler_classification
              (PlainError "MongoError" "connection refused by 10.0.0.7"))
    as (_ & _ & M & _).
  apply M. vm_compute. reflexivity.
Defined.

Lemma get_events_shadows_guards_witness :
  body (fst (getEventById (H := reference) latest_query sample_store))
  = Failure "Event ID is required"
  /\ body (fst (get_events (H := reference) latest_query sample_store))
     <> Failure "Event ID is required".
Proof.
  destruct (get_events_shadows_guards (H := reference) latest_query
              sample_store) as (N & _ & G & _).
  split; [apply G; reflexivity|exact N].
Defined.
